(** * statsbomb-viz: the ETL pipeline and its models, embedded in Rocq

    A shallow embedding of the bronze / silver / gold pipeline
    (src/pipeline), of the xG apply step (src/scripts/apply_xg_model.py),
    of the xT solver (src/scripts/xt_model.py) and of the PPDA
    aggregation (src/scripts/ppda.py).

    Conventions.
    - A DOUBLE (pandas float64, DuckDB DOUBLE) is an exact rational [Q];
      a missing value (None, NaN, SQL NULL) is [None].
    - An integer column (Int64, BIGINT) is [Z]; nullable ones are
      [option Z].
    - A table or DataFrame is the list of its rows, in row order.
    - A Python exception is a value of an error type threaded through the
      calls that can raise. *)

From Stdlib Require Import ZArith QArith Qround Qabs List Bool Sorted Lia.
From stdpp Require Import base option list gmap strings.

Local Open Scope string_scope.
Local Open Scope Z_scope.

(** ** Values held in a cell of a bronze DataFrame *)

Inductive cell : Type :=
| CNone                          (* Python None *)
| CNaN                           (* float('nan') *)
| CNum (q : Q)                   (* an int or a float *)
| CStr (s : string)              (* a str *)
| CBool (b : bool)               (* a bool *)
| CList (l : list (option Q)).   (* a list / ndarray of numbers or None *)

(** pandas [isna] on one value. *)
Definition isna (v : cell) : bool :=
  match v with
  | CNone | CNaN => true
  | _ => false
  end.

(** ** Calls that change a store and may raise

    A Python call with side effects on a store of type [S] that either
    returns a value or raises an exception of type [E]: the store it leaves
    behind, and the exception or the value. *)

Definition SE (S E A : Type) : Type := S -> S * (E + A).

Definition ret {S E A : Type} (a : A) : SE S E A := fun st => (st, inr a).

Definition raise {S E A : Type} (e : E) : SE S E A := fun st => (st, inl e).

Definition bind {S E A B : Type} (c : SE S E A) (k : A -> SE S E B) : SE S E B :=
  fun st =>
    match c st with
    | (st1, inl e) => (st1, inl e)
    | (st1, inr a) => k a st1
    end.

Declare Scope se_scope.
Delimit Scope se_scope with se.
Notation "x <- c ;; k" := (bind c (fun x => k))
  (at level 100, c at next level, right associativity) : se_scope.
Notation "c ;; k" := (bind c (fun _ => k))
  (at level 100, right associativity) : se_scope.

Lemma pair_of_snd {A B : Type} (x : A * B) (b : B) : snd x = b -> x = (fst x, b).
Proof. destruct x; simpl; intros ->; reflexivity. Qed.

(** A computation without side effects that may raise. *)
Definition ebind {E A B : Type} (c : E + A) (k : A -> E + B) : E + B :=
  match c with
  | inl e => inl e
  | inr a => k a
  end.

Declare Scope err_scope.
Delimit Scope err_scope with err.
Notation "x <~ c ;; k" := (ebind c (fun x => k))
  (at level 100, c at next level, right associativity) : err_scope.

Definition lift {S E A : Type} (r : E + A) : SE S E A :=
  match r with
  | inl e => raise e
  | inr a => ret a
  end.

(** [for x in l: f(x)] *)
Fixpoint for_each {S E A : Type} (f : A -> SE S E unit) (l : list A) : SE S E unit :=
  match l with
  | [] => ret tt
  | x :: rest => bind (f x) (fun _ => for_each f rest)
  end.

Lemma for_each_app {S E A : Type} (f : A -> SE S E unit) (l1 l2 : list A) (st : S) :
  for_each f (l1 ++ l2)%list st =
  match for_each f l1 st with
  | (st1, inl e) => (st1, inl e)
  | (st1, inr _) => for_each f l2 st1
  end.
Proof.
  revert st. induction l1 as [|x l1 IH]; intros st; simpl.
  - reflexivity.
  - unfold bind.
    destruct (f x st) as [st1 [e|[]]]; [reflexivity|]. apply IH.
Qed.

(** A loop stops at the first element whose body raises. *)
Lemma for_each_abort {S E A : Type} (f : A -> SE S E unit) (pre post : list A)
    (x : A) (st st1 st2 : S) (e : E) :
  for_each f pre st = (st1, inr tt) ->
  f x st1 = (st2, inl e) ->
  for_each f (pre ++ x :: post)%list st = (st2, inl e).
Proof.
  intros Hpre Hx. rewrite for_each_app, Hpre. simpl.
  unfold bind. rewrite Hx. reflexivity.
Qed.

(** ** pipeline/utils.py *)

Module Utils.

(** [float(arr[i]) if len(arr) > i and arr[i] is not None else None] *)
Definition elem (arr : list (option Q)) (i : nat) : option Q :=
  match arr !! i with
  | Some (Some q) => Some q
  | _ => None
  end.

(** The inner function [extract] of [unpack_location]. *)
Definition extract (v : cell) : option Q * option Q * option Q :=
  match v with
  | CNone => (None, None, None)
  | CNaN => (None, None, None)
  | CList arr => (elem arr 0, elem arr 1, elem arr 2)
  | _ => (None, None, None)
  end.

(** The frame [unpack_location] returns: named columns, in column order. *)
Definition LocFrame : Type := list (string * list (option Q)).

Definition all_null (c : list (option Q)) : bool :=
  forallb (fun o => match o with None => true | Some _ => false end) c.

Definition unpack_location (series : list cell) (prefix : string) : LocFrame :=
  let unpacked := map extract series in
  let result :=
    [ (prefix ++ "_x", map (fun t => fst (fst t)) unpacked);
      (prefix ++ "_y", map (fun t => snd (fst t)) unpacked);
      (prefix ++ "_z", map snd unpacked) ] in
  if all_null (map snd unpacked)
  then List.filter (fun c => negb (String.eqb (fst c) (prefix ++ "_z"))) result
  else result.

(** [df[name]] on the returned frame; [None] is a KeyError. *)
Fixpoint column (df : LocFrame) (name : string) : option (list (option Q)) :=
  match df with
  | [] => None
  | (n, c) :: rest => if String.eqb n name then Some c else column rest name
  end.

(** The (x, y) pair the frame holds at row [i]. *)
Definition xy_at (df : LocFrame) (prefix : string) (i : nat)
  : option (option Q * option Q) :=
  match column df (prefix ++ "_x"), column df (prefix ++ "_y") with
  | Some xs, Some ys =>
      match xs !! i, ys !! i with
      | Some x, Some y => Some (x, y)
      | _, _ => None
      end
  | _, _ => None
  end.

Definition has_column (df : LocFrame) (name : string) : bool :=
  match column df name with Some _ => true | None => false end.

(** A value whose third element exists and is not None. *)
Definition has_z (v : cell) : bool :=
  match v with
  | CList (_ :: _ :: Some _ :: _) => true
  | _ => false
  end.

Example unpack_two :
  unpack_location [CList [Some (60#1); Some (40#1)]] "location"
  = [("location_x", [Some (60#1)]); ("location_y", [Some (40#1)])].
Proof. reflexivity. Qed.

Example unpack_three_keeps_z :
  unpack_location [CNone; CList [Some (120#1); Some (36#1); Some (3#2)]] "end_location"
  = [("end_location_x", [None; Some (120#1)]);
     ("end_location_y", [None; Some (36#1)]);
     ("end_location_z", [None; Some (3#2)])].
Proof. reflexivity. Qed.

(** *** Properties of [unpack_location] *)

Lemma append_eqb_suffix (p a b : string) :
  String.eqb (p ++ a) (p ++ b) = String.eqb a b.
Proof.
  induction p as [|c p IH]; simpl; [reflexivity|].
  rewrite Ascii.eqb_refl. exact IH.
Qed.

Lemma column_x (series : list cell) (prefix : string) :
  column (unpack_location series prefix) (prefix ++ "_x")
  = Some (map (fun t => fst (fst t)) (map extract series)).
Proof.
  unfold unpack_location.
  destruct (all_null _); simpl;
    rewrite ?append_eqb_suffix; simpl;
    rewrite ?append_eqb_suffix; reflexivity.
Qed.

Lemma column_y (series : list cell) (prefix : string) :
  column (unpack_location series prefix) (prefix ++ "_y")
  = Some (map (fun t => snd (fst t)) (map extract series)).
Proof.
  unfold unpack_location.
  destruct (all_null _); simpl;
    rewrite ?append_eqb_suffix; simpl;
    rewrite ?append_eqb_suffix; reflexivity.
Qed.

Lemma xy_at_extract (series : list cell) (prefix : string) (i : nat) (v : cell) :
  series !! i = Some v ->
  xy_at (unpack_location series prefix) prefix i = Some (fst (extract v)).
Proof.
  intros Hi. unfold xy_at. rewrite column_x, column_y.
  rewrite !list_lookup_fmap, Hi. simpl.
  destruct (extract v) as [[x y] z]. reflexivity.
Qed.

Lemma column_z (series : list cell) (prefix : string) :
  has_column (unpack_location series prefix) (prefix ++ "_z")
  = negb (all_null (map snd (map extract series))).
Proof.
  unfold has_column, unpack_location.
  destruct (all_null _); simpl;
    rewrite ?append_eqb_suffix; simpl;
    rewrite ?append_eqb_suffix; simpl;
    rewrite ?String.eqb_refl; reflexivity.
Qed.

Lemma extract_z_has_z (v : cell) :
  snd (extract v) <> None <-> has_z v = true.
Proof.
  destruct v as [| | q | s | b | l]; simpl; try (split; congruence).
  destruct l as [|x [|y [|[z|] l]]]; simpl; unfold elem; simpl;
    split; congruence.
Qed.

Lemma all_null_false_iff (c : list (option Q)) :
  all_null c = false <-> exists q, Some q ∈ c.
Proof.
  induction c as [|[q|] c IH]; simpl.
  - split; [discriminate|]. intros [q Hq]. inversion Hq.
  - split; [|reflexivity]. intros _. exists q. left.
  - rewrite IH. split; intros [q Hq]; exists q.
    + right. exact Hq.
    + inversion Hq; subst; assumption.
Qed.

(** C6. Location unpacking, value by value: a 2-element list [x, y] gives
    (x, y); None, NaN and the empty list give (None, None); a 1-element
    list [x] gives (x, None); the third element of a 3-element list is not
    part of the (x, y) pair; and the frame keeps a z column exactly when
    some value of the whole series has a non-null third element. *)
Theorem unpack_location_spec
  (series : list cell) (prefix : string) (i : nat) (v : cell) :
  series !! i = Some v ->
  let df := unpack_location series prefix in
  (forall x y, v = CList [x; y] -> xy_at df prefix i = Some (x, y)) /\
  (v = CNone \/ v = CNaN \/ v = CList [] ->
     xy_at df prefix i = Some (None, None)) /\
  (forall x, v = CList [x] -> xy_at df prefix i = Some (x, None)) /\
  (forall x y z, v = CList [x; y; z] -> xy_at df prefix i = Some (x, y)) /\
  (has_column df (prefix ++ "_z") = true <->
     exists w, w ∈ series /\ has_z w = true).
Proof.
  intros Hi df. subst df.
  rewrite (xy_at_extract _ _ _ _ Hi).
  repeat split.
  - intros [x|] [y|] ->; reflexivity.
  - intros [-> | [-> | ->]]; reflexivity.
  - intros [x|] ->; reflexivity.
  - intros [x|] [y|] z ->; reflexivity.
  - rewrite column_z, negb_true_iff, all_null_false_iff.
    intros [q Hq]. apply list_elem_of_fmap in Hq as [t [Ht Hin]].
    apply list_elem_of_fmap in Hin as [w [-> Hw]].
    exists w. split; [exact Hw|]. apply extract_z_has_z. congruence.
  - intros [w [Hw Hz]]. rewrite column_z, negb_true_iff, all_null_false_iff.
    apply extract_z_has_z in Hz.
    destruct (snd (extract w)) as [q|] eqn:E; [|congruence].
    exists q. apply list_elem_of_fmap. exists (extract w). split; [congruence|].
    apply list_elem_of_fmap. exists w. split; [reflexivity | exact Hw].
Qed.

Lemma unpack_location_spec_witness :
  [CList [Some (60#1); Some (40#1)]; CNaN;
   CList [Some (120#1); Some (36#1); Some (3#2)]] !! 2%nat
    = Some (CList [Some (120#1); Some (36#1); Some (3#2)]) /\
  xy_at (unpack_location
           [CList [Some (60#1); Some (40#1)]; CNaN;
            CList [Some (120#1); Some (36#1); Some (3#2)]] "end_location")
        "end_location" 2
    = Some (Some (120#1), Some (36#1)) /\
  has_column (unpack_location
                [CList [Some (60#1); Some (40#1)]; CNaN;
                 CList [Some (120#1); Some (36#1); Some (3#2)]] "end_location")
             "end_location_z" = true.
Proof.
  pose proof (unpack_location_spec
                [CList [Some (60#1); Some (40#1)]; CNaN;
                 CList [Some (120#1); Some (36#1); Some (3#2)]]
                "end_location" 2
                (CList [Some (120#1); Some (36#1); Some (3#2)]) eq_refl) as H.
  simpl in H. destruct H as (_ & _ & _ & H3 & Hz).
  split; [reflexivity|]. split.
  - apply (H3 (Some (120#1)) (Some (36#1)) (Some (3#2))). reflexivity.
  - apply Hz. exists (CList [Some (120#1); Some (36#1); Some (3#2)]).
    split; [|reflexivity]. right. right. left.
Defined.

End Utils.

(** ** pipeline/bronze.py *)

Module Bronze.

Local Close Scope string_scope.
Local Open Scope se_scope.

(** The logical units of a bronze run: one snapshot artifact each. *)
Inductive unit_id : Type :=
| UCompetitions
| UMatches (competition_id season_id : Z)
| UEvents (match_id : Z)
| ULineups (match_id : Z).

(** data/statsbomb_raw: which JSON files exist. A matches file is kept with
    the match ids it lists, since [run] reads them back. *)
Record RawDir : Type := {
  raw_competitions : bool;
  raw_matches : gmap (Z * Z) (list Z);
  raw_events : gset Z;
  raw_lineups : gset Z
}.

(** BRONZE_PATH: which Parquet artifacts exist. *)
Record BronzeDir : Type := {
  bz_competitions : bool;
  bz_matches : gset (Z * Z);
  bz_events : gset Z;
  bz_lineups : gset Z
}.

(** [path.read_text()] on a file that does not exist. A source that exists
    is taken to hold the JSON StatsBomb publishes, on which [json.loads],
    the field accesses of the ingesters and [to_parquet] return: the runs
    below raise on a missing source only. *)
Inductive exn : Type :=
| FileNotFoundError (u : unit_id).

Abbreviation M := (SE BronzeDir exn).

Definition ingest_competitions (raw : RawDir) (force : bool) : M unit :=
  fun st =>
    if bz_competitions st && negb force then (st, inr tt)
    else if raw_competitions raw
         then ({| bz_competitions := true;
                  bz_matches := bz_matches st;
                  bz_events := bz_events st;
                  bz_lineups := bz_lineups st |}, inr tt)
         else (st, inl (FileNotFoundError UCompetitions)).

Definition ingest_matches (raw : RawDir) (competition_id season_id : Z)
    (force : bool) : M unit :=
  fun st =>
    if bool_decide ((competition_id, season_id) ∈ bz_matches st) && negb force
    then (st, inr tt)
    else match raw_matches raw !! (competition_id, season_id) with
         | Some _ =>
             ({| bz_competitions := bz_competitions st;
                 bz_matches := {[ (competition_id, season_id) ]} ∪ bz_matches st;
                 bz_events := bz_events st;
                 bz_lineups := bz_lineups st |}, inr tt)
         | None => (st, inl (FileNotFoundError (UMatches competition_id season_id)))
         end.

Definition ingest_events (raw : RawDir) (match_id : Z) (force : bool) : M unit :=
  fun st =>
    if bool_decide (match_id ∈ bz_events st) && negb force then (st, inr tt)
    else if bool_decide (match_id ∈ raw_events raw)
         then ({| bz_competitions := bz_competitions st;
                  bz_matches := bz_matches st;
                  bz_events := {[ match_id ]} ∪ bz_events st;
                  bz_lineups := bz_lineups st |}, inr tt)
         else (st, inl (FileNotFoundError (UEvents match_id))).

Definition ingest_lineups (raw : RawDir) (match_id : Z) (force : bool) : M unit :=
  fun st =>
    if bool_decide (match_id ∈ bz_lineups st) && negb force then (st, inr tt)
    else if bool_decide (match_id ∈ raw_lineups raw)
         then ({| bz_competitions := bz_competitions st;
                  bz_matches := bz_matches st;
                  bz_events := bz_events st;
                  bz_lineups := {[ match_id ]} ∪ bz_lineups st |}, inr tt)
         else (st, inl (FileNotFoundError (ULineups match_id))).

(** One entry of config/competitions.yaml. *)
Record competition : Type := {
  competition_id : Z;
  season_id : Z;
  enabled : bool
}.

(** [json.loads(match_file.read_text())] and the list of its match ids. *)
Definition read_match_ids (raw : RawDir) (cid sid : Z) : M (list Z) :=
  match raw_matches raw !! (cid, sid) with
  | Some ids => ret ids
  | None => raise (FileNotFoundError (UMatches cid sid))
  end.

(** The body of the inner loop of [run]. *)
Definition ingest_match (raw : RawDir) (force : bool) (mid : Z) : M unit :=
  ingest_events raw mid force ;;
  ingest_lineups raw mid force.

(** The body of the outer loop of [run]. *)
Definition ingest_competition (raw : RawDir) (force : bool) (comp : competition)
  : M unit :=
  let cid := competition_id comp in
  let sid := season_id comp in
  ingest_matches raw cid sid force ;;
  match_ids <- read_match_ids raw cid sid ;;
  for_each (ingest_match raw force) match_ids.

Definition run (raw : RawDir) (cfg : list competition) (force : bool) : M unit :=
  let competitions := List.filter enabled cfg in
  ingest_competitions raw force ;;
  for_each (ingest_competition raw force) competitions.

Definition empty_bronze : BronzeDir :=
  {| bz_competitions := false; bz_matches := ∅; bz_events := ∅; bz_lineups := ∅ |}.

(** Two matches of one competition; the events file of match 1 is missing. *)
Definition raw_missing_events_1 : RawDir :=
  {| raw_competitions := true;
     raw_matches := {[ (43, 106) := [1; 2] ]};
     raw_events := {[ 2 ]};
     raw_lineups := {[ 1; 2 ]} |}.

Definition cfg_wc : list competition :=
  [ {| competition_id := 43; season_id := 106; enabled := true |} ].

(** What the run would guarantee if a failing unit did not stop its
    siblings: every listed match whose raw file exists has its artifact. *)
Definition siblings_ingested (raw : RawDir) (cfg : list competition)
    (force : bool) (st : BronzeDir) : Prop :=
  let st' := fst (run raw cfg force st) in
  forall comp mids mid,
    comp ∈ cfg -> enabled comp = true ->
    raw_matches raw !! (competition_id comp, season_id comp) = Some mids ->
    mid ∈ mids ->
    (mid ∈ raw_events raw -> mid ∈ bz_events st') /\
    (mid ∈ raw_lineups raw -> mid ∈ bz_lineups st').

(** *** Properties of [run] *)

Lemma run_missing_events_1 :
  run raw_missing_events_1 cfg_wc false empty_bronze
  = ({| bz_competitions := true;
        bz_matches := {[ (43, 106) ]} ∪ ∅;
        bz_events := ∅;
        bz_lineups := ∅ |},
     inl (FileNotFoundError (UEvents 1))).
Proof. reflexivity. Qed.

Lemma filter_enabled_app (cfg_pre cfg_post : list competition) (comp : competition) :
  enabled comp = true ->
  List.filter enabled (cfg_pre ++ comp :: cfg_post)
  = List.filter enabled cfg_pre ++ comp :: List.filter enabled cfg_post.
Proof.
  intros He. rewrite List.filter_app. simpl. rewrite He. reflexivity.
Qed.

(** The part of [run] executed before the inner loop reaches its
    (length mids_pre)-th match of competition [comp]. *)
Definition run_until (raw : RawDir) (force : bool) (cfg_pre : list competition)
    (comp : competition) (mids_pre : list Z) : M unit :=
  ingest_competitions raw force ;;
  for_each (ingest_competition raw force) (List.filter enabled cfg_pre) ;;
  ingest_matches raw (competition_id comp) (season_id comp) force ;;
  for_each (ingest_match raw force) mids_pre.

Lemma run_stops_at_failing_match
    (raw : RawDir) (force : bool) (cfg_pre cfg_post : list competition)
    (comp : competition) (mids_pre mids_post : list Z) (mid : Z)
    (st st1 st2 : BronzeDir) (e : exn) :
  enabled comp = true ->
  raw_matches raw !! (competition_id comp, season_id comp)
    = Some (mids_pre ++ mid :: mids_post) ->
  run_until raw force cfg_pre comp mids_pre st = (st1, inr tt) ->
  ingest_match raw force mid st1 = (st2, inl e) ->
  run raw (cfg_pre ++ comp :: cfg_post) force st = (st2, inl e).
Proof.
  intros He Hraw Hpre Hmid.
  unfold run. rewrite (filter_enabled_app _ _ _ He).
  unfold run_until in Hpre. unfold bind in *.
  destruct (ingest_competitions raw force st) as [sa [ea|[]]]; [discriminate|].
  rewrite for_each_app.
  destruct (for_each (ingest_competition raw force) (List.filter enabled cfg_pre) sa)
    as [sb [eb|[]]]; [discriminate|].
  simpl. unfold bind, ingest_competition, read_match_ids, bind.
  destruct (ingest_matches raw (competition_id comp) (season_id comp) force sb)
    as [sc [ec|[]]]; [discriminate|].
  rewrite Hraw. unfold ret.
  rewrite (for_each_abort _ _ _ _ _ _ _ _ Hpre Hmid). reflexivity.
Qed.

(** The claim as stated fails: the events file of match 1 is missing, the
    files of match 2 exist, and match 2 is never ingested. *)
Lemma run_missing_events_blocks_sibling :
  2 ∈ raw_events raw_missing_events_1 /\
  snd (run raw_missing_events_1 cfg_wc false empty_bronze)
    = inl (FileNotFoundError (UEvents 1)) /\
  (2 ∉ bz_events (fst (run raw_missing_events_1 cfg_wc false empty_bronze))) /\
  ~ siblings_ingested raw_missing_events_1 cfg_wc false empty_bronze.
Proof.
  unfold siblings_ingested. rewrite run_missing_events_1. simpl.
  split; [set_solver|]. split; [reflexivity|]. split; [set_solver|].
  intros H.
  destruct (H {| competition_id := 43; season_id := 106; enabled := true |}
              [1; 2] 2) as [Hev _].
  - left.
  - reflexivity.
  - reflexivity.
  - right. left.
  - assert (Hin : 2 ∈ raw_events raw_missing_events_1) by (simpl; set_solver).
    specialize (Hev Hin). set_solver.
Qed.

(** C2, amended. A missing raw events or lineups file of one match, when
    that artifact is not skipped as already present, raises
    FileNotFoundError out of [run]: the bronze directory is left as it was
    when the failing unit was reached (what was written before stays, the
    events artifact of the same match included when the lineups file is the
    missing one), and nothing after that unit is ingested. *)
Theorem run_aborts_at_missing_source
    (raw : RawDir) (force : bool) (cfg_pre cfg_post : list competition)
    (comp : competition) (mids_pre mids_post : list Z) (mid : Z)
    (st st1 : BronzeDir) :
  enabled comp = true ->
  raw_matches raw !! (competition_id comp, season_id comp)
    = Some (mids_pre ++ mid :: mids_post) ->
  run_until raw force cfg_pre comp mids_pre st = (st1, inr tt) ->
  (mid ∉ raw_events raw ->
   bool_decide (mid ∈ bz_events st1) && negb force = false ->
   run raw (cfg_pre ++ comp :: cfg_post) force st
   = (st1, inl (FileNotFoundError (UEvents mid)))) /\
  (forall st1',
   ingest_events raw mid force st1 = (st1', inr tt) ->
   mid ∉ raw_lineups raw ->
   bool_decide (mid ∈ bz_lineups st1') && negb force = false ->
   run raw (cfg_pre ++ comp :: cfg_post) force st
   = (st1', inl (FileNotFoundError (ULineups mid)))).
Proof.
  intros He Hraw Hpre. split.
  - intros Hmiss Hneed.
    apply (run_stops_at_failing_match raw force cfg_pre cfg_post comp
             mids_pre mids_post mid st st1 _ _ He Hraw Hpre).
    unfold ingest_match, bind, ingest_events. rewrite Hneed.
    rewrite bool_decide_eq_false_2 by exact Hmiss. reflexivity.
  - intros st1' Hev Hmiss Hneed.
    apply (run_stops_at_failing_match raw force cfg_pre cfg_post comp
             mids_pre mids_post mid st st1 _ _ He Hraw Hpre).
    unfold ingest_match, bind. rewrite Hev.
    unfold ingest_lineups. rewrite Hneed.
    rewrite bool_decide_eq_false_2 by exact Hmiss. reflexivity.
Qed.

Lemma run_aborts_at_missing_source_witness :
  (1 ∉ raw_events raw_missing_events_1) /\
  run raw_missing_events_1 cfg_wc false empty_bronze
  = ({| bz_competitions := true;
        bz_matches := {[ (43, 106) ]} ∪ ∅;
        bz_events := ∅;
        bz_lineups := ∅ |},
     inl (FileNotFoundError (UEvents 1))).
Proof.
  assert (Hmiss : 1 ∉ raw_events raw_missing_events_1) by (simpl; set_solver).
  split; [exact Hmiss|].
  refine (proj1 (run_aborts_at_missing_source raw_missing_events_1 false
                   [] []
                   {| competition_id := 43; season_id := 106; enabled := true |}
                   [] [2] 1 empty_bronze _ eq_refl eq_refl eq_refl) Hmiss _).
  apply andb_false_intro1. apply bool_decide_eq_false_2. simpl. set_solver.
Defined.

End Bronze.

(** ** The silver fact tables

    One record per row. Text columns stay [cell]s (a VARCHAR is NULL exactly
    when the cell [isna]); numeric columns are already coerced. Of
    fact_events, fact_passes and fact_shots only the columns some later
    stage reads are kept: each column left out is a projection of one source
    column and feeds no other column. A row of fact_carries has all its
    columns. *)

Record event_row : Type := {
  ev_event_id : cell;
  ev_match_id : option Z;
  ev_period : option Z;
  ev_minute : option Z;
  ev_second : option Z;
  ev_type : cell;
  ev_player_id : option Z;
  ev_player : cell;
  ev_team_id : option Z;
  ev_team : cell;
  ev_location_x : option Q;
  ev_location_y : option Q
}.

Record pass_row : Type := {
  p_event_id : cell;
  p_match_id : option Z;
  p_player_id : option Z;
  p_team_id : option Z;
  p_period : option Z;
  p_minute : option Z;
  p_second : option Z;
  p_location_x : option Q;
  p_location_y : option Q;
  p_end_location_x : option Q;
  p_end_location_y : option Q;
  p_outcome : cell;
  p_is_completed : bool;
  p_pass_type : cell;
  p_recipient_id : option Z
}.

Record shot_row : Type := {
  s_event_id : cell;
  s_match_id : option Z;
  s_player_id : option Z;
  s_team_id : option Z;
  s_period : option Z;
  s_minute : option Z;
  s_second : option Z;
  s_location_x : option Q;
  s_location_y : option Q;
  s_xg : option Q;
  s_outcome : cell;
  s_is_goal : bool;
  s_body_part : cell;
  s_shot_type : cell;
  s_is_first_time : bool;
  s_under_pressure : bool
}.

Record carry_row : Type := {
  c_event_id : cell;
  c_match_id : option Z;
  c_player_id : option Z;
  c_team_id : option Z;
  c_period : option Z;
  c_minute : option Z;
  c_second : option Z;
  c_location_x : option Q;
  c_location_y : option Q;
  c_end_location_x : option Q;
  c_end_location_y : option Q;
  c_duration : option Q;
  c_under_pressure : bool
}.

(** [series == s] on one value of an object column. *)
Definition str_eq (v : cell) (s : string) : bool :=
  match v with
  | CStr t => String.eqb t s
  | _ => false
  end.

(** ** pipeline/silver.py *)

Module Silver.

Local Open Scope se_scope.

(** A bronze DataFrame after [_read_bronze]: its column names and its rows.
    A row holds NaN where a concatenated file had no such column. *)
Record DataFrame : Type := {
  columns : list string;
  rows : list (gmap string cell)
}.

Definition get (r : gmap string cell) (name : string) : cell :=
  default CNaN (r !! name).

Definition has_col (df : DataFrame) (name : string) : bool :=
  bool_decide (name ∈ columns df).

(** The tables of the DuckDB store. *)
Inductive table : Type :=
| TFrame (df : DataFrame)
| TEvents (l : list event_row)
| TPasses (l : list pass_row)
| TShots (l : list shot_row)
| TCarries (l : list carry_row).

(** The statements the stage sends to DuckDB. The connection is in
    auto-commit mode: each statement that returns is committed on its own. *)
Inductive statement : Type :=
| DropTable (name : string)                  (* DROP TABLE IF EXISTS name *)
| CreateTableAs (name : string) (t : table)  (* CREATE TABLE name AS SELECT * FROM df *)
| CreateTable (name : string) (cols : list string)
                                             (* CREATE TABLE name (cols) *)
| SelectCount (name : string).               (* SELECT COUNT( * ) FROM name *)

(** The calls into duckdb. *)
Inductive db_call : Type :=
| Connect                    (* duckdb.connect(path) *)
| Execute (s : statement).   (* con.execute(sql) *)

Inductive exn : Type :=
| FileNotFoundError (layer : string)   (* no parquet files in the layer *)
| KeyError (name : string)             (* df[name] on a missing column *)
| TypeError (column : string)          (* .astype("Int64") on a column with a
                                          number that is not whole *)
| BuildError (table : string)          (* any other exception while the
                                          frame of [table] is assembled *)
| DuckDBError (c : db_call).           (* duckdb.Error out of a call *)

(** The columns a builder reads with [df[name]], in evaluation order: the
    first one that is missing raises. *)
Definition require (df : DataFrame) (names : list string) : exn + unit :=
  match List.find (fun n => negb (has_col df n)) names with
  | Some n => inl (KeyError n)
  | None => inr tt
  end.

(** [_col(df, name)] at one row. *)
Definition _col (df : DataFrame) (name : string) (r : gmap string cell) : cell :=
  if has_col df name then get r name else CNone.

(** [_bool_col] on one value: fillna(False).astype(bool). *)
Definition _bool_col (v : cell) : bool :=
  match v with
  | CNone | CNaN => false
  | CBool b => b
  | CNum q => negb (Qeq_bool q 0)
  | CStr s => negb (String.eqb s "")
  | CList l => match l with [] => false | _ => true end
  end.

(** An int64 column read as is. *)
Definition as_int (v : cell) : option Z :=
  match v with
  | CNum q => if Pos.eqb (Qden q) 1 then Some (Qnum q) else None
  | _ => None
  end.

(** What [.astype("Int64")] accepts: a missing value or a whole number. On
    any other number it raises TypeError (cannot safely cast). *)
Definition is_whole (o : option Q) : bool :=
  match o with
  | Some q => Qeq_bool (inject_Z (Qfloor q)) q
  | None => true
  end.

(** What a builder does with a column of the frame it reads, in evaluation
    order: [df[name]], and [_int_col] on the column. *)
Inductive use : Type :=
| Index (name : string)
| Int64 (name : string).

Abbreviation Store := (gmap string table).
Abbreviation M := (SE Store exn).

(** The table written when no freeze frame has a row. *)
Definition empty_freeze_frame : DataFrame :=
  {| columns := ["event_id"; "match_id"; "player_id"; "player_name";
                 "position"; "location_x"; "location_y"; "is_teammate"];
     rows := [] |}.

Lemma bind_ext {A B : Type} (c1 c2 : M A) (k1 k2 : A -> M B) (con : Store) :
  c1 con = c2 con -> (forall a s, k1 a s = k2 a s) ->
  bind c1 k1 con = bind c2 k2 con.
Proof.
  intros Hc Hk. unfold bind. rewrite Hc.
  destruct (c2 con) as [s [e|a]]; [reflexivity | apply Hk].
Qed.

Lemma bind_ret (c : M unit) (con : Store) : bind c (fun _ => ret tt) con = c con.
Proof. unfold bind, ret. destruct (c con) as [s [e|[]]]; reflexivity. Qed.

Section Stage.

(** Whether a call into duckdb raises. The answer depends on the call
    alone: on the statement and, for CREATE TABLE AS, on the frame it
    selects from. *)
Variable duckdb_raises : db_call -> bool.

(** The bronze layers on disk, concatenated and normalised; [None] when the
    layer has no parquet file. *)
Variable bronze : string -> option DataFrame.

(** pandas coercions, one value at a time. *)
Variable to_numeric : cell -> option Q.       (* pd.to_numeric(errors="coerce") *)
Variable astype_Int64 : option Q -> option Z. (* .astype("Int64"), where it
                                                 returns *)

(** The frames of the tables no fact query of the model reads, as pandas
    assembles them from a bronze frame; [None] when that raises. *)
Variable dim_competition_frame : DataFrame -> option DataFrame.
Variable dim_match_frame : DataFrame -> option DataFrame.
Variable dim_team_frame : DataFrame -> option DataFrame.
Variable dim_player_frame : DataFrame -> option DataFrame.
Variable fact_lineups_frame : DataFrame -> option DataFrame.
Variable freeze_frame_rows : DataFrame -> option DataFrame.

(** *** The store

    [close()] in the [finally] of [run] and the log calls are taken to
    return. *)

Definition get_db_connection : M unit :=
  fun con =>
    if duckdb_raises Connect then (con, inl (DuckDBError Connect))
    else (con, inr tt).

(** [con.execute(sql)]: the call may raise by itself; CREATE raises on a
    table that exists, and a query on a table that does not. *)
Definition execute (s : statement) : M unit :=
  fun con =>
    if duckdb_raises (Execute s) then (con, inl (DuckDBError (Execute s)))
    else
      match s with
      | DropTable name => (delete name con, inr tt)
      | CreateTableAs name t =>
          match con !! name with
          | None => (<[name := t]> con, inr tt)
          | Some _ => (con, inl (DuckDBError (Execute s)))
          end
      | CreateTable name cols =>
          match con !! name with
          | None => (<[name := TFrame {| columns := cols; rows := [] |}]> con, inr tt)
          | Some _ => (con, inl (DuckDBError (Execute s)))
          end
      | SelectCount name =>
          match con !! name with
          | Some _ => (con, inr tt)
          | None => (con, inl (DuckDBError (Execute s)))
          end
      end.

Definition _drop_create (name : string) (t : table) : M unit :=
  execute (DropTable name) ;;
  execute (CreateTableAs name t) ;;
  execute (SelectCount name).

(** *** Columns *)

Definition _int_col (v : cell) : option Z := astype_Int64 (to_numeric v).

(** Whether [_int_col] returns on column [name] of the rows [rs] of [df]. *)
Definition casts (df : DataFrame) (rs : list (gmap string cell)) (name : string)
  : bool :=
  forallb (fun r => is_whole (to_numeric (_col df name r))) rs.

(** The first use that raises, if any. *)
Fixpoint checks (df : DataFrame) (rs : list (gmap string cell)) (uses : list use)
  : exn + unit :=
  match uses with
  | [] => inr tt
  | Index name :: rest =>
      if has_col df name then checks df rs rest else inl (KeyError name)
  | Int64 name :: rest =>
      if casts df rs name then checks df rs rest else inl (TypeError name)
  end.

Definition _read_bronze (layer : string) : exn + DataFrame :=
  match bronze layer with
  | Some df => inr df
  | None => inl (FileNotFoundError layer)
  end.

Definition assemble (name : string) (f : DataFrame -> option DataFrame)
    (df : DataFrame) : exn + DataFrame :=
  match f df with
  | Some out => inr out
  | None => inl (BuildError name)
  end.

(** *** Dimension tables

    Each builder assembles its frame in memory ([*_out], which may raise)
    and then calls [_drop_create]. *)

Definition dim_competition_out : exn + table :=
  (df <~ _read_bronze "competitions" ;;
   _ <~ require df ["competition_id"; "season_id"; "competition_name";
                    "season_name"; "country_name"] ;;
   out <~ assemble "dim_competition" dim_competition_frame df ;;
   inr (TFrame out))%err.

Definition build_dim_competition : M unit :=
  out <- lift dim_competition_out ;;
  _drop_create "dim_competition" out.

Definition dim_match_out : exn + table :=
  (df <~ _read_bronze "matches" ;;
   _ <~ require df ["match_id"; "match_date"; "home_score"; "away_score";
                    "match_week"] ;;
   out <~ assemble "dim_match" dim_match_frame df ;;
   inr (TFrame out))%err.

Definition build_dim_match : M unit :=
  out <- lift dim_match_out ;;
  _drop_create "dim_match" out.

Definition dim_team_out : exn + table :=
  (df <~ _read_bronze "matches" ;;
   out <~ assemble "dim_team" dim_team_frame df ;;
   inr (TFrame out))%err.

Definition build_dim_team : M unit :=
  out <- lift dim_team_out ;;
  _drop_create "dim_team" out.

Definition dim_player_out : exn + table :=
  (df <~ _read_bronze "lineups" ;;
   _ <~ require df ["player_id"; "player_name"] ;;
   out <~ assemble "dim_player" dim_player_frame df ;;
   inr (TFrame out))%err.

Definition build_dim_player : M unit :=
  out <- lift dim_player_out ;;
  _drop_create "dim_player" out.

(** *** Fact tables

    The rows of a fact table are given for a frame on which every
    [_int_col] of the builder returns; the builder raises on the others
    ([checks]). A location cell holds numbers, on which [float] returns. *)

Definition fact_events_rows (df : DataFrame) : list event_row :=
  map (fun r =>
         let loc := Utils.extract (get r "location") in
         {| ev_event_id := get r "id";
            ev_match_id := as_int (get r "match_id");
            ev_period := _int_col (get r "period");
            ev_minute := _int_col (get r "minute");
            ev_second := _int_col (get r "second");
            ev_type := _col df "type" r;
            ev_player_id := _int_col (_col df "player_id" r);
            ev_player := _col df "player" r;
            ev_team_id := _int_col (_col df "team_id" r);
            ev_team := _col df "team" r;
            ev_location_x := fst (fst loc);
            ev_location_y := snd (fst loc) |})
      (rows df).

Definition fact_events_out (df : DataFrame) : exn + table :=
  (_ <~ checks df (rows df)
          [Index "location"; Index "id"; Index "match_id";
           Index "index"; Int64 "index"; Index "period"; Int64 "period";
           Index "timestamp"; Index "minute"; Int64 "minute";
           Index "second"; Int64 "second"; Int64 "player_id"; Int64 "team_id";
           Int64 "possession"; Int64 "possession_team_id"] ;;
   inr (TEvents (fact_events_rows df)))%err.

Definition build_fact_events (df : DataFrame) : M unit :=
  out <- lift (fact_events_out df) ;;
  _drop_create "fact_events" out.

(** [df[df["type"] == kind]] *)
Definition of_type (kind : string) (df : DataFrame) : list (gmap string cell) :=
  List.filter (fun r => str_eq (get r "type") kind) (rows df).

Definition fact_passes_rows (df : DataFrame) : list pass_row :=
  map (fun r =>
         let loc := Utils.extract (get r "location") in
         let end_loc := Utils.extract (_col df "pass_end_location" r) in
         {| p_event_id := get r "id";
            p_match_id := as_int (get r "match_id");
            p_player_id := _int_col (_col df "player_id" r);
            p_team_id := _int_col (_col df "team_id" r);
            p_period := _int_col (get r "period");
            p_minute := _int_col (get r "minute");
            p_second := _int_col (get r "second");
            p_location_x := fst (fst loc);
            p_location_y := snd (fst loc);
            p_end_location_x := fst (fst end_loc);
            p_end_location_y := snd (fst end_loc);
            p_outcome := _col df "pass_outcome" r;
            p_is_completed := isna (_col df "pass_outcome" r);
            p_pass_type := _col df "pass_type" r;
            p_recipient_id := _int_col (_col df "pass_recipient_id" r) |})
      (of_type "Pass" df).

Definition fact_passes_out (df : DataFrame) : exn + table :=
  (_ <~ checks df (of_type "Pass" df)
          [Index "type"; Index "location"; Index "id"; Index "match_id";
           Int64 "player_id"; Int64 "team_id"; Index "period"; Int64 "period";
           Index "minute"; Int64 "minute"; Index "second"; Int64 "second";
           Int64 "pass_recipient_id"] ;;
   inr (TPasses (fact_passes_rows df)))%err.

Definition build_fact_passes (df : DataFrame) : M unit :=
  out <- lift (fact_passes_out df) ;;
  _drop_create "fact_passes" out.

Definition fact_shots_rows (df : DataFrame) : list shot_row :=
  map (fun r =>
         let loc := Utils.extract (get r "location") in
         {| s_event_id := get r "id";
            s_match_id := as_int (get r "match_id");
            s_player_id := _int_col (_col df "player_id" r);
            s_team_id := _int_col (_col df "team_id" r);
            s_period := _int_col (get r "period");
            s_minute := _int_col (get r "minute");
            s_second := _int_col (get r "second");
            s_location_x := fst (fst loc);
            s_location_y := snd (fst loc);
            s_xg := to_numeric (_col df "shot_statsbomb_xg" r);
            s_outcome := _col df "shot_outcome" r;
            s_is_goal := str_eq (_col df "shot_outcome" r) "Goal";
            s_body_part := _col df "shot_body_part" r;
            s_shot_type := _col df "shot_type" r;
            s_is_first_time := _bool_col (_col df "shot_first_time" r);
            s_under_pressure := _bool_col (_col df "under_pressure" r) |})
      (of_type "Shot" df).

Definition fact_shots_out (df : DataFrame) : exn + table :=
  (_ <~ checks df (of_type "Shot" df)
          [Index "type"; Index "location"; Index "id"; Index "match_id";
           Int64 "player_id"; Int64 "team_id"; Index "period"; Int64 "period";
           Index "minute"; Int64 "minute"; Index "second"; Int64 "second"] ;;
   inr (TShots (fact_shots_rows df)))%err.

Definition build_fact_shots (df : DataFrame) : M unit :=
  out <- lift (fact_shots_out df) ;;
  _drop_create "fact_shots" out.

Definition fact_carries_rows (df : DataFrame) : list carry_row :=
  map (fun r =>
         let loc := Utils.extract (get r "location") in
         let end_loc := Utils.extract (_col df "carry_end_location" r) in
         {| c_event_id := get r "id";
            c_match_id := as_int (get r "match_id");
            c_player_id := _int_col (_col df "player_id" r);
            c_team_id := _int_col (_col df "team_id" r);
            c_period := _int_col (get r "period");
            c_minute := _int_col (get r "minute");
            c_second := _int_col (get r "second");
            c_location_x := fst (fst loc);
            c_location_y := snd (fst loc);
            c_end_location_x := fst (fst end_loc);
            c_end_location_y := snd (fst end_loc);
            c_duration := to_numeric (_col df "duration" r);
            c_under_pressure := _bool_col (_col df "under_pressure" r) |})
      (of_type "Carry" df).

Definition fact_carries_out (df : DataFrame) : exn + table :=
  (_ <~ checks df (of_type "Carry" df)
          [Index "type"; Index "location"; Index "id"; Index "match_id";
           Int64 "player_id"; Int64 "team_id"; Index "period"; Int64 "period";
           Index "minute"; Int64 "minute"; Index "second"; Int64 "second"] ;;
   inr (TCarries (fact_carries_rows df)))%err.

Definition build_fact_carries (df : DataFrame) : M unit :=
  out <- lift (fact_carries_out df) ;;
  _drop_create "fact_carries" out.

Definition fact_lineups_out : exn + table :=
  (df <~ _read_bronze "lineups" ;;
   _ <~ require df ["match_id"; "player_id"; "player_name"] ;;
   out <~ assemble "fact_lineups" fact_lineups_frame df ;;
   inr (TFrame out))%err.

Definition build_fact_lineups : M unit :=
  out <- lift fact_lineups_out ;;
  _drop_create "fact_lineups" out.

(** The frame of the freeze-frame rows, which may have none. *)
Definition freeze_frame_out (df : DataFrame) : exn + DataFrame :=
  (_ <~ require df ["type"] ;;
   assemble "bridge_shot_freeze_frame" freeze_frame_rows df)%err.

(** With rows the frame goes through [_drop_create]; without, the table is
    dropped and created empty, and its rows are not counted. *)
Definition build_bridge_shot_freeze_frame (df : DataFrame) : M unit :=
  out <- lift (freeze_frame_out df) ;;
  match rows out with
  | _ :: _ => _drop_create "bridge_shot_freeze_frame" (TFrame out)
  | [] =>
      execute (DropTable "bridge_shot_freeze_frame") ;;
      execute (CreateTable "bridge_shot_freeze_frame" (columns empty_freeze_frame))
  end.

(** The contents [build_bridge_shot_freeze_frame] gives the table. *)
Definition bridge_shot_freeze_frame_out (df : DataFrame) : exn + table :=
  (out <~ freeze_frame_out df ;;
   match rows out with
   | _ :: _ => inr (TFrame out)
   | [] => inr (TFrame empty_freeze_frame)
   end)%err.

(** *** Entry point *)

Definition run : M unit :=
  get_db_connection ;;
  build_dim_competition ;;
  build_dim_match ;;
  build_dim_team ;;
  build_dim_player ;;
  df_events <- lift (_read_bronze "events") ;;
  build_fact_events df_events ;;
  build_fact_passes df_events ;;
  build_fact_shots df_events ;;
  build_fact_carries df_events ;;
  build_fact_lineups ;;
  build_bridge_shot_freeze_frame df_events.

(** The tables the stage owns, in the order [run] builds them. *)
Definition stage_tables : list string :=
  ["dim_competition"; "dim_match"; "dim_team"; "dim_player";
   "fact_events"; "fact_passes"; "fact_shots"; "fact_carries";
   "fact_lineups"; "bridge_shot_freeze_frame"].

(** What the builder of each table assembles in memory before it touches
    the store. *)
Definition assembled (name : string) : exn + table :=
  if String.eqb name "dim_competition" then dim_competition_out
  else if String.eqb name "dim_match" then dim_match_out
  else if String.eqb name "dim_team" then dim_team_out
  else if String.eqb name "dim_player" then dim_player_out
  else if String.eqb name "fact_lineups" then fact_lineups_out
  else
    (df <~ _read_bronze "events" ;;
     if String.eqb name "fact_events" then fact_events_out df
     else if String.eqb name "fact_passes" then fact_passes_out df
     else if String.eqb name "fact_shots" then fact_shots_out df
     else if String.eqb name "fact_carries" then fact_carries_out df
     else bridge_shot_freeze_frame_out df)%err.

(** The stage leaves every table it owns as it found it. *)
Definition unchanged (con con' : Store) : Prop :=
  forall name, name ∈ stage_tables -> con' !! name = con !! name.

(** *** One builder as three calls

    Every builder assembles a table and then sends a DROP, a CREATE and,
    but for the empty freeze-frame table, a COUNT. *)

Definition no_rows (t : table) : bool :=
  match t with
  | TFrame df => match rows df with [] => true | _ :: _ => false end
  | _ => false
  end.

(** Whether [t] is created empty from its schema. *)
Definition from_schema (name : string) (t : table) : bool :=
  String.eqb name "bridge_shot_freeze_frame" && no_rows t.

(** The CREATE statement that stores the assembled table [t]. *)
Definition create_of (name : string) (t : table) : statement :=
  if from_schema name t
  then CreateTable name (columns empty_freeze_frame)
  else CreateTableAs name t.

(** Whether the builder of [name] gets through its calls with [t]. *)
Definition quiet (name : string) (t : table) : bool :=
  negb (duckdb_raises (Execute (DropTable name)))
  && negb (duckdb_raises (Execute (create_of name t)))
  && (from_schema name t || negb (duckdb_raises (Execute (SelectCount name)))).

Definition write (name : string) (t : table) : M unit :=
  if from_schema name t
  then execute (DropTable name) ;;
       execute (CreateTable name (columns empty_freeze_frame))
  else _drop_create name t.

Definition stage (name : string) : M unit :=
  out <- lift (assembled name) ;;
  write name out.

(** Where a run that raised inside the builder of [name] left that table:
    [before] the run and [after] it. *)
Definition stopped (name : string) (e : exn) (before after : option table) : Prop :=
  (assembled name = inl e /\ after = before) \/
  (exists t,
     assembled name = inr t /\
     ((e = DuckDBError (Execute (DropTable name)) /\ after = before) \/
      (e = DuckDBError (Execute (create_of name t)) /\ after = None) \/
      (e = DuckDBError (Execute (SelectCount name)) /\ after = Some t))).

(** *** Properties of the stage *)

Lemma _drop_create_eq (name : string) (t : table) (con : Store) :
  _drop_create name t con
  = if duckdb_raises (Execute (DropTable name))
    then (con, inl (DuckDBError (Execute (DropTable name))))
    else if duckdb_raises (Execute (CreateTableAs name t))
    then (delete name con, inl (DuckDBError (Execute (CreateTableAs name t))))
    else if duckdb_raises (Execute (SelectCount name))
    then (<[name := t]> (delete name con),
          inl (DuckDBError (Execute (SelectCount name))))
    else (<[name := t]> (delete name con), inr tt).
Proof.
  unfold _drop_create, bind, execute.
  destruct (duckdb_raises (Execute (DropTable name))); [reflexivity|].
  destruct (duckdb_raises (Execute (CreateTableAs name t))); [reflexivity|].
  rewrite lookup_delete_eq.
  destruct (duckdb_raises (Execute (SelectCount name))); [reflexivity|].
  rewrite lookup_insert_eq. reflexivity.
Qed.

Lemma _drop_create_returns (name : string) (t : table) (con con' : Store) :
  _drop_create name t con = (con', inr tt) ->
  con' = <[name := t]> (delete name con).
Proof.
  rewrite _drop_create_eq. intros H.
  destruct (duckdb_raises (Execute (DropTable name))); [discriminate|].
  destruct (duckdb_raises (Execute (CreateTableAs name t))); [discriminate|].
  destruct (duckdb_raises (Execute (SelectCount name))); [discriminate|].
  inversion H. reflexivity.
Qed.

(** A table that is created from its schema is the empty freeze-frame
    table. *)
Lemma assembled_from_schema (name : string) (t : table) :
  assembled name = inr t -> from_schema name t = true ->
  t = TFrame empty_freeze_frame.
Proof.
  unfold from_schema. intros Ha Hs.
  apply andb_true_iff in Hs as [Hn Hrows].
  apply String.eqb_eq in Hn. subst name.
  unfold assembled in Ha. simpl in Ha.
  destruct (_read_bronze "events") as [e|df]; [discriminate|]. simpl in Ha.
  unfold bridge_shot_freeze_frame_out, ebind in Ha.
  destruct (freeze_frame_out df) as [e|out]; [discriminate|].
  destruct (rows out) as [|r rs] eqn:Er; injection Ha as <-.
  - reflexivity.
  - simpl in Hrows. rewrite Er in Hrows. discriminate.
Qed.

Lemma write_eq (name : string) (t : table) (con : Store) :
  assembled name = inr t ->
  write name t con
  = if duckdb_raises (Execute (DropTable name))
    then (con, inl (DuckDBError (Execute (DropTable name))))
    else if duckdb_raises (Execute (create_of name t))
    then (delete name con, inl (DuckDBError (Execute (create_of name t))))
    else if negb (from_schema name t)
            && duckdb_raises (Execute (SelectCount name))
    then (<[name := t]> (delete name con),
          inl (DuckDBError (Execute (SelectCount name))))
    else (<[name := t]> (delete name con), inr tt).
Proof.
  intros Ha. unfold write, create_of.
  destruct (from_schema name t) eqn:Es.
  - rewrite (assembled_from_schema name t Ha Es).
    unfold bind, execute.
    destruct (duckdb_raises (Execute (DropTable name))); [reflexivity|].
    destruct (duckdb_raises (Execute (CreateTable name _))); [reflexivity|].
    rewrite lookup_delete_eq. reflexivity.
  - rewrite _drop_create_eq. reflexivity.
Qed.

Lemma stage_eq (name : string) (con : Store) :
  stage name con
  = match assembled name with
    | inl e => (con, inl e)
    | inr t => write name t con
    end.
Proof. unfold stage, bind, lift. destruct (assembled name); reflexivity. Qed.

(** A builder touches its own table only. *)
Lemma stage_other (name other : string) (con con' : Store) (r : exn + unit) :
  stage name con = (con', r) -> other <> name -> con' !! other = con !! other.
Proof.
  rewrite stage_eq. intros H Hne.
  destruct (assembled name) as [e|t] eqn:Ha; [inversion H; reflexivity|].
  rewrite (write_eq name t con Ha) in H.
  destruct (duckdb_raises (Execute (DropTable name))); [inversion H; reflexivity|].
  destruct (duckdb_raises (Execute (create_of name t))).
  { inversion H. apply lookup_delete_ne. congruence. }
  destruct (negb (from_schema name t) && duckdb_raises (Execute (SelectCount name)));
    inversion H; rewrite lookup_insert_ne by congruence;
    apply lookup_delete_ne; congruence.
Qed.

Lemma stage_returned (name : string) (con con' : Store) :
  stage name con = (con', inr tt) ->
  exists t, assembled name = inr t /\ quiet name t = true /\ con' !! name = Some t.
Proof.
  rewrite stage_eq. intros H.
  destruct (assembled name) as [e|t] eqn:Ha; [discriminate|].
  rewrite (write_eq name t con Ha) in H. exists t. unfold quiet.
  destruct (duckdb_raises (Execute (DropTable name))); [discriminate|].
  destruct (duckdb_raises (Execute (create_of name t))); [discriminate|].
  destruct (from_schema name t); simpl in *.
  - inversion H. repeat split. apply lookup_insert_eq.
  - destruct (duckdb_raises (Execute (SelectCount name))); [discriminate|].
    inversion H. repeat split. apply lookup_insert_eq.
Qed.

Lemma stage_raised (name : string) (con con' : Store) (e : exn) :
  stage name con = (con', inl e) -> stopped name e (con !! name) (con' !! name).
Proof.
  rewrite stage_eq. intros H. unfold stopped.
  destruct (assembled name) as [e0|t] eqn:Ha.
  { left. inversion H. split; reflexivity. }
  right. exists t. split; [reflexivity|].
  rewrite (write_eq name t con Ha) in H.
  destruct (duckdb_raises (Execute (DropTable name))).
  { left. inversion H. split; reflexivity. }
  destruct (duckdb_raises (Execute (create_of name t))).
  { right. left. inversion H. split; [reflexivity | apply lookup_delete_eq]. }
  destruct (negb (from_schema name t) && duckdb_raises (Execute (SelectCount name)));
    [|discriminate].
  right. right. inversion H. split; [reflexivity | apply lookup_insert_eq].
Qed.

(** Whether a builder returns does not depend on the store. *)
Lemma stage_quiet (name : string) (t : table) (con : Store) :
  assembled name = inr t -> quiet name t = true ->
  stage name con = (<[name := t]> (delete name con), inr tt).
Proof.
  intros Ha Hq. rewrite stage_eq, Ha, (write_eq name t con Ha).
  unfold quiet in Hq.
  apply andb_true_iff in Hq as [Hq Hcount].
  apply andb_true_iff in Hq as [Hdrop Hcreate].
  apply negb_true_iff in Hdrop. apply negb_true_iff in Hcreate.
  rewrite Hdrop, Hcreate.
  destruct (from_schema name t); simpl in *; [reflexivity|].
  apply negb_true_iff in Hcount. rewrite Hcount. reflexivity.
Qed.

Lemma stages_other (l : list string) (other : string) (con con' : Store)
    (r : exn + unit) :
  for_each stage l con = (con', r) -> other ∉ l -> con' !! other = con !! other.
Proof.
  revert con. induction l as [|x l IH]; intros con H Hn; simpl in H.
  - inversion H. reflexivity.
  - apply not_elem_of_cons in Hn as [Hne Hn]. unfold bind in H.
    destruct (stage x con) as [c1 [e1|[]]] eqn:Ex.
    + inversion H; subst. exact (stage_other x other con con' _ Ex Hne).
    + rewrite (IH c1 H Hn). exact (stage_other x other con c1 _ Ex Hne).
Qed.

(** The builders that ran before the one that raised have replaced their
    tables; the others have not been reached. *)
Lemma stages_raised (l : list string) (con con' : Store) (e : exn) :
  NoDup l ->
  for_each stage l con = (con', inl e) ->
  exists k name,
    l !! k = Some name /\
    (forall i n, (i < k)%nat -> l !! i = Some n ->
       exists t, assembled n = inr t /\ con' !! n = Some t) /\
    (forall n, n ∉ take (S k) l -> con' !! n = con !! n) /\
    stopped name e (con !! name) (con' !! name).
Proof.
  intros Hnd. revert con.
  induction l as [|x l IH]; intros con H; simpl in H; [discriminate|].
  apply NoDup_cons in Hnd as [Hx Hnd]. unfold bind in H.
  destruct (stage x con) as [c1 [e1|[]]] eqn:Ex.
  - inversion H; subst. exists 0%nat, x. split; [reflexivity|]. split.
    { intros i n Hi. lia. }
    split.
    { intros n Hn. simpl in Hn. rewrite take_0 in Hn.
      apply not_elem_of_cons in Hn as [Hne _].
      exact (stage_other x n con con' _ Ex Hne). }
    exact (stage_raised x con con' e Ex).
  - destruct (IH Hnd c1 H) as (k & name & Hk & Hearlier & Hothers & Hstop).
    assert (Hname : name ∈ l) by (apply list_elem_of_lookup; exists k; exact Hk).
    assert (Hne : name <> x) by (intros ->; exact (Hx Hname)).
    exists (S k), name. split; [exact Hk|]. split.
    { intros i n Hi Hn. destruct i as [|i]; simpl in Hn.
      - injection Hn as <-.
        destruct (stage_returned x con c1 Ex) as (t & Ha & _ & Ht).
        exists t. split; [exact Ha|].
        rewrite (stages_other l x c1 con' _ H Hx). exact Ht.
      - apply (Hearlier i n); [lia | exact Hn]. }
    split.
    { intros n Hn. change (take (S (S k)) (x :: l)) with (x :: take (S k) l) in Hn.
      apply not_elem_of_cons in Hn as [Hnx Hn].
      rewrite (Hothers n Hn). exact (stage_other x n con c1 _ Ex Hnx). }
    rewrite <- (stage_other x name con c1 _ Ex Hne). exact Hstop.
Qed.

(** The builders of a run that returned have all replaced their tables. *)
Lemma stages_returned (l : list string) (con con' : Store) :
  NoDup l ->
  for_each stage l con = (con', inr tt) ->
  (forall n, n ∈ l ->
     exists t, assembled n = inr t /\ quiet n t = true /\ con' !! n = Some t) /\
  (forall n, n ∉ l -> con' !! n = con !! n).
Proof.
  intros Hnd H. split; [|intros n Hn; exact (stages_other l n con con' _ H Hn)].
  revert con H. induction l as [|x l IH]; intros con H n Hn; [inversion Hn|].
  apply NoDup_cons in Hnd as [Hx Hnd]. simpl in H. unfold bind in H.
  destruct (stage x con) as [c1 [e1|[]]] eqn:Ex; [discriminate|].
  apply elem_of_cons in Hn as [-> | Hn].
  - destruct (stage_returned x con c1 Ex) as (t & Ha & Hq & Ht).
    exists t. split; [exact Ha|]. split; [exact Hq|].
    rewrite (stages_other l x c1 con' _ H Hx). exact Ht.
  - exact (IH Hnd c1 H n Hn).
Qed.

Lemma stages_quiet (l : list string) (con : Store) :
  (forall n, n ∈ l -> exists t, assembled n = inr t /\ quiet n t = true) ->
  exists con', for_each stage l con = (con', inr tt).
Proof.
  revert con. induction l as [|x l IH]; intros con H; simpl.
  - exists con. reflexivity.
  - destruct (H x) as (t & Ha & Hq); [left|].
    unfold bind. rewrite (stage_quiet x t con Ha Hq).
    apply IH. intros n Hn. apply H. right. exact Hn.
Qed.

Lemma stage_tables_nodup : NoDup stage_tables.
Proof. apply (bool_decide_unpack _). vm_compute. reflexivity. Qed.

Lemma assembled_fact (name : string) (df : DataFrame) (r : exn + table) :
  _read_bronze "events" = inr df ->
  (if String.eqb name "fact_events" then fact_events_out df
   else if String.eqb name "fact_passes" then fact_passes_out df
   else if String.eqb name "fact_shots" then fact_shots_out df
   else if String.eqb name "fact_carries" then fact_carries_out df
   else bridge_shot_freeze_frame_out df) = r ->
  String.eqb name "dim_competition" = false ->
  String.eqb name "dim_match" = false ->
  String.eqb name "dim_team" = false ->
  String.eqb name "dim_player" = false ->
  String.eqb name "fact_lineups" = false ->
  assembled name = r.
Proof.
  intros Hev Hr H1 H2 H3 H4 H5. unfold assembled.
  rewrite H1, H2, H3, H4, H5, Hev. exact Hr.
Qed.

Lemma bridge_stage (df : DataFrame) (con : Store) :
  _read_bronze "events" = inr df ->
  build_bridge_shot_freeze_frame df con = stage "bridge_shot_freeze_frame" con.
Proof.
  intros Hev. unfold stage, build_bridge_shot_freeze_frame.
  rewrite (assembled_fact "bridge_shot_freeze_frame" df _ Hev eq_refl
             eq_refl eq_refl eq_refl eq_refl eq_refl).
  simpl. unfold bridge_shot_freeze_frame_out, ebind, bind, lift.
  destruct (freeze_frame_out df) as [e|out]; [reflexivity|].
  unfold ret, write, from_schema.
  destruct (rows out) as [|r rs] eqn:Er; simpl; [reflexivity|].
  rewrite Er. reflexivity.
Qed.

(** [run] connects and then runs the builders in the order of
    [stage_tables]. *)
Lemma run_stages (con : Store) :
  run con = bind get_db_connection (fun _ => for_each stage stage_tables) con.
Proof.
  unfold run, stage_tables. cbn [for_each].
  apply bind_ext; [reflexivity|]. intros _ s0.
  apply bind_ext; [reflexivity|]. intros _ s1.
  apply bind_ext; [reflexivity|]. intros _ s2.
  apply bind_ext; [reflexivity|]. intros _ s3.
  apply bind_ext; [reflexivity|]. intros _ s4.
  destruct (_read_bronze "events") as [e|df] eqn:Eev.
  - unfold bind at 1. unfold stage, bind, assembled. simpl. rewrite Eev.
    reflexivity.
  - change (bind (lift (inr df)) ?k s4) with (k df s4).
    assert (Hfact : forall name, assembled name =
              if String.eqb name "dim_competition" then dim_competition_out
              else if String.eqb name "dim_match" then dim_match_out
              else if String.eqb name "dim_team" then dim_team_out
              else if String.eqb name "dim_player" then dim_player_out
              else if String.eqb name "fact_lineups" then fact_lineups_out
              else if String.eqb name "fact_events" then fact_events_out df
              else if String.eqb name "fact_passes" then fact_passes_out df
              else if String.eqb name "fact_shots" then fact_shots_out df
              else if String.eqb name "fact_carries" then fact_carries_out df
              else bridge_shot_freeze_frame_out df).
    { intros name. unfold assembled. rewrite Eev. reflexivity. }
    apply bind_ext.
    { unfold build_fact_events, stage, write. rewrite Hfact. reflexivity. }
    intros _ s5. apply bind_ext.
    { unfold build_fact_passes, stage, write. rewrite Hfact. reflexivity. }
    intros _ s6. apply bind_ext.
    { unfold build_fact_shots, stage, write. rewrite Hfact. reflexivity. }
    intros _ s7. apply bind_ext.
    { unfold build_fact_carries, stage, write. rewrite Hfact. reflexivity. }
    intros _ s8. apply bind_ext; [reflexivity|].
    intros _ s9. rewrite bind_ret. exact (bridge_stage df s9 Eev).
Qed.

(** C3, amended. When the construction of a table raises, [run] stops
    there with that exception and rolls nothing back: every table earlier
    in the build order has already been replaced by its newly assembled
    contents, and the later ones and every table outside the stage keep
    their pre-run contents. The failing table keeps its pre-run contents
    when its frame could not be assembled or its DROP raised, is left
    dropped when its CREATE raised, and holds its new contents when the
    COUNT after the CREATE raised. A run that cannot connect changes
    nothing. *)
Theorem run_failure_commits_prefix (con con' : Store) (e : exn) :
  run con = (con', inl e) ->
  (e = DuckDBError Connect /\ con' = con) \/
  exists k name,
    stage_tables !! k = Some name /\
    (forall i n, (i < k)%nat -> stage_tables !! i = Some n ->
       exists t, assembled n = inr t /\ con' !! n = Some t) /\
    (forall n, n ∉ take (S k) stage_tables -> con' !! n = con !! n) /\
    stopped name e (con !! name) (con' !! name).
Proof.
  intros H. rewrite run_stages in H. unfold bind, get_db_connection in H.
  destruct (duckdb_raises Connect).
  - left. inversion H. split; reflexivity.
  - right. exact (stages_raised stage_tables con con' e stage_tables_nodup H).
Qed.

(** The stage as all-or-nothing: a run that raises leaves the stage's
    tables as they were. *)
Definition stage_atomic (con : Store) : Prop :=
  forall con' e, run con = (con', inl e) -> unchanged con con'.

(** C4. Every row of fact_passes written by the stage has is_completed
    true exactly when its outcome is null: completion is the absence of a
    recorded outcome, not a source boolean. *)
Theorem pass_completed_iff_outcome_null (df : DataFrame) (con con' : Store) :
  build_fact_passes df con = (con', inr tt) ->
  exists l,
    con' !! "fact_passes" = Some (TPasses l) /\
    l = fact_passes_rows df /\
    forall r, r ∈ l -> (p_is_completed r = true <-> isna (p_outcome r) = true).
Proof.
  intros H. unfold build_fact_passes, bind, lift in H.
  destruct (fact_passes_out df) as [e|t] eqn:E; [discriminate|].
  apply _drop_create_returns in H. subst con'.
  unfold fact_passes_out, ebind in E.
  destruct (checks df _ _); [discriminate|]. inversion E; subst.
  exists (fact_passes_rows df). split; [apply lookup_insert_eq|].
  split; [reflexivity|].
  intros r Hr. unfold fact_passes_rows in Hr.
  apply list_elem_of_fmap in Hr as [row [-> _]]. simpl. reflexivity.
Qed.

End Stage.

(** *** A concrete stage *)

(** A database on which no call raises. *)
Definition no_db_error (c : db_call) : bool := false.

Definition numeric_of_cell (v : cell) : option Q :=
  match v with
  | CNum q => Some q
  | _ => None
  end.

(** The whole number a value casts to; [_int_col] is used on whole numbers
    only, the builders raise on the others. *)
Definition int_of_numeric (o : option Q) : option Z :=
  match o with
  | Some q => if is_whole (Some q) then Some (Qfloor q) else None
  | None => None
  end.

(** In the examples a dimension frame is the bronze frame as it is: they
    only need it to be assembled. *)
Definition frame_as_is (df : DataFrame) : option DataFrame := Some df.

Definition matches_frame : DataFrame :=
  {| columns := ["match_id"; "match_date"; "home_score"; "away_score";
                 "match_week"; "home_team"; "away_team"];
     rows := [ {[ "match_id" := CNum (7#1); "match_date" := CStr "2022-11-20";
                  "home_score" := CNum (0#1); "away_score" := CNum (2#1);
                  "match_week" := CNum (1#1); "home_team" := CStr "Qatar";
                  "away_team" := CStr "Ecuador" ]} ] |}.

Definition competitions_frame : DataFrame :=
  {| columns := ["competition_id"; "season_id"; "competition_name";
                 "season_name"; "country_name"];
     rows := [] |}.

(** Three passes of one team (two completed, one incomplete) and a goal. *)
Definition events_frame : DataFrame :=
  {| columns := ["id"; "match_id"; "index"; "period"; "timestamp"; "minute";
                 "second"; "type"; "location"; "team_id"; "team"; "player_id";
                 "pass_recipient_id"; "pass_outcome"; "pass_end_location";
                 "shot_statsbomb_xg"; "shot_outcome"];
     rows :=
       [ {[ "id" := CStr "e1"; "match_id" := CNum (7#1); "type" := CStr "Pass";
            "period" := CNum (1#1); "minute" := CNum (3#1); "second" := CNum (10#1);
            "team_id" := CNum (1#1); "team" := CStr "Ecuador";
            "player_id" := CNum (10#1); "pass_recipient_id" := CNum (11#1);
            "location" := CList [Some (50#1); Some (40#1)];
            "pass_end_location" := CList [Some (60#1); Some (42#1)] ]};
         {[ "id" := CStr "e2"; "match_id" := CNum (7#1); "type" := CStr "Pass";
            "period" := CNum (1#1); "minute" := CNum (4#1); "second" := CNum (1#1);
            "team_id" := CNum (1#1); "team" := CStr "Ecuador";
            "player_id" := CNum (10#1); "pass_recipient_id" := CNum (11#1);
            "location" := CList [Some (55#1); Some (30#1)];
            "pass_end_location" := CList [Some (70#1); Some (35#1)] ]};
         {[ "id" := CStr "e3"; "match_id" := CNum (7#1); "type" := CStr "Pass";
            "period" := CNum (1#1); "minute" := CNum (5#1); "second" := CNum (30#1);
            "team_id" := CNum (1#1); "team" := CStr "Ecuador";
            "player_id" := CNum (11#1); "pass_outcome" := CStr "Incomplete";
            "location" := CList [Some (70#1); Some (35#1)];
            "pass_end_location" := CList [Some (90#1); Some (40#1)] ]};
         {[ "id" := CStr "e4"; "match_id" := CNum (7#1); "type" := CStr "Shot";
            "period" := CNum (1#1); "minute" := CNum (16#1); "second" := CNum (2#1);
            "team_id" := CNum (1#1); "team" := CStr "Ecuador";
            "player_id" := CNum (11#1);
            "location" := CList [Some (108#1); Some (40#1)];
            "shot_statsbomb_xg" := CNum (45#100); "shot_outcome" := CStr "Goal" ]} ] |}.

(** Bronze after a run that stopped before any lineups file was written. *)
Definition bronze_without_lineups (layer : string) : option DataFrame :=
  if String.eqb layer "competitions" then Some competitions_frame
  else if String.eqb layer "matches" then Some matches_frame
  else if String.eqb layer "events" then Some events_frame
  else None.

(** The store of an earlier build, made when no match had been ingested. *)
Definition earlier_store : Store :=
  {[ "dim_match" := TFrame {| columns := columns matches_frame; rows := [] |} ]}.

Definition run_without_lineups : M unit :=
  run no_db_error bronze_without_lineups numeric_of_cell int_of_numeric
      frame_as_is frame_as_is frame_as_is frame_as_is frame_as_is frame_as_is.

Example passes_of_events_frame :
  map (fun r => (p_event_id r, p_is_completed r, p_recipient_id r))
      (fact_passes_rows numeric_of_cell int_of_numeric events_frame)
  = [ (CStr "e1", true, Some 11); (CStr "e2", true, Some 11);
      (CStr "e3", false, None) ].
Proof. vm_compute. reflexivity. Qed.

Lemma run_without_lineups_result :
  snd (run_without_lineups earlier_store) = inl (FileNotFoundError "lineups") /\
  fst (run_without_lineups earlier_store) !! "dim_match" = Some (TFrame matches_frame).
Proof. vm_compute. split; reflexivity. Qed.

Lemma run_without_lineups_raises :
  run_without_lineups earlier_store
  = (fst (run_without_lineups earlier_store), inl (FileNotFoundError "lineups")).
Proof. apply pair_of_snd. vm_compute. reflexivity. Qed.

(** The claim as stated fails: the lineups layer is empty, [build_dim_player]
    raises, and dim_match has already been replaced. *)
Lemma run_failure_leaves_partial_build :
  snd (run_without_lineups earlier_store) = inl (FileNotFoundError "lineups") /\
  earlier_store !! "dim_match"
    = Some (TFrame {| columns := columns matches_frame; rows := [] |}) /\
  fst (run_without_lineups earlier_store) !! "dim_match"
    = Some (TFrame matches_frame) /\
  ~ stage_atomic no_db_error bronze_without_lineups numeric_of_cell int_of_numeric
      frame_as_is frame_as_is frame_as_is frame_as_is frame_as_is frame_as_is
      earlier_store.
Proof.
  destruct run_without_lineups_result as [Hr Hd].
  split; [exact Hr|]. split; [reflexivity|]. split; [exact Hd|].
  intros Hatomic.
  pose proof (Hatomic _ _ run_without_lineups_raises "dim_match") as H.
  rewrite Hd in H.
  assert (Hin : "dim_match" ∈ stage_tables) by (right; left).
  specialize (H Hin).
  apply (f_equal (fun o => match o with
                           | Some (TFrame d) => length (rows d)
                           | _ => 0%nat
                           end)) in H.
  vm_compute in H. discriminate H.
Qed.

(** One event whose minute is not a whole number. *)
Definition events_half_minute : DataFrame :=
  {| columns := columns events_frame;
     rows := [ {[ "id" := CStr "e1"; "match_id" := CNum (7#1);
                  "type" := CStr "Pass"; "period" := CNum (1#1);
                  "minute" := CNum (3#2); "second" := CNum (10#1) ]} ] |}.

(** Every column is there, and [_int_col] raises on the minute. *)
Example fractional_minute_raises :
  fact_events_out numeric_of_cell int_of_numeric events_half_minute
  = inl (TypeError "minute").
Proof. vm_compute. reflexivity. Qed.

(** A database on which the CREATE of dim_match raises, whatever the
    frame. *)
Definition create_dim_match_raises (c : db_call) : bool :=
  match c with
  | Execute (CreateTableAs name _) => String.eqb name "dim_match"
  | _ => false
  end.

Definition run_create_raises : M unit :=
  run create_dim_match_raises bronze_without_lineups numeric_of_cell int_of_numeric
      frame_as_is frame_as_is frame_as_is frame_as_is frame_as_is frame_as_is.

(** The run stops at that CREATE: dim_competition has been replaced,
    dim_match has been dropped and is gone, and no later table exists. *)
Example run_create_raises_result :
  snd (run_create_raises earlier_store)
  = inl (DuckDBError (Execute (CreateTableAs "dim_match" (TFrame matches_frame)))) /\
  fst (run_create_raises earlier_store) !! "dim_competition"
  = Some (TFrame competitions_frame) /\
  fst (run_create_raises earlier_store) !! "dim_match" = None /\
  fst (run_create_raises earlier_store) !! "dim_team" = None.
Proof. vm_compute. repeat split. Qed.

Lemma run_failure_commits_prefix_witness :
  (DuckDBError (Execute (CreateTableAs "dim_match" (TFrame matches_frame)))
   = DuckDBError Connect /\
   fst (run_create_raises earlier_store) = earlier_store) \/
  exists k name,
    stage_tables !! k = Some name /\
    (forall i n, (i < k)%nat -> stage_tables !! i = Some n ->
       exists t,
         assembled bronze_without_lineups numeric_of_cell int_of_numeric
           frame_as_is frame_as_is frame_as_is frame_as_is frame_as_is
           frame_as_is n = inr t /\
         fst (run_create_raises earlier_store) !! n = Some t) /\
    (forall n, n ∉ take (S k) stage_tables ->
       fst (run_create_raises earlier_store) !! n = earlier_store !! n) /\
    stopped bronze_without_lineups numeric_of_cell int_of_numeric
      frame_as_is frame_as_is frame_as_is frame_as_is frame_as_is frame_as_is
      name
      (DuckDBError (Execute (CreateTableAs "dim_match" (TFrame matches_frame))))
      (earlier_store !! name) (fst (run_create_raises earlier_store) !! name).
Proof.
  apply (run_failure_commits_prefix create_dim_match_raises bronze_without_lineups
           numeric_of_cell int_of_numeric frame_as_is frame_as_is frame_as_is
           frame_as_is frame_as_is frame_as_is earlier_store
           (fst (run_create_raises earlier_store))
           (DuckDBError (Execute (CreateTableAs "dim_match" (TFrame matches_frame))))).
  apply pair_of_snd. vm_compute. reflexivity.
Defined.

Lemma pass_completed_iff_outcome_null_witness :
  exists l,
    fst (build_fact_passes no_db_error numeric_of_cell int_of_numeric events_frame ∅)
      !! "fact_passes" = Some (TPasses l) /\
    l = fact_passes_rows numeric_of_cell int_of_numeric events_frame /\
    forall r, r ∈ l -> (p_is_completed r = true <-> isna (p_outcome r) = true).
Proof.
  apply (pass_completed_iff_outcome_null no_db_error numeric_of_cell int_of_numeric
           events_frame ∅
           (fst (build_fact_passes no_db_error numeric_of_cell int_of_numeric
                   events_frame ∅))).
  apply pair_of_snd. vm_compute. reflexivity.
Defined.

End Silver.

(** ** The SQL the gold layer is written in

    A table is the list of its rows. NULL is [None]; [=] in a WHERE or ON
    clause is never true on NULL, while GROUP BY, PARTITION BY and DISTINCT
    put NULLs together. ORDER BY is a stable sort, NULLS LAST. *)

Module Sql.

#[global] Instance Q_eq_dec : EqDecision Q.
Proof. solve_decision. Defined.

#[global] Instance cell_eq_dec : EqDecision cell.
Proof. solve_decision. Defined.

(** [a = b] in a WHERE or ON clause. *)
Definition eqb (a b : option Z) : bool :=
  match a, b with
  | Some x, Some y => Z.eqb x y
  | _, _ => false
  end.

(** [l LEFT JOIN r ON on]: every left row, once per matching right row,
    and once with no right row when nothing matches. *)
Definition left_join {A B : Type} (on : A -> B -> bool) (l : list A) (r : list B)
  : list (A * option B) :=
  flat_map (fun a =>
              match List.filter (on a) r with
              | [] => [(a, None)]
              | ms => map (fun b => (a, Some b)) ms
              end) l.

(** [SELECT DISTINCT]. *)
Definition distinct {A : Type} `{EqDecision A} (l : list A) : list A :=
  remove_dups l.

(** [GROUP BY key]: the groups, each with its key and its rows in table
    order. *)
Definition group_by {A K : Type} `{EqDecision K} (key : A -> K) (l : list A)
  : list (K * list A) :=
  map (fun k => (k, List.filter (fun a => bool_decide (key a = k)) l))
      (distinct (map key l)).

(** [COUNT( * )]. *)
Definition count {A : Type} (l : list A) : Z := Z.of_nat (length l).

(** One step of SUM: NULLs are skipped. *)
Definition add_null (acc x : option Q) : option Q :=
  match acc, x with
  | None, _ => x
  | Some a, None => Some a
  | Some a, Some b => Some (a + b)%Q
  end.

(** [SUM(x)]: NULL when no value is non-NULL. *)
Definition sum (l : list (option Q)) : option Q := fold_left add_null l None.

(** [AVG(x)]: the mean of the non-NULL values. *)
Definition avg (l : list (option Q)) : option Q :=
  match sum l with
  | Some s => Some (s / inject_Z (count (List.filter (fun o => bool_decide (o <> None)) l)))%Q
  | None => None
  end.

(** *** ORDER BY *)

Definition cmp_nulls_last (a b : option Z) : comparison :=
  match a, b with
  | Some x, Some y => Z.compare x y
  | Some _, None => Lt
  | None, Some _ => Gt
  | None, None => Eq
  end.

(** The sort key of a row: its ORDER BY columns, compared left to right. *)
Fixpoint lex_cmp (k1 k2 : list (option Z)) : comparison :=
  match k1, k2 with
  | [], [] => Eq
  | [], _ :: _ => Lt
  | _ :: _, [] => Gt
  | a :: r1, b :: r2 =>
      match cmp_nulls_last a b with
      | Eq => lex_cmp r1 r2
      | c => c
      end
  end.

Definition key_leb (k1 k2 : list (option Z)) : bool :=
  match lex_cmp k1 k2 with
  | Gt => false
  | _ => true
  end.

Section OrderBy.

Context {A : Type} (key : A -> list (option Z)).

Definition row_leb (a b : A) : bool := key_leb (key a) (key b).

Fixpoint insert (x : A) (l : list A) : list A :=
  match l with
  | [] => [x]
  | y :: rest => if row_leb x y then x :: y :: rest else y :: insert x rest
  end.

(** A stable sort: a row goes before the rows already placed that do not
    sort before it, and these come later in the table. *)
Fixpoint order_by (l : list A) : list A :=
  match l with
  | [] => []
  | x :: rest => insert x (order_by rest)
  end.

End OrderBy.

(** *** The order is a total preorder *)

Lemma cmp_nulls_last_refl (a : option Z) : cmp_nulls_last a a = Eq.
Proof. destruct a; simpl; [apply Z.compare_refl | reflexivity]. Qed.

Lemma cmp_nulls_last_eq (a b : option Z) : cmp_nulls_last a b = Eq -> a = b.
Proof.
  destruct a, b; simpl; try discriminate; [|reflexivity].
  intros H. apply Z.compare_eq in H. congruence.
Qed.

Lemma cmp_nulls_last_antisym (a b : option Z) :
  cmp_nulls_last b a = CompOpp (cmp_nulls_last a b).
Proof. destruct a, b; simpl; try reflexivity. apply Z.compare_antisym. Qed.

Lemma cmp_nulls_last_lt_trans (a b c : option Z) :
  cmp_nulls_last a b = Lt -> cmp_nulls_last b c = Lt -> cmp_nulls_last a c = Lt.
Proof.
  destruct a, b, c; simpl; try discriminate; try reflexivity.
  rewrite !Z.compare_lt_iff. lia.
Qed.

Lemma lex_cmp_refl (k : list (option Z)) : lex_cmp k k = Eq.
Proof.
  induction k as [|a k IH]; simpl; [reflexivity|].
  rewrite cmp_nulls_last_refl. exact IH.
Qed.

Lemma lex_cmp_antisym (k1 k2 : list (option Z)) :
  lex_cmp k2 k1 = CompOpp (lex_cmp k1 k2).
Proof.
  revert k2. induction k1 as [|a k1 IH]; intros [|b k2]; simpl; try reflexivity.
  rewrite (cmp_nulls_last_antisym a b).
  destruct (cmp_nulls_last a b); simpl; [apply IH | reflexivity | reflexivity].
Qed.

Lemma lex_cmp_prefix (k a b : list (option Z)) :
  lex_cmp (k ++ a) (k ++ b) = lex_cmp a b.
Proof.
  induction k as [|x k IH]; simpl; [reflexivity|].
  rewrite cmp_nulls_last_refl. exact IH.
Qed.

Lemma key_leb_total (k1 k2 : list (option Z)) :
  key_leb k1 k2 = true \/ key_leb k2 k1 = true.
Proof.
  unfold key_leb. rewrite (lex_cmp_antisym k1 k2).
  destruct (lex_cmp k1 k2); simpl; auto.
Qed.

Lemma key_leb_trans (k1 k2 k3 : list (option Z)) :
  key_leb k1 k2 = true -> key_leb k2 k3 = true -> key_leb k1 k3 = true.
Proof.
  unfold key_leb. revert k2 k3.
  induction k1 as [|a k1 IH]; intros [|b k2] [|c k3]; simpl;
    try reflexivity; try discriminate.
  destruct (cmp_nulls_last a b) eqn:Eab; try discriminate;
    destruct (cmp_nulls_last b c) eqn:Ebc; try discriminate.
  - apply cmp_nulls_last_eq in Eab. subst b. rewrite Ebc. apply IH.
  - apply cmp_nulls_last_eq in Eab. subst b. rewrite Ebc. reflexivity.
  - apply cmp_nulls_last_eq in Ebc. subst c. rewrite Eab. reflexivity.
  - rewrite (cmp_nulls_last_lt_trans a b c Eab Ebc). reflexivity.
Qed.

Section OrderByFacts.

Context {A : Type} (key : A -> list (option Z)).

Local Abbreviation leb := (row_leb key).
Local Abbreviation sorted := (StronglySorted (fun a b => row_leb key a b = true)).

Lemma insert_first (x : A) (l : list A) :
  Forall (fun z => leb x z = true) l -> insert key x l = x :: l.
Proof.
  intros H. destruct l as [|y l]; simpl; [reflexivity|].
  inversion H; subst. rewrite H2. reflexivity.
Qed.

Lemma elem_of_insert (x z : A) (l : list A) :
  z ∈ insert key x l -> z = x \/ z ∈ l.
Proof.
  induction l as [|y l IH]; simpl.
  - intros H. apply list_elem_of_singleton in H. auto.
  - destruct (leb x y).
    + intros H. apply elem_of_cons in H. exact H.
    + intros H. apply elem_of_cons in H as [-> | H].
      * right. left.
      * destruct (IH H) as [-> | Hz]; [auto | right; right; exact Hz].
Qed.

Lemma insert_sorted (x : A) (l : list A) : sorted l -> sorted (insert key x l).
Proof.
  induction 1 as [|y l Hs IH Hy]; simpl.
  - constructor; constructor.
  - destruct (leb x y) eqn:E.
    + constructor; [constructor; assumption|].
      constructor; [exact E|].
      rewrite List.Forall_forall in *. intros z Hz.
      unfold row_leb in *. eapply key_leb_trans; [exact E | apply Hy, Hz].
    + constructor; [exact IH|].
      rewrite List.Forall_forall in *. intros z Hz.
      apply list_elem_of_In, elem_of_insert in Hz as [-> | Hz].
      * unfold row_leb in *.
        destruct (key_leb_total (key x) (key y)) as [H|H]; congruence.
      * apply Hy, list_elem_of_In, Hz.
Qed.

Lemma order_by_sorted (l : list A) : sorted (order_by key l).
Proof.
  induction l as [|x l IH]; simpl; [constructor | apply insert_sorted, IH].
Qed.

(** Sorting a sorted table leaves it as it is. *)
Lemma order_by_id (l : list A) : sorted l -> order_by key l = l.
Proof.
  induction 1 as [|x l Hs IH Hx]; simpl; [reflexivity|].
  rewrite IH. apply insert_first, Hx.
Qed.

Lemma filter_insert (P : A -> bool) (x : A) (l : list A) :
  sorted l ->
  List.filter P (insert key x l)
  = if P x then insert key x (List.filter P l) else List.filter P l.
Proof.
  induction 1 as [|y l Hs IH Hy]; simpl.
  - destruct (P x); reflexivity.
  - destruct (leb x y) eqn:E; simpl.
    + destruct (P x) eqn:Px, (P y) eqn:Py; simpl; rewrite ?E; try reflexivity.
      symmetry. apply insert_first.
      rewrite List.Forall_forall in *. intros z Hz.
      apply List.filter_In in Hz as [Hz _].
      unfold row_leb in *. eapply key_leb_trans; [exact E | apply Hy, Hz].
    + rewrite IH.
      destruct (P x) eqn:Px, (P y) eqn:Py; simpl; rewrite ?E; reflexivity.
Qed.

(** A stable sort commutes with a filter: the rows a WHERE keeps come out
    of ORDER BY in the order ORDER BY gives them alone. *)
Lemma filter_order_by (P : A -> bool) (l : list A) :
  List.filter P (order_by key l) = order_by key (List.filter P l).
Proof.
  induction l as [|x l IH]; simpl; [reflexivity|].
  rewrite filter_insert by apply order_by_sorted.
  rewrite IH. destruct (P x); reflexivity.
Qed.

End OrderByFacts.

(** *** Filters and groups *)

Lemma filter_all {A : Type} (P : A -> bool) (l : list A) :
  (forall x, x ∈ l -> P x = true) -> List.filter P l = l.
Proof.
  induction l as [|x l IH]; intros H; simpl; [reflexivity|].
  rewrite (H x) by left. rewrite IH; [reflexivity|].
  intros y Hy. apply H. right. exact Hy.
Qed.

Lemma filter_none {A : Type} (P : A -> bool) (l : list A) :
  (forall x, x ∈ l -> P x = false) -> List.filter P l = [].
Proof.
  induction l as [|x l IH]; intros H; simpl; [reflexivity|].
  rewrite (H x) by left. apply IH.
  intros y Hy. apply H. right. exact Hy.
Qed.

Lemma elem_of_order_by {A : Type} (key : A -> list (option Z)) (z : A) (l : list A) :
  z ∈ order_by key l -> z ∈ l.
Proof.
  induction l as [|x l IH]; simpl; [trivial|].
  intros H. apply elem_of_insert in H as [-> | H]; [left | right; auto].
Qed.

Lemma elem_of_left_join {A B : Type} (on : A -> B -> bool) (l : list A)
    (r : list B) (j : A * option B) :
  j ∈ left_join on l r -> fst j ∈ l.
Proof.
  unfold left_join. intros H.
  apply list_elem_of_In, List.in_flat_map in H as [a [Ha Hj]].
  apply list_elem_of_In in Ha.
  destruct (List.filter (on a) r) as [|b ms].
  - apply List.in_inv in Hj as [<- | []]. exact Ha.
  - apply List.in_map_iff in Hj as [b' [<- _]]. exact Ha.
Qed.

Lemma elem_of_left_join_some {A B : Type} (on : A -> B -> bool) (l : list A)
    (r : list B) (a : A) (b : B) :
  (a, Some b) ∈ left_join on l r -> b ∈ r /\ on a b = true.
Proof.
  unfold left_join. intros H.
  apply list_elem_of_In, List.in_flat_map in H as [a' [_ Hj]].
  destruct (List.filter (on a') r) as [|b0 ms] eqn:E.
  - apply List.in_inv in Hj as [Hj | []]. discriminate Hj.
  - apply List.in_map_iff in Hj as [b' [Heq Hb']]. inversion Heq; subst.
    rewrite <- E in Hb'. apply List.filter_In in Hb' as [Hb' Hon].
    split; [apply list_elem_of_In, Hb' | exact Hon].
Qed.

(** A group of GROUP BY holds the rows of its key, and at least one. *)
Lemma elem_of_group_by {A K : Type} `{EqDecision K} (key : A -> K) (l : list A)
    (g : K * list A) :
  g ∈ group_by key l ->
  snd g = List.filter (fun a => bool_decide (key a = fst g)) l /\
  exists a, a ∈ snd g.
Proof.
  unfold group_by, distinct. intros H.
  apply list_elem_of_fmap in H as [k [-> Hk]]. simpl.
  split; [reflexivity|].
  apply elem_of_remove_dups, list_elem_of_fmap in Hk as [a [-> Ha]].
  exists a. apply list_elem_of_In, List.filter_In.
  split; [apply list_elem_of_In, Ha | apply bool_decide_eq_true_2; reflexivity].
Qed.

Section Groups.

Context {A B K : Type} `{EqDecision K}.
Context (key : A -> K) (keyB : B -> K) (f : list A -> list B).
Hypothesis f_nil : f [] = [].
Hypothesis f_key : forall rows b, b ∈ f rows -> exists a, a ∈ rows /\ keyB b = key a.

Let rows_of (l : list A) (k : K) : list A :=
  List.filter (fun a => bool_decide (key a = k)) l.

Lemma filter_group_other (l : list A) (k k' : K) :
  k' <> k ->
  List.filter (fun b => bool_decide (keyB b = k)) (f (rows_of l k')) = [].
Proof.
  intros Hne. apply filter_none. intros b Hb.
  apply f_key in Hb as [a [Ha ->]].
  apply list_elem_of_In, List.filter_In in Ha as [_ Ha].
  apply bool_decide_eq_true_1 in Ha.
  apply bool_decide_eq_false_2. congruence.
Qed.

Lemma filter_group_same (l : list A) (k : K) :
  List.filter (fun b => bool_decide (keyB b = k)) (f (rows_of l k)) = f (rows_of l k).
Proof.
  apply filter_all. intros b Hb.
  apply f_key in Hb as [a [Ha ->]].
  apply list_elem_of_In, List.filter_In in Ha as [_ Ha]. exact Ha.
Qed.

Lemma filter_groups_nodup (l : list A) (ks : list K) (k : K) :
  NoDup ks ->
  List.filter (fun b => bool_decide (keyB b = k))
              (flat_map (fun g => f (snd g)) (map (fun k' => (k', rows_of l k')) ks))
  = if bool_decide (k ∈ ks) then f (rows_of l k) else [].
Proof.
  induction 1 as [|k' ks Hk' Hnd IH]; simpl; [reflexivity|].
  rewrite List.filter_app, IH.
  destruct (decide (k' = k)) as [->|Hne].
  - rewrite filter_group_same.
    rewrite (bool_decide_eq_false_2 _ Hk').
    rewrite bool_decide_eq_true_2 by left. apply app_nil_r.
  - rewrite (filter_group_other l k k' Hne). simpl.
    destruct (bool_decide (k ∈ ks)) eqn:E.
    + rewrite bool_decide_eq_true_2; [reflexivity|].
      right. apply bool_decide_eq_true_1 in E. exact E.
    + rewrite bool_decide_eq_false_2; [reflexivity|].
      apply bool_decide_eq_false_1 in E.
      intros Hin. apply elem_of_cons in Hin as [-> | Hin]; congruence.
Qed.

(** The rows of one group, read back from the rows of all groups. *)
Lemma filter_groups (l : list A) (k : K) :
  List.filter (fun b => bool_decide (keyB b = k))
              (flat_map (fun g => f (snd g)) (group_by key l))
  = f (rows_of l k).
Proof.
  unfold group_by, distinct.
  rewrite (filter_groups_nodup l _ k (NoDup_remove_dups _)).
  destruct (bool_decide (k ∈ remove_dups (map key l))) eqn:E; [reflexivity|].
  apply bool_decide_eq_false_1 in E.
  replace (rows_of l k) with (@nil A); [symmetry; exact f_nil|].
  symmetry. apply filter_none. intros a Ha.
  apply bool_decide_eq_false_2. intros Hk. apply E.
  apply elem_of_remove_dups, list_elem_of_fmap. exists a. auto.
Qed.

End Groups.

End Sql.

(** ** pipeline/gold.py *)

Module Gold.

Import Sql.

(** [SELECT DISTINCT match_id, team_id, team FROM fact_events] *)
Definition team_names (fact_events : list event_row)
  : list (option Z * option Z * cell) :=
  distinct (map (fun e => (ev_match_id e, ev_team_id e, ev_team e)) fact_events).

(** [SELECT DISTINCT match_id, team_id, player_id, player FROM fact_events
     WHERE player_id IS NOT NULL] *)
Definition team_player_names (fact_events : list event_row)
  : list (option Z * option Z * option Z * cell) :=
  distinct (map (fun e => (ev_match_id e, ev_team_id e, ev_player_id e, ev_player e))
                (List.filter (fun e => bool_decide (ev_player_id e <> None))
                             fact_events)).

(** [SELECT DISTINCT match_id, player_id, player FROM fact_events
     WHERE player_id IS NOT NULL] *)
Definition player_names (fact_events : list event_row)
  : list (option Z * option Z * cell) :=
  distinct (map (fun e => (ev_match_id e, ev_player_id e, ev_player e))
                (List.filter (fun e => bool_decide (ev_player_id e <> None))
                             fact_events)).

(** The name column a LEFT JOIN contributes: NULL when no row matched. *)
Definition joined_name {K : Type} (o : option (K * cell)) : cell :=
  match o with
  | Some (_, name) => name
  | None => CNone
  end.

(** *** gold_xg_timeline *)

Record xg_timeline_row : Type := {
  xt_match_id : option Z;
  xt_team_id : option Z;
  xt_team_name : cell;
  xt_period : option Z;
  xt_minute : option Z;
  xt_second : option Z;
  xt_xg : option Q;
  xt_is_goal : bool;
  xt_outcome : cell;
  xt_cumulative_xg : option Q
}.

(** A row of [fact_shots s LEFT JOIN (...) e]. *)
Definition shot_team : Type := shot_row * option (option Z * option Z * cell).

(** [ON s.match_id = e.match_id AND s.team_id = e.team_id] *)
Definition on_team (s : shot_row) (e : option Z * option Z * cell) : bool :=
  eqb (s_match_id s) (fst (fst e)) && eqb (s_team_id s) (snd (fst e)).

(** [PARTITION BY s.match_id, s.team_id] *)
Definition partition_key (j : shot_team) : list (option Z) :=
  [s_match_id (fst j); s_team_id (fst j)].

(** [ORDER BY s.period, s.minute, s.second] of the window. *)
Definition window_key (j : shot_team) : list (option Z) :=
  [s_period (fst j); s_minute (fst j); s_second (fst j)].

Definition timeline_row (j : shot_team) (cumulative : option Q) : xg_timeline_row :=
  {| xt_match_id := s_match_id (fst j);
     xt_team_id := s_team_id (fst j);
     xt_team_name := joined_name (snd j);
     xt_period := s_period (fst j);
     xt_minute := s_minute (fst j);
     xt_second := s_second (fst j);
     xt_xg := s_xg (fst j);
     xt_is_goal := s_is_goal (fst j);
     xt_outcome := s_outcome (fst j);
     xt_cumulative_xg := cumulative |}.

(** [SUM(s.xg) OVER (... ROWS BETWEEN UNBOUNDED PRECEDING AND CURRENT ROW)]
    on one partition already in window order: [acc] is the sum so far. *)
Fixpoint with_cumulative (acc : option Q) (part : list shot_team)
  : list xg_timeline_row :=
  match part with
  | [] => []
  | j :: rest =>
      let acc' := add_null acc (s_xg (fst j)) in
      timeline_row j acc' :: with_cumulative acc' rest
  end.

Definition partition_of (r : xg_timeline_row) : list (option Z) :=
  [xt_match_id r; xt_team_id r].

Definition time_of (r : xg_timeline_row) : list (option Z) :=
  [xt_period r; xt_minute r; xt_second r].

(** [ORDER BY s.match_id, s.team_id, s.period, s.minute, s.second] *)
Definition timeline_order (r : xg_timeline_row) : list (option Z) :=
  partition_of r ++ time_of r.

Definition build_gold_xg_timeline (fact_shots : list shot_row)
    (fact_events : list event_row) : list xg_timeline_row :=
  let joined := left_join on_team fact_shots (team_names fact_events) in
  let windowed :=
    flat_map (fun g => with_cumulative None (order_by window_key (snd g)))
             (group_by partition_key joined) in
  order_by timeline_order windowed.

(** The rows of one (match, team) partition, in table order. *)
Definition partition_rows (m t : option Z) (tl : list xg_timeline_row)
  : list xg_timeline_row :=
  List.filter (fun r => bool_decide (partition_of r = [m; t])) tl.

(** Order on nullable sums: NULL (nothing summed yet) comes first. *)
Definition le_null (a b : option Q) : Prop :=
  match a, b with
  | None, _ => True
  | Some _, None => False
  | Some x, Some y => (x <= y)%Q
  end.

Definition shot (m t p mi se : Z) (xg : option Q) (goal : bool) : shot_row :=
  {| s_event_id := CNone; s_match_id := Some m; s_player_id := None;
     s_team_id := Some t; s_period := Some p; s_minute := Some mi;
     s_second := Some se; s_location_x := None; s_location_y := None;
     s_xg := xg; s_outcome := if goal then CStr "Goal" else CStr "Saved";
     s_is_goal := goal; s_body_part := CNone; s_shot_type := CStr "Open Play";
     s_is_first_time := false; s_under_pressure := false |}.

(** Shots of two teams in match 7, out of time order, one without xg. *)
Definition shots_of_match_7 : list shot_row :=
  [shot 7 1 2 50 0 (Some (1#10)) false; shot 7 2 1 9 0 (Some (3#10)) false;
   shot 7 1 1 16 2 (Some (45#100)) true; shot 7 1 1 30 0 None false].

Example timeline_two_teams :
  map (fun r => (xt_team_id r, xt_minute r, xt_cumulative_xg r))
      (build_gold_xg_timeline shots_of_match_7 [])
  = [(Some 1, Some 16, Some (45#100)); (Some 1, Some 30, Some (45#100));
     (Some 1, Some 50, Some ((45#100) + (1#10))%Q); (Some 2, Some 9, Some (3#10))].
Proof. vm_compute. reflexivity. Qed.

(** *** Properties of gold_xg_timeline *)

Lemma strongly_sorted_lookup {A : Type} (R : A -> A -> Prop) (l : list A)
    (i j : nat) (a b : A) :
  StronglySorted R l -> (i < j)%nat -> l !! i = Some a -> l !! j = Some b -> R a b.
Proof.
  intros Hs. revert i j. induction Hs as [|x l Hs IH Hx]; intros i j Hij Hi Hj.
  - inversion Hi.
  - destruct j as [|j]; [lia|]. destruct i as [|i]; simpl in *.
    + inversion Hi; subst. rewrite List.Forall_forall in Hx. apply Hx.
      apply list_elem_of_In, list_elem_of_lookup. eauto.
    + apply (IH i j); [lia | assumption | assumption].
Qed.

Lemma strongly_sorted_on {A : Type} (R R' : A -> A -> Prop) (l : list A) :
  (forall a b, a ∈ l -> b ∈ l -> R a b -> R' a b) ->
  StronglySorted R l -> StronglySorted R' l.
Proof.
  intros Himp Hs. induction Hs as [|x l Hs IH Hx].
  - constructor.
  - constructor.
    + apply IH. intros a b Ha Hb. apply Himp; right; assumption.
    + rewrite List.Forall_forall in *. intros z Hz.
      apply Himp; [left | right; apply list_elem_of_In, Hz | apply Hx, Hz].
Qed.

Lemma elem_of_with_cumulative (acc : option Q) (part : list shot_team)
    (r : xg_timeline_row) :
  r ∈ with_cumulative acc part ->
  exists j c, j ∈ part /\ r = timeline_row j c.
Proof.
  revert acc. induction part as [|j part IH]; intros acc H; simpl in H.
  - inversion H.
  - apply elem_of_cons in H as [-> | H].
    + exists j, (add_null acc (s_xg (fst j))). split; [left | reflexivity].
    + destruct (IH _ H) as [j' [c [Hj' ->]]].
      exists j', c. split; [right; exact Hj' | reflexivity].
Qed.

(** The window of one partition: its rows in window order, with their
    running sums. *)
Definition window (rows : list shot_team) : list xg_timeline_row :=
  with_cumulative None (order_by window_key rows).

Lemma window_key_of (rows : list shot_team) (r : xg_timeline_row) :
  r ∈ window rows -> exists j, j ∈ rows /\ partition_of r = partition_key j.
Proof.
  intros H. apply elem_of_with_cumulative in H as [j [c [Hj ->]]].
  exists j. split; [|reflexivity].
  eapply elem_of_order_by. exact Hj.
Qed.

Lemma with_cumulative_sorted (acc : option Q) (part : list shot_team) :
  StronglySorted (fun a b => row_leb window_key a b = true) part ->
  StronglySorted (fun a b => row_leb time_of a b = true) (with_cumulative acc part).
Proof.
  intros Hs. revert acc. induction Hs as [|j part Hs IH Hj]; intros acc; simpl.
  - constructor.
  - constructor; [apply IH|].
    rewrite List.Forall_forall in *. intros r Hr.
    apply list_elem_of_In, elem_of_with_cumulative in Hr as [j' [c [Hj' ->]]].
    apply (Hj j'), list_elem_of_In, Hj'.
Qed.

Lemma timeline_order_same_partition (a b : xg_timeline_row) :
  partition_of a = partition_of b ->
  row_leb timeline_order a b = row_leb time_of a b.
Proof.
  intros Hk. unfold row_leb, key_leb, timeline_order.
  rewrite Hk, lex_cmp_prefix. reflexivity.
Qed.

(** The rows of a partition are the window of its shots: the final
    ORDER BY leaves them in window order. *)
Lemma partition_rows_window (fact_shots : list shot_row)
    (fact_events : list event_row) (m t : option Z) :
  partition_rows m t (build_gold_xg_timeline fact_shots fact_events)
  = window (List.filter (fun j => bool_decide (partition_key j = [m; t]))
                        (left_join on_team fact_shots (team_names fact_events))).
Proof.
  unfold partition_rows, build_gold_xg_timeline.
  rewrite filter_order_by.
  rewrite (filter_groups partition_key partition_of window eq_refl window_key_of).
  apply order_by_id.
  apply (strongly_sorted_on (fun a b => row_leb time_of a b = true)).
  - intros a b Ha Hb Hab.
    rewrite timeline_order_same_partition; [exact Hab|].
    apply window_key_of in Ha as [ja [Hja ->]].
    apply window_key_of in Hb as [jb [Hjb ->]].
    apply list_elem_of_In, List.filter_In in Hja as [_ Hja].
    apply list_elem_of_In, List.filter_In in Hjb as [_ Hjb].
    apply bool_decide_eq_true_1 in Hja, Hjb. congruence.
  - apply with_cumulative_sorted, order_by_sorted.
Qed.

Lemma with_cumulative_lookup (acc : option Q) (part : list shot_team) (i : nat)
    (r : xg_timeline_row) :
  with_cumulative acc part !! i = Some r ->
  xt_cumulative_xg r
  = fold_left add_null (map xt_xg (take (S i) (with_cumulative acc part))) acc.
Proof.
  revert acc i. induction part as [|j part IH]; intros acc i Hi; simpl in *.
  - inversion Hi.
  - destruct i as [|i]; simpl in *.
    + inversion Hi; subst. reflexivity.
    + apply IH in Hi. exact Hi.
Qed.

Lemma le_null_refl (a : option Q) : le_null a a.
Proof. destruct a; simpl; [apply Qle_refl | exact I]. Qed.

Lemma le_null_trans (a b c : option Q) : le_null a b -> le_null b c -> le_null a c.
Proof.
  destruct a, b, c; simpl; try tauto. apply Qle_trans.
Qed.

Lemma add_null_le (acc x : option Q) :
  (forall q, x = Some q -> (0 <= q)%Q) -> le_null acc (add_null acc x).
Proof.
  intros Hx. destruct acc as [a|], x as [q|]; simpl; try exact I.
  - specialize (Hx q eq_refl).
    rewrite <- (Qplus_0_r a) at 1. apply Qplus_le_r. exact Hx.
  - apply Qle_refl.
Qed.

Lemma with_cumulative_monotone (acc : option Q) (part : list shot_team) :
  (forall j q, j ∈ part -> s_xg (fst j) = Some q -> (0 <= q)%Q) ->
  Forall (fun r => le_null acc (xt_cumulative_xg r)) (with_cumulative acc part) /\
  StronglySorted (fun a b => le_null (xt_cumulative_xg a) (xt_cumulative_xg b))
                 (with_cumulative acc part).
Proof.
  revert acc. induction part as [|j part IH]; intros acc Hpos; simpl.
  - split; constructor.
  - assert (Hstep : le_null acc (add_null acc (s_xg (fst j)))).
    { apply add_null_le. intros q Hq. apply (Hpos j q); [left | exact Hq]. }
    destruct (IH (add_null acc (s_xg (fst j)))) as [Hall Hs].
    { intros j' q Hj'. apply Hpos. right. exact Hj'. }
    split.
    + constructor; [exact Hstep|].
      eapply List.Forall_impl; [|exact Hall].
      intros r Hr. eapply le_null_trans; [exact Hstep | exact Hr].
    + constructor; [exact Hs | exact Hall].
Qed.

(** cumulative_xg never decreases along any partition of the table. *)
Definition cumulative_xg_monotone (tl : list xg_timeline_row) : Prop :=
  forall m t i j ri rj, (i <= j)%nat ->
    partition_rows m t tl !! i = Some ri ->
    partition_rows m t tl !! j = Some rj ->
    le_null (xt_cumulative_xg ri) (xt_cumulative_xg rj).

(** Two shots of team 1 in match 7; the xg of the second is negative, which
    [pd.to_numeric] keeps as it is. *)
Definition shots_with_negative_xg : list shot_row :=
  [shot 7 1 1 10 0 (Some (1 # 2)) false; shot 7 1 1 20 0 (Some (-1 # 4)) false].

(** The claim as stated fails: nothing in the pipeline checks the sign of
    xg, and the running sum goes down at a negative one. *)
Lemma cumulative_xg_decreases :
  map (fun r => (xt_minute r, xt_xg r, Qred <$> xt_cumulative_xg r))
      (partition_rows (Some 7) (Some 1)
         (build_gold_xg_timeline shots_with_negative_xg []))
  = [(Some 10, Some (1 # 2), Some (1 # 2)); (Some 20, Some (-1 # 4), Some (1 # 4))]
  /\ ~ cumulative_xg_monotone (build_gold_xg_timeline shots_with_negative_xg []).
Proof.
  split; [vm_compute; reflexivity|].
  intros H.
  specialize (H (Some 7) (Some 1) 0%nat 1%nat
                (timeline_row (shot 7 1 1 10 0 (Some (1 # 2)) false, None)
                              (Some (1 # 2)))
                (timeline_row (shot 7 1 1 20 0 (Some (-1 # 4)) false, None)
                              (Some ((1 # 2) + (-1 # 4))%Q))).
  assert (Hle : le_null (Some (1 # 2)) (Some ((1 # 2) + (-1 # 4))%Q)).
  { apply H; [lia | vm_compute; reflexivity | vm_compute; reflexivity]. }
  vm_compute in Hle. apply Hle. reflexivity.
Qed.

(** C7, amended. In the xGTimeline table, the rows of every (match, team)
    partition are in (period, minute, second) order and cumulative_xg of
    each row is the SUM of xg over the rows of the partition up to that
    row; when no shot of the partition has a negative xg, cumulative_xg
    never decreases along the partition. *)
Theorem cumulative_xg_running_sum (fact_shots : list shot_row)
    (fact_events : list event_row) (m t : option Z) :
  let part :=
    partition_rows m t (build_gold_xg_timeline fact_shots fact_events) in
  StronglySorted (fun a b => row_leb time_of a b = true) part /\
  (forall i r, part !! i = Some r ->
     xt_cumulative_xg r = Sql.sum (map xt_xg (take (S i) part))) /\
  ((forall s q, s ∈ fact_shots -> s_match_id s = m -> s_team_id s = t ->
      s_xg s = Some q -> (0 <= q)%Q) ->
   forall i j ri rj, (i <= j)%nat ->
     part !! i = Some ri -> part !! j = Some rj ->
     le_null (xt_cumulative_xg ri) (xt_cumulative_xg rj)).
Proof.
  intros part. subst part. rewrite partition_rows_window. unfold window.
  split; [apply with_cumulative_sorted, order_by_sorted|].
  split; [intros i r; apply with_cumulative_lookup|].
  intros Hpos i j ri rj Hij Hi Hj.
  destruct (decide (i = j)) as [->|Hne].
  - rewrite Hi in Hj. inversion Hj; subst. apply le_null_refl.
  - refine (strongly_sorted_lookup
              (fun a b => le_null (xt_cumulative_xg a) (xt_cumulative_xg b))
              _ i j ri rj _ _ Hi Hj); [|lia].
    apply with_cumulative_monotone.
    intros j' q Hj' Hq.
    apply elem_of_order_by, list_elem_of_In, List.filter_In in Hj' as [Hj' Hkey].
    apply list_elem_of_In, elem_of_left_join in Hj'.
    apply bool_decide_eq_true_1 in Hkey. unfold partition_key in Hkey.
    inversion Hkey; subst.
    apply (Hpos (fst j') q Hj' eq_refl eq_refl Hq).
Qed.

Lemma shots_of_match_7_xg (s : shot_row) (q : Q) :
  s ∈ shots_of_match_7 -> s_xg s = Some q -> (0 <= q)%Q.
Proof.
  intros Hs Hq. unfold shots_of_match_7 in Hs.
  repeat (apply elem_of_cons in Hs as [-> | Hs]);
    try (simpl in Hq; inversion Hq; subst; discriminate).
  inversion Hs.
Qed.

Lemma cumulative_xg_running_sum_witness :
  (forall s q, s ∈ shots_of_match_7 ->
     s_match_id s = Some 7 -> s_team_id s = Some 1 ->
     s_xg s = Some q -> (0 <= q)%Q) /\
  (forall ri rj,
     partition_rows (Some 7) (Some 1)
       (build_gold_xg_timeline shots_of_match_7 []) !! 0%nat = Some ri ->
     partition_rows (Some 7) (Some 1)
       (build_gold_xg_timeline shots_of_match_7 []) !! 2%nat = Some rj ->
     le_null (xt_cumulative_xg ri) (xt_cumulative_xg rj)).
Proof.
  assert (Hpos : forall s q, s ∈ shots_of_match_7 ->
                   s_match_id s = Some 7 -> s_team_id s = Some 1 ->
                   s_xg s = Some q -> (0 <= q)%Q).
  { intros s q Hs _ _ Hq. exact (shots_of_match_7_xg s q Hs Hq). }
  split; [exact Hpos|].
  intros ri rj.
  apply (proj2 (proj2 (cumulative_xg_running_sum shots_of_match_7 []
                         (Some 7) (Some 1)))
           Hpos 0%nat 2%nat ri rj).
  lia.
Defined.

(** *** gold_pass_network_edges *)

Record pass_network_edge : Type := {
  e_match_id : option Z;
  e_team_id : option Z;
  e_passer_id : option Z;
  e_recipient_id : option Z;
  e_passer_name : cell;
  e_recipient_name : cell;
  e_pass_count : Z;
  e_avg_start_x : option Q;
  e_avg_start_y : option Q;
  e_avg_end_x : option Q;
  e_avg_end_y : option Q
}.

(** A row of [fact_passes p LEFT JOIN (...) ep LEFT JOIN (...) er]. *)
Definition pass_names : Type :=
  pass_row * option (option Z * option Z * option Z * cell)
           * option (option Z * option Z * cell).

Definition pass_of (j : pass_names) : pass_row := fst (fst j).

(** [ON p.match_id = ep.match_id AND p.team_id = ep.team_id
        AND p.player_id = ep.player_id] *)
Definition on_passer (p : pass_row) (ep : option Z * option Z * option Z * cell)
  : bool :=
  eqb (p_match_id p) (fst (fst (fst ep)))
  && eqb (p_team_id p) (snd (fst (fst ep)))
  && eqb (p_player_id p) (snd (fst ep)).

(** [ON p.match_id = er.match_id AND p.recipient_id = er.player_id] *)
Definition on_recipient
    (j : pass_row * option (option Z * option Z * option Z * cell))
    (er : option Z * option Z * cell) : bool :=
  eqb (p_match_id (fst j)) (fst (fst er))
  && eqb (p_recipient_id (fst j)) (snd (fst er)).

(** [WHERE p.is_completed = TRUE AND p.recipient_id IS NOT NULL] *)
Definition completed_with_recipient (j : pass_names) : bool :=
  p_is_completed (pass_of j) && bool_decide (p_recipient_id (pass_of j) <> None).

(** [GROUP BY p.match_id, p.team_id, p.player_id, p.recipient_id,
             ep.player, er.player] *)
Definition edge_key (j : pass_names)
  : option Z * option Z * option Z * option Z * cell * cell :=
  (p_match_id (pass_of j), p_team_id (pass_of j), p_player_id (pass_of j),
   p_recipient_id (pass_of j), joined_name (snd (fst j)), joined_name (snd j)).

(** The SELECT list over one group. *)
Definition edge_of
    (g : option Z * option Z * option Z * option Z * cell * cell * list pass_names)
  : pass_network_edge :=
  let '(m, t, passer, recipient, passer_name, recipient_name, rows) := g in
  {| e_match_id := m;
     e_team_id := t;
     e_passer_id := passer;
     e_recipient_id := recipient;
     e_passer_name := passer_name;
     e_recipient_name := recipient_name;
     e_pass_count := count rows;
     e_avg_start_x := avg (map (fun j => p_location_x (pass_of j)) rows);
     e_avg_start_y := avg (map (fun j => p_location_y (pass_of j)) rows);
     e_avg_end_x := avg (map (fun j => p_end_location_x (pass_of j)) rows);
     e_avg_end_y := avg (map (fun j => p_end_location_y (pass_of j)) rows) |}.

Definition build_gold_pass_network_edges (fact_passes : list pass_row)
    (fact_events : list event_row) : list pass_network_edge :=
  let joined :=
    left_join on_recipient
      (left_join on_passer fact_passes (team_player_names fact_events))
      (player_names fact_events) in
  let kept := List.filter completed_with_recipient joined in
  map edge_of
      (List.filter (fun g => 2 <=? count (snd g)) (group_by edge_key kept)).

(** *** gold_team_stats *)

Record team_stats_row : Type := {
  ts_match_id : option Z;
  ts_team_id : option Z;
  ts_team_name : cell;
  ts_total_shots : Z;
  ts_shots_on_target : Z;
  ts_goals : Z;
  ts_total_xg : option Q;
  ts_total_passes : Z;
  ts_pass_completion_pct : option Q;
  ts_total_carries : Z;
  ts_total_pressures : Z
}.

(** [ROUND(x, digits)]: to the nearest, halves away from zero. *)
Definition round (q : Q) (digits : Z) : Q :=
  let scale := inject_Z (10 ^ digits) in
  let scaled := (q * scale)%Q in
  let nearest :=
    if Qle_bool 0 scaled then Qfloor (scaled + (1#2))
    else - Qfloor (- scaled + (1#2)) in
  (inject_Z nearest / scale)%Q.

(** [GROUP BY s.match_id, s.team_id, e.team] *)
Definition stats_key (j : shot_team) : option Z * option Z * cell :=
  (s_match_id (fst j), s_team_id (fst j), joined_name (snd j)).

(** [SELECT COUNT( * ) FROM fact_passes p
     WHERE p.match_id = s.match_id AND p.team_id = s.team_id] and its
    siblings on the other fact tables. *)
Definition passes_of (fact_passes : list pass_row) (m t : option Z) : list pass_row :=
  List.filter (fun p => eqb (p_match_id p) m && eqb (p_team_id p) t) fact_passes.

Definition carries_of (fact_carries : list carry_row) (m t : option Z)
  : list carry_row :=
  List.filter (fun c => eqb (c_match_id c) m && eqb (c_team_id c) t) fact_carries.

Definition pressures_of (fact_events : list event_row) (m t : option Z)
  : list event_row :=
  List.filter (fun ev => eqb (ev_match_id ev) m && eqb (ev_team_id ev) t
                         && str_eq (ev_type ev) "Pressure") fact_events.

(** [ROUND(100.0 * SUM(CASE WHEN p.is_completed THEN 1 ELSE 0 END)
           / NULLIF(COUNT( * ), 0), 1)] *)
Definition pass_completion_pct (ps : list pass_row) : option Q :=
  match ps with
  | [] => None
  | _ => Some (round (100 * inject_Z (count (List.filter p_is_completed ps))
                      / inject_Z (count ps)) 1)
  end.

Definition stats_of (fact_passes : list pass_row) (fact_carries : list carry_row)
    (fact_events : list event_row)
    (g : option Z * option Z * cell * list shot_team) : team_stats_row :=
  let '(m, t, team, rows) := g in
  {| ts_match_id := m;
     ts_team_id := t;
     ts_team_name := team;
     ts_total_shots := count rows;
     ts_shots_on_target :=
       count (List.filter (fun j => str_eq (s_outcome (fst j)) "Saved"
                                    || str_eq (s_outcome (fst j)) "Goal") rows);
     ts_goals := count (List.filter (fun j => s_is_goal (fst j)) rows);
     ts_total_xg :=
       option_map (fun x => round x 3) (sum (map (fun j => s_xg (fst j)) rows));
     ts_total_passes := count (passes_of fact_passes m t);
     ts_pass_completion_pct := pass_completion_pct (passes_of fact_passes m t);
     ts_total_carries := count (carries_of fact_carries m t);
     ts_total_pressures := count (pressures_of fact_events m t) |}.

Definition build_gold_team_stats (fact_shots : list shot_row)
    (fact_passes : list pass_row) (fact_carries : list carry_row)
    (fact_events : list event_row) : list team_stats_row :=
  let joined := left_join on_team fact_shots (team_names fact_events) in
  map (stats_of fact_passes fact_carries fact_events)
      (group_by stats_key joined).

(** *** Properties of gold_pass_network_edges *)

(** C8. Every PassNetworkEdge row is the aggregate of a group of joined
    pass rows, each of them a completed pass of fact_passes with a
    non-null recipient and with the edge's match, team, passer and
    recipient; pass_count is the size of that group and is at least 2. *)
Theorem edge_from_completed_passes (fact_passes : list pass_row)
    (fact_events : list event_row) (e : pass_network_edge) :
  e ∈ build_gold_pass_network_edges fact_passes fact_events ->
  exists rows,
    e = edge_of (e_match_id e, e_team_id e, e_passer_id e, e_recipient_id e,
                 e_passer_name e, e_recipient_name e, rows) /\
    (forall j, j ∈ rows ->
       pass_of j ∈ fact_passes /\
       p_is_completed (pass_of j) = true /\
       p_recipient_id (pass_of j) <> None /\
       edge_key j = (e_match_id e, e_team_id e, e_passer_id e, e_recipient_id e,
                     e_passer_name e, e_recipient_name e)) /\
    e_pass_count e = count rows /\
    2 <= e_pass_count e.
Proof.
  unfold build_gold_pass_network_edges. intros H.
  apply list_elem_of_fmap in H as [g [-> Hg]].
  apply list_elem_of_In, List.filter_In in Hg as [Hg Hcount].
  apply list_elem_of_In, elem_of_group_by in Hg as [Hrows _].
  destruct g as [[[[[[m t] passer] recipient] pname] rname] rows].
  simpl in *. exists rows. split; [reflexivity|]. split.
  - intros j Hj. rewrite Hrows in Hj.
    apply list_elem_of_In, List.filter_In in Hj as [Hj Hkey].
    apply List.filter_In in Hj as [Hj Hwhere].
    apply bool_decide_eq_true_1 in Hkey.
    unfold completed_with_recipient in Hwhere.
    apply andb_true_iff in Hwhere as [Hc Hr].
    apply bool_decide_eq_true_1 in Hr.
    repeat split; try assumption.
    apply list_elem_of_In, elem_of_left_join, elem_of_left_join in Hj. exact Hj.
  - split; [reflexivity|]. apply Z.leb_le. exact Hcount.
Qed.

Definition pass (id : string) (m t passer : Z) (recipient : option Z)
    (outcome : cell) : pass_row :=
  {| p_event_id := CStr id; p_match_id := Some m; p_player_id := Some passer;
     p_team_id := Some t; p_period := Some 1; p_minute := Some 1;
     p_second := Some 0; p_location_x := Some (50#1); p_location_y := Some (40#1);
     p_end_location_x := Some (60#1); p_end_location_y := Some (40#1);
     p_outcome := outcome; p_is_completed := isna outcome;
     p_pass_type := CNone; p_recipient_id := recipient |}.

(** Two completed passes from player 10 to player 11 and an incomplete one. *)
Definition passes_of_match_7 : list pass_row :=
  [pass "e1" 7 1 10 (Some 11) CNone; pass "e2" 7 1 10 (Some 11) CNaN;
   pass "e3" 7 1 11 None (CStr "Incomplete")].

Example one_edge :
  map (fun e => (e_passer_id e, e_recipient_id e, e_pass_count e))
      (build_gold_pass_network_edges passes_of_match_7 [])
  = [(Some 10, Some 11, 2)].
Proof. vm_compute. reflexivity. Qed.

Lemma edge_from_completed_passes_witness :
  exists e rows,
    e ∈ build_gold_pass_network_edges passes_of_match_7 [] /\
    e = edge_of (e_match_id e, e_team_id e, e_passer_id e, e_recipient_id e,
                 e_passer_name e, e_recipient_name e, rows) /\
    (forall j, j ∈ rows ->
       pass_of j ∈ passes_of_match_7 /\
       p_is_completed (pass_of j) = true /\
       p_recipient_id (pass_of j) <> None /\
       edge_key j = (e_match_id e, e_team_id e, e_passer_id e, e_recipient_id e,
                     e_passer_name e, e_recipient_name e)) /\
    e_pass_count e = count rows /\
    2 <= e_pass_count e.
Proof.
  assert (Hin : edge_of (Some 7, Some 1, Some 10, Some 11, CNone, CNone,
                         [(pass "e1" 7 1 10 (Some 11) CNone, None, None);
                          (pass "e2" 7 1 10 (Some 11) CNaN, None, None)])
                ∈ build_gold_pass_network_edges passes_of_match_7 []).
  { vm_compute. left. }
  destruct (edge_from_completed_passes passes_of_match_7 [] _ Hin) as [rows H].
  eexists. exists rows. split; [exact Hin | exact H].
Defined.

(** *** Properties of gold_team_stats *)

(** C10. A (match, team) pair has a row in gold_team_stats only if
    fact_shots has a shot of that team in that match (the row counts at
    least one shot); a team without a shot in a match has no row for it,
    whatever its passes, carries and pressures. *)
Theorem team_stats_row_needs_shot (fact_shots : list shot_row)
    (fact_passes : list pass_row) (fact_carries : list carry_row)
    (fact_events : list event_row) (m t : option Z) :
  ((exists r, r ∈ build_gold_team_stats fact_shots fact_passes fact_carries fact_events
              /\ ts_match_id r = m /\ ts_team_id r = t) ->
   exists s, s ∈ fact_shots /\ s_match_id s = m /\ s_team_id s = t) /\
  ((forall s, s ∈ fact_shots -> ~ (s_match_id s = m /\ s_team_id s = t)) ->
   forall r, r ∈ build_gold_team_stats fact_shots fact_passes fact_carries fact_events ->
     ~ (ts_match_id r = m /\ ts_team_id r = t)).
Proof.
  assert (Hrow : forall r,
    r ∈ build_gold_team_stats fact_shots fact_passes fact_carries fact_events ->
    exists s, s ∈ fact_shots /\ s_match_id s = ts_match_id r
                             /\ s_team_id s = ts_team_id r).
  { unfold build_gold_team_stats. intros r Hr.
    apply list_elem_of_fmap in Hr as [g [-> Hg]].
    apply elem_of_group_by in Hg as [Hrows [j Hj]].
    destruct g as [[[gm gt] team] rows]. simpl in *.
    rewrite Hrows in Hj.
    apply list_elem_of_In, List.filter_In in Hj as [Hj Hkey].
    apply bool_decide_eq_true_1 in Hkey. unfold stats_key in Hkey.
    exists (fst j). split.
    - apply list_elem_of_In, elem_of_left_join in Hj. exact Hj.
    - inversion Hkey; subst. split; reflexivity. }
  split.
  - intros [r [Hr [Hm Ht]]]. destruct (Hrow r Hr) as [s [Hs [Hsm Hst]]].
    exists s. split; [exact Hs|]. split; congruence.
  - intros Hnone r Hr [Hm Ht]. destruct (Hrow r Hr) as [s [Hs [Hsm Hst]]].
    apply (Hnone s Hs). split; congruence.
Qed.

Definition carry (m t : Z) : carry_row :=
  {| c_event_id := CNone; c_match_id := Some m; c_player_id := None;
     c_team_id := Some t; c_period := None; c_minute := None; c_second := None;
     c_location_x := None; c_location_y := None;
     c_end_location_x := None; c_end_location_y := None;
     c_duration := None; c_under_pressure := false |}.

Definition event (m t : Z) (team kind : string) : event_row :=
  {| ev_event_id := CNone; ev_match_id := Some m; ev_period := None;
     ev_minute := None; ev_second := None; ev_type := CStr kind;
     ev_player_id := None; ev_player := CNone; ev_team_id := Some t;
     ev_team := CStr team; ev_location_x := None; ev_location_y := None |}.

(** Team 1 shoots once and scores; team 2 passes, carries and presses but
    never shoots. *)
Definition goal_of_team_1 : list shot_row :=
  [shot 7 1 1 16 2 (Some (45#100)) true].

Definition passes_of_both_teams : list pass_row :=
  passes_of_match_7 ++ [pass "e5" 7 2 20 (Some 21) CNone].

Definition events_of_both_teams : list event_row :=
  [event 7 1 "Ecuador" "Shot"; event 7 2 "Qatar" "Pressure";
   event 7 2 "Qatar" "Pass"].

Example stats_of_scoring_team_only :
  map (fun r => (ts_team_id r, ts_team_name r, ts_total_shots r, ts_goals r,
                 ts_total_passes r))
      (build_gold_team_stats goal_of_team_1 passes_of_both_teams [carry 7 2]
                             events_of_both_teams)
  = [(Some 1, CStr "Ecuador", 1, 1, 3)].
Proof. vm_compute. reflexivity. Qed.

Lemma team_stats_row_needs_shot_witness :
  (forall s, s ∈ goal_of_team_1 -> ~ (s_match_id s = Some 7 /\ s_team_id s = Some 2)) /\
  (exists p, p ∈ passes_of_both_teams /\ p_match_id p = Some 7 /\ p_team_id p = Some 2) /\
  (forall r,
     r ∈ build_gold_team_stats goal_of_team_1 passes_of_both_teams [carry 7 2]
           events_of_both_teams ->
     ~ (ts_match_id r = Some 7 /\ ts_team_id r = Some 2)).
Proof.
  assert (Hnone : forall s, s ∈ goal_of_team_1 ->
                    ~ (s_match_id s = Some 7 /\ s_team_id s = Some 2)).
  { intros s Hs [_ Ht]. unfold goal_of_team_1 in Hs.
    apply list_elem_of_singleton in Hs. subst s. discriminate Ht. }
  split; [exact Hnone|]. split.
  - exists (pass "e5" 7 2 20 (Some 21) CNone).
    split; [|split; reflexivity].
    unfold passes_of_both_teams, passes_of_match_7. simpl.
    right. right. right. left.
  - exact (proj2 (team_stats_row_needs_shot goal_of_team_1 passes_of_both_teams
                    [carry 7 2] events_of_both_teams (Some 7) (Some 2)) Hnone).
Defined.

End Gold.

(** ** scripts/xg_model.py (features) and scripts/apply_xg_model.py *)

Module XgModel.

Definition GOAL_X : Q := 120.
Definition GOAL_Y : Q := 40.

(** One row of the feature frame. *)
Record features : Type := {
  distance : Q;
  angle : Q;
  distance_sq : Q;
  is_header : Z;
  is_penalty : Z;
  is_open_play : Z;
  is_first_time : Z;
  under_pressure : Z
}.

(** [.astype(int)] on a boolean. *)
Definition as_int (b : bool) : Z := if b then 1 else 0.

Section Apply.

(** numpy, and the fitted pipeline loaded from models/xg_model.pkl:
    [predict_proba(X)[:, 1]] on one row of features. *)
Variable sqrt : Q -> Q.
Variable arctan2 : Q -> Q -> Q.
Variable predict_proba : features -> Q.

Definition compute_distance (x y : Q) : Q :=
  sqrt ((GOAL_X - x) ^ 2 + (GOAL_Y - y) ^ 2)%Q.

Definition compute_angle (x y : Q) : Q :=
  let post_left_y := (3634 # 100)%Q in
  let post_right_y := (4366 # 100)%Q in
  let ax := (GOAL_X - x)%Q in
  let ay := (post_left_y - y)%Q in
  let bx := (GOAL_X - x)%Q in
  let by_ := (post_right_y - y)%Q in
  let cross := (ax * by_ - ay * bx)%Q in
  let dot := (ax * bx + ay * by_)%Q in
  arctan2 (Qabs cross) dot.

(** [build_features] on one row whose location is (x, y). *)
Definition build_features (r : shot_row) (x y : Q) : features :=
  let d := compute_distance x y in
  {| distance := d;
     angle := compute_angle x y;
     distance_sq := (d ^ 2)%Q;
     is_header := as_int (str_eq (s_body_part r) "Head");
     is_penalty := as_int (str_eq (s_shot_type r) "Penalty");
     is_open_play := as_int (str_eq (s_shot_type r) "Open Play");
     is_first_time := as_int (s_is_first_time r);
     under_pressure := as_int (s_under_pressure r) |}.

(** A row of [SELECT * FROM fact_shots]: the shot, and the xg_model value the
    table already holds for it ([None] when it is NULL or the table has no
    such column yet). *)
Definition shot_frame : Type := list (shot_row * option Q).

(** [df["location_x"].notna() & df["location_y"].notna()] *)
Definition location (r : shot_row) : option (Q * Q) :=
  match s_location_x r, s_location_y r with
  | Some x, Some y => Some (x, y)
  | _, _ => None
  end.

(** [df_valid] with its xg_model column: the row labels of the shots with a
    location, each with the model's probability. *)
Definition df_valid (df : shot_frame) : list (nat * Q) :=
  omap (fun ir =>
          match location (fst (snd ir)) with
          | Some (x, y) =>
              Some (fst ir, predict_proba (build_features (fst (snd ir)) x y))
          | None => None
          end)
       (imap (fun i r => (i, r)) df).

(** The value of a labelled column at row label [i]. *)
Fixpoint at_label (col : list (nat * Q)) (i : nat) : option Q :=
  match col with
  | [] => None
  | (j, q) :: rest => if Nat.eqb j i then Some q else at_label rest i
  end.

(** [df.loc[df["shot_type"] == "Penalty", "xg_model"] = 0.76] *)
Definition set_penalties (df : shot_frame) : shot_frame :=
  map (fun rv => if str_eq (s_shot_type (fst rv)) "Penalty"
                 then (fst rv, Some (76 # 100)%Q)
                 else rv) df.

(** [df.update(other)]: every non-NA value of [other] overwrites the value
    of [df] at the same row label. *)
Definition update (df : shot_frame) (other : list (nat * Q)) : shot_frame :=
  imap (fun i rv => match at_label other i with
                    | Some q => (fst rv, Some q)
                    | None => rv
                    end) df.

(** [df["xg_model"] = df["xg_model"].fillna(0.0)] *)
Definition fillna_0 (df : shot_frame) : list (shot_row * Q) :=
  map (fun rv => (fst rv, default 0%Q (snd rv))) df.

(** The frame [main] writes back as fact_shots; [None] when no shot has a
    location, where scikit-learn refuses the empty feature frame. *)
Definition main (df : shot_frame) : option (list (shot_row * Q)) :=
  let valid := df_valid df in
  match valid with
  | [] => None
  | _ => Some (fillna_0 (update (set_penalties df) valid))
  end.

(** *** What [main] writes, row by row *)

Definition predicted (r : shot_row) : option Q :=
  match location r with
  | Some (x, y) => Some (predict_proba (build_features r x y))
  | None => None
  end.

Definition valid_from (k : nat) (df : shot_frame) : list (nat * Q) :=
  omap (fun ir =>
          match location (fst (snd ir)) with
          | Some (x, y) =>
              Some (fst ir, predict_proba (build_features (fst (snd ir)) x y))
          | None => None
          end)
       (imap (fun i r => ((k + i)%nat, r)) df).

Lemma valid_from_cons (k : nat) (rv : shot_row * option Q) (df : shot_frame) :
  valid_from k (rv :: df)
  = match predicted (fst rv) with
    | Some q => (k, q) :: valid_from (S k) df
    | None => valid_from (S k) df
    end.
Proof.
  unfold valid_from, predicted. simpl. rewrite Nat.add_0_r.
  assert (Hext : imap ((fun i r => ((k + i)%nat, r)) ∘ S) df
                 = imap (fun i (r : shot_row * option Q) => ((S k + i)%nat, r)) df).
  { apply imap_ext. intros i x _. simpl. f_equal. lia. }
  rewrite Hext.
  destruct (location (fst rv)) as [[x y]|]; reflexivity.
Qed.

Lemma at_label_below (k i : nat) (df : shot_frame) :
  (i < k)%nat -> at_label (valid_from k df) i = None.
Proof.
  revert k. induction df as [|rv df IH]; intros k Hi.
  - reflexivity.
  - rewrite valid_from_cons. destruct (predicted (fst rv)); simpl.
    + destruct (Nat.eqb_spec k i); [lia|]. apply IH. lia.
    + apply IH. lia.
Qed.

Lemma at_label_valid (k i : nat) (df : shot_frame) (r : shot_row) (prior : option Q) :
  df !! i = Some (r, prior) ->
  at_label (valid_from k df) (k + i) = predicted r.
Proof.
  revert k i. induction df as [|rv df IH]; intros k i Hi.
  - inversion Hi.
  - rewrite valid_from_cons. destruct i as [|i]; simpl in Hi.
    + inversion Hi; subst. simpl. rewrite Nat.add_0_r.
      destruct (predicted r); simpl.
      * rewrite Nat.eqb_refl. reflexivity.
      * apply at_label_below. lia.
    + replace (k + S i)%nat with (S k + i)%nat by lia.
      destruct (predicted (fst rv)); simpl.
      * match goal with
        | |- context [Nat.eqb ?a ?b] => destruct (Nat.eqb_spec a b); [lia|]
        end.
        exact (IH (S k) i Hi).
      * exact (IH (S k) i Hi).
Qed.

(** The value written for row [i]: the model's output when the shot has a
    location, whatever its type; otherwise 0.76 for a penalty, and the
    value the table held, or 0.0, for the rest. *)
Lemma main_row (df : shot_frame) (out : list (shot_row * Q)) (i : nat)
    (r : shot_row) (prior : option Q) :
  main df = Some out ->
  df !! i = Some (r, prior) ->
  out !! i
  = Some (r, match predicted r with
             | Some q => q
             | None => if str_eq (s_shot_type r) "Penalty" then (76 # 100)%Q
                       else default 0%Q prior
             end).
Proof.
  intros Hmain Hi. unfold main in Hmain.
  assert (Hout : out = fillna_0 (update (set_penalties df) (df_valid df))).
  { destruct (df_valid df); [discriminate | congruence]. }
  subst out. unfold fillna_0, update, set_penalties.
  unfold shot_frame in *.
  rewrite list_lookup_fmap, list_lookup_imap, list_lookup_fmap, Hi. simpl.
  change (df_valid df) with (valid_from 0 df).
  pose proof (at_label_valid 0 i df r prior Hi) as Hlab.
  simpl in Hlab. rewrite Hlab.
  destruct (predicted r) as [q|].
  - destruct (str_eq (s_shot_type r) "Penalty"); reflexivity.
  - destruct (str_eq (s_shot_type r) "Penalty"); reflexivity.
Qed.

(** A penalty with a location is in [df_valid]: [update] replaces the 0.76
    just assigned by the model's output. *)
Lemma penalty_with_location_gets_model_output (df : shot_frame)
    (out : list (shot_row * Q)) (i : nat) (r : shot_row) (prior : option Q)
    (x y : Q) :
  main df = Some out ->
  df !! i = Some (r, prior) ->
  str_eq (s_shot_type r) "Penalty" = true ->
  location r = Some (x, y) ->
  out !! i = Some (r, predict_proba (build_features r x y)).
Proof.
  intros Hmain Hi _ Hloc. rewrite (main_row df out i r prior Hmain Hi).
  unfold predicted. rewrite Hloc. reflexivity.
Qed.

End Apply.

(** A penalty taken from the spot, in a table that has no xg_model yet. *)
Definition penalty_from_the_spot : shot_row :=
  {| s_event_id := CStr "p1"; s_match_id := Some 7; s_player_id := Some 9;
     s_team_id := Some 1; s_period := Some 2; s_minute := Some 70;
     s_second := Some 12; s_location_x := Some (108 # 1);
     s_location_y := Some (40 # 1); s_xg := Some (78 # 100);
     s_outcome := CStr "Goal"; s_is_goal := true; s_body_part := CStr "Right Foot";
     s_shot_type := CStr "Penalty"; s_is_first_time := false;
     s_under_pressure := false |}.

(** A fitted model whose probability for every shot is one half. *)
Definition coin_model (f : features) : Q := 1 # 2.

(** C1 on the code: the penalty is written the model's 0.5, not 0.76. *)
Lemma penalty_xg_overwritten :
  main (fun q => q) (fun _ _ => 0%Q) coin_model [(penalty_from_the_spot, None)]
  = Some [(penalty_from_the_spot, (1 # 2)%Q)]
  /\ ~ ((1 # 2) == (76 # 100))%Q.
Proof. split; [reflexivity | discriminate]. Qed.

End XgModel.

(** ** scripts/ppda.py

    The match-level table of [main]. Its first query ([opp_passes]) is
    never read afterwards and is left out. *)

Module Ppda.

Import Sql.

Definition PRESS_ZONE_X : Q := 48.

(** [location_x > ?] with PRESS_ZONE_X: never true on NULL. *)
Definition in_zone (ev : event_row) : bool :=
  match ev_location_x ev with
  | Some x => negb (Qle_bool x PRESS_ZONE_X)
  | None => false
  end.

Definition is_pass (ev : event_row) : bool := str_eq (ev_type ev) "Pass".

(** [type IN ('Tackle', 'Interception', 'Foul Committed', 'Ball Recovery')] *)
Definition is_def_action (ev : event_row) : bool :=
  str_eq (ev_type ev) "Tackle" || str_eq (ev_type ev) "Interception"
  || str_eq (ev_type ev) "Foul Committed" || str_eq (ev_type ev) "Ball Recovery".

Definition team_key (ev : event_row) : option Z * option Z * cell :=
  (ev_match_id ev, ev_team_id ev, ev_team ev).

(** [SELECT match_id, team_id, team, COUNT( * ) FROM fact_events WHERE ...
     GROUP BY match_id, team_id, team] *)
Definition count_by_team (keep : event_row -> bool) (fact_events : list event_row)
  : list (option Z * option Z * cell * Z) :=
  map (fun g => (fst g, count (snd g)))
      (group_by team_key (List.filter keep fact_events)).

Definition passes_in_zone (fact_events : list event_row) :=
  count_by_team (fun ev => is_pass ev && in_zone ev) fact_events.

Definition def_actions (fact_events : list event_row) :=
  count_by_team (fun ev => is_def_action ev && in_zone ev) fact_events.

(** [SELECT DISTINCT match_id, team_id, team FROM fact_events
     WHERE team IS NOT NULL] *)
Definition match_teams (fact_events : list event_row)
  : list (option Z * option Z * cell) :=
  distinct (map team_key (List.filter (fun ev => negb (isna (ev_team ev))) fact_events)).

(** [left.merge(right, on=...)]: an inner join; pandas matches a missing
    key with a missing key. *)
Definition merge {A B K : Type} `{EqDecision K} (kl : A -> K) (kr : B -> K)
    (l : list A) (r : list B) : list (A * B) :=
  flat_map (fun a => map (fun b => (a, b))
                         (List.filter (fun b => bool_decide (kl a = kr b)) r)) l.

(** [left.merge(right, on=..., how="left")] *)
Definition merge_left {A B K : Type} `{EqDecision K} (kl : A -> K) (kr : B -> K)
    (l : list A) (r : list B) : list (A * option B) :=
  left_join (fun a b => bool_decide (kl a = kr b)) l r.

(** [pairs["team_id"] != pairs["opp_team_id"]]: true on a missing value. *)
Definition ne (a b : option Z) : bool :=
  match a, b with
  | Some x, Some y => negb (Z.eqb x y)
  | _, _ => true
  end.

(** [.round(2)]: to the nearest hundredth, halves to the even one. *)
Definition round2 (q : Q) : Q :=
  let scaled := (q * 100)%Q in
  let low := Qfloor scaled in
  let rest := (scaled - inject_Z low)%Q in
  let nearest :=
    match Qcompare rest (1 # 2) with
    | Lt => low
    | Gt => low + 1
    | Eq => if Z.even low then low else low + 1
    end in
  (inject_Z nearest / 100)%Q.

Record ppda_row : Type := {
  pp_match_id : option Z;
  pp_team_id : option Z;
  pp_team : cell;
  pp_opp_passes_in_zone : Z;
  pp_def_actions : Z;
  pp_ppda : Q
}.

(** The columns the merges attached to a pair, before [fillna]. *)
Definition pair : Type :=
  (option Z * option Z * cell) * (option Z * option Z * cell)
  * option (option Z * option Z * cell * Z)
  * option (option Z * option Z * cell * Z).

Definition own (p : pair) : option Z * option Z * cell := fst (fst (fst p)).
Definition opponent (p : pair) : option Z * option Z * cell := snd (fst (fst p)).

Definition pairs (fact_events : list event_row) : list pair :=
  let teams := match_teams fact_events in
  let both := merge (fun t => fst (fst t)) (fun t => fst (fst t)) teams teams in
  let others :=
    List.filter (fun p => ne (snd (fst (fst p))) (snd (fst (snd p)))) both in
  let with_passes :=
    merge_left (fun p => (fst (fst (fst p)), snd (fst (snd p))))
               (fun c => (fst (fst (fst c)), snd (fst (fst c))))
               others (passes_in_zone fact_events) in
  merge_left (fun p => (fst (fst (fst (fst p))), snd (fst (fst (fst p)))))
             (fun c => (fst (fst (fst c)), snd (fst (fst c))))
             with_passes (def_actions fact_events).

(** [.fillna(0)], [.fillna(1)], the ratio and its rounding. *)
Definition ppda_of (p : pair) : ppda_row :=
  let opp_passes := default 0 (snd <$> snd (fst p)) in
  let actions := default 1 (snd <$> snd p) in
  {| pp_match_id := fst (fst (own p));
     pp_team_id := snd (fst (own p));
     pp_team := snd (own p);
     pp_opp_passes_in_zone := opp_passes;
     pp_def_actions := actions;
     pp_ppda := round2 (inject_Z opp_passes / inject_Z actions) |}.

(** The gold_ppda_match table. *)
Definition ppda_match (fact_events : list event_row) : list ppda_row :=
  map ppda_of (pairs fact_events).

Definition event_at (m t : Z) (team kind : string) (x : Q) : event_row :=
  {| ev_event_id := CNone; ev_match_id := Some m; ev_period := None;
     ev_minute := None; ev_second := None; ev_type := CStr kind;
     ev_player_id := None; ev_player := CNone; ev_team_id := Some t;
     ev_team := CStr team; ev_location_x := Some x; ev_location_y := None |}.

(** Team 1 passes three times in the zone; team 2 makes no defensive
    action there, team 1 makes two while team 2 passes once. *)
Definition pressing_events : list event_row :=
  [event_at 7 1 "Ecuador" "Pass" 70; event_at 7 1 "Ecuador" "Pass" 80;
   event_at 7 1 "Ecuador" "Pass" 90; event_at 7 2 "Qatar" "Pass" 60;
   event_at 7 1 "Ecuador" "Tackle" 75; event_at 7 1 "Ecuador" "Interception" 50;
   event_at 7 2 "Qatar" "Tackle" 30].

Example ppda_of_pressing_events :
  map (fun r => (pp_team_id r, pp_opp_passes_in_zone r, pp_def_actions r, pp_ppda r))
      (ppda_match pressing_events)
  = [(Some 1, 1, 2, (50 # 100)%Q); (Some 2, 3, 1, (300 # 100)%Q)].
Proof. vm_compute. reflexivity. Qed.

(** *** Properties of the PPDA table *)

Lemma round2_nonneg (q : Q) : (0 <= q)%Q -> (0 <= round2 q)%Q.
Proof.
  intros Hq. unfold round2.
  assert (Hs : (0 <= q * 100)%Q).
  { apply Qmult_le_0_compat; [exact Hq | discriminate]. }
  assert (Hlow : 0 <= Qfloor (q * 100)).
  { change 0 with (Qfloor 0). apply Qfloor_resp_le. exact Hs. }
  set (low := Qfloor (q * 100)) in *.
  assert (Hn : 0 <= match Qcompare (q * 100 - inject_Z low) (1 # 2) with
                    | Lt => low
                    | Gt => low + 1
                    | Eq => if Z.even low then low else low + 1
                    end).
  { destruct (Qcompare _ _); [destruct (Z.even low)| |]; lia. }
  apply Qle_shift_div_l; [reflexivity|].
  rewrite Qmult_0_l. change 0%Q with (inject_Z 0). rewrite <- Zle_Qle. exact Hn.
Qed.

Lemma count_by_team_positive (keep : event_row -> bool)
    (fact_events : list event_row) (c : option Z * option Z * cell * Z) :
  c ∈ count_by_team keep fact_events ->
  1 <= snd c /\
  exists ev, ev ∈ fact_events /\ keep ev = true /\ team_key ev = fst c.
Proof.
  unfold count_by_team. intros H.
  apply list_elem_of_fmap in H as [g [-> Hg]]. simpl.
  apply elem_of_group_by in Hg as [Hrows [ev Hev]].
  split.
  - unfold count. destruct (snd g); [inversion Hev | simpl; lia].
  - rewrite Hrows in Hev.
    apply list_elem_of_In, List.filter_In in Hev as [Hev Hkey].
    apply List.filter_In in Hev as [Hev Hkeep].
    exists ev. split; [apply list_elem_of_In, Hev|]. split; [exact Hkeep|].
    apply bool_decide_eq_true_1 in Hkey. exact Hkey.
Qed.

(** C9. In every row of the PPDA table the denominator is at least 1 (it
    is exactly 1 when the team has no defensive action recorded in the
    zone for that match), the numerator is a count, and the PPDA value,
    their rounded ratio, is non-negative: no division by zero occurs. *)
Theorem ppda_floor_nonneg (fact_events : list event_row) (r : ppda_row) :
  r ∈ ppda_match fact_events ->
  1 <= pp_def_actions r /\
  0 <= pp_opp_passes_in_zone r /\
  pp_ppda r
    = round2 (inject_Z (pp_opp_passes_in_zone r) / inject_Z (pp_def_actions r)) /\
  (0 <= pp_ppda r)%Q /\
  ((forall ev, ev ∈ fact_events -> is_def_action ev && in_zone ev = true ->
      ~ (ev_match_id ev = pp_match_id r /\ ev_team_id ev = pp_team_id r)) ->
   pp_def_actions r = 1).
Proof.
  unfold ppda_match. intros H.
  apply list_elem_of_fmap in H as [p [-> Hp]].
  destruct p as [[[own_ opp] passes] actions].
  assert (Hact : 1 <= default 1 (snd <$> actions) /\
                 ((forall ev, ev ∈ fact_events ->
                     is_def_action ev && in_zone ev = true ->
                     ~ (ev_match_id ev = fst (fst own_) /\
                        ev_team_id ev = snd (fst own_))) ->
                  default 1 (snd <$> actions) = 1)).
  { destruct actions as [c|]; simpl; [|split; [lia | reflexivity]].
    unfold pairs, merge_left in Hp.
    apply elem_of_left_join_some in Hp as [Hc Hon].
    apply bool_decide_eq_true_1 in Hon. simpl in Hon.
    apply count_by_team_positive in Hc as [Hpos [ev [Hev [Hkeep Hkey]]]].
    split; [exact Hpos|].
    intros Hnone. exfalso. apply (Hnone ev Hev Hkeep).
    unfold team_key in Hkey. rewrite <- Hkey in Hon. simpl in Hon.
    inversion Hon. split; reflexivity. }
  assert (Hpass : 0 <= default 0 (snd <$> passes)).
  { destruct passes as [c|]; simpl; [|lia].
    unfold pairs, merge_left in Hp.
    apply elem_of_left_join, elem_of_left_join_some in Hp as [Hc _].
    apply count_by_team_positive in Hc as [Hpos _]. lia. }
  destruct Hact as [Hone Hfloor].
  unfold ppda_of, own. simpl.
  split; [exact Hone|]. split; [exact Hpass|]. split; [reflexivity|].
  split; [|exact Hfloor].
  apply round2_nonneg. apply Qle_shift_div_l.
  - change 0%Q with (inject_Z 0). rewrite <- Zlt_Qlt. lia.
  - rewrite Qmult_0_l. change 0%Q with (inject_Z 0). rewrite <- Zle_Qle.
    exact Hpass.
Qed.

Lemma ppda_floor_nonneg_witness :
  exists r,
    r ∈ ppda_match pressing_events /\
    pp_team_id r = Some 2 /\
    pp_def_actions r = 1 /\
    (0 <= pp_ppda r)%Q.
Proof.
  assert (Hin : ppda_of ((Some 7, Some 2, CStr "Qatar"),
                         (Some 7, Some 1, CStr "Ecuador"),
                         Some (Some 7, Some 1, CStr "Ecuador", 3), None)
                ∈ ppda_match pressing_events).
  { vm_compute. right. left. }
  eexists. split; [exact Hin|]. split; [reflexivity|].
  destruct (ppda_floor_nonneg pressing_events _ Hin) as (_ & _ & _ & Hpos & Hfloor).
  split; [|exact Hpos].
  apply Hfloor. intros ev Hev Hdef [_ Ht]. unfold pressing_events in Hev.
  repeat (apply elem_of_cons in Hev as [-> | Hev]);
    try discriminate Hdef; try discriminate Ht.
  inversion Hev.
Defined.

End Ppda.

(** ** scripts/xt_model.py *)

Module XtModel.

Definition GRID_X : nat := 16.
Definition GRID_Y : nat := 12.
Definition PITCH_X : Q := 120.
Definition PITCH_Y : Q := 80.
Definition ITERS : nat := 10.

(** The number of zones. An array of shape (GRID_Y, GRID_X) is the list of
    its GRID_Y * GRID_X values row by row, which is also what [flatten] and
    [reshape(GRID_Y, GRID_X)] go through: entry [row, col] is at
    [zone_index col row]. *)
Definition ZONES : nat := GRID_Y * GRID_X.

(** [.clip(lo, hi)] *)
Definition clip (q lo hi : Q) : Q :=
  if Qle_bool q lo then lo else if Qle_bool hi q then hi else q.

(** [(v / pitch * grid).clip(0, grid - 1).astype(int)] *)
Definition grid_coord (v pitch : Q) (grid : nat) : nat :=
  Z.to_nat (Qfloor (clip (v / pitch * inject_Z (Z.of_nat grid)) 0
                         (inject_Z (Z.of_nat grid - 1)))).

Definition to_grid (x y : Q) : nat * nat :=
  (grid_coord x PITCH_X GRID_X, grid_coord y PITCH_Y GRID_Y).

Definition zone_index (col row : nat) : nat := row * GRID_X + col.

(** The zone of a location. *)
Definition zone (x y : Q) : nat :=
  let '(col, row) := to_grid x y in zone_index col row.

(** The rows [load_data] hands over, with the columns [build_xt_grid]
    reads; every location is a number. *)
Record pass : Type := {
  pa_location_x : Q;
  pa_location_y : Q;
  pa_end_location_x : Q;
  pa_end_location_y : Q;
  pa_is_completed : bool
}.

Record carry : Type := {
  ca_location_x : Q;
  ca_location_y : Q;
  ca_end_location_x : Q;
  ca_end_location_y : Q
}.

Record shot : Type := {
  sh_location_x : Q;
  sh_location_y : Q;
  sh_is_goal : bool
}.

(** A row of [all_moves]. *)
Record move : Type := {
  location_x : Q;
  location_y : Q;
  end_location_x : Q;
  end_location_y : Q
}.

(** [np.zeros(n)] and [np.zeros((n, m))] *)
Definition zeros (n : nat) : list Q := replicate n 0%Q.
Definition zeros2 (n m : nat) : list (list Q) := replicate n (zeros m).

(** [np.add.at(a, idx, 1)]: one increment per index, repeated indices
    included. *)
Definition add_at (a : list Q) (idx : list nat) : list Q :=
  fold_left (fun a i => alter (fun c => (c + 1)%Q) i a) idx a.

(** [np.add.at(T, (rows, cols), 1)] *)
Definition add_at2 (T : list (list Q)) (idx : list (nat * nat)) : list (list Q) :=
  fold_left (fun T ij => alter (alter (fun c => (c + 1)%Q) (snd ij)) (fst ij) T)
            idx T.

Definition sumq (l : list Q) : Q := fold_right Qplus 0%Q l.

(** [row @ v] *)
Definition dot (row v : list Q) : Q := sumq (zip_with Qmult row v).

(** [T @ v] *)
Definition matvec (T : list (list Q)) (v : list Q) : list Q :=
  map (fun row => dot row v) T.

Definition completed (passes : list pass) : list pass :=
  List.filter pa_is_completed passes.

Definition all_moves (passes : list pass) (carries : list carry) : list move :=
  map (fun p => {| location_x := pa_location_x p; location_y := pa_location_y p;
                   end_location_x := pa_end_location_x p;
                   end_location_y := pa_end_location_y p |}) (completed passes)
  ++ map (fun c => {| location_x := ca_location_x c; location_y := ca_location_y c;
                      end_location_x := ca_end_location_x c;
                      end_location_y := ca_end_location_y c |}) carries.

Definition start_zone (m : move) : nat := zone (location_x m) (location_y m).
Definition end_zone (m : move) : nat := zone (end_location_x m) (end_location_y m).

Section Grid.

Variables (passes : list pass) (carries : list carry) (shots : list shot).

Definition shot_counts : list Q :=
  add_at (zeros ZONES)
         (map (fun s => zone (sh_location_x s) (sh_location_y s)) shots).

Definition move_counts : list Q :=
  add_at (add_at (zeros ZONES)
                 (map (fun p => zone (pa_location_x p) (pa_location_y p))
                      (completed passes)))
         (map (fun c => zone (ca_location_x c) (ca_location_y c)) carries).

Definition total_counts : list Q :=
  map (fun c => (c + (1 # 1000000))%Q) (zip_with Qplus shot_counts move_counts).

Definition p_shot : list Q := zip_with Qdiv shot_counts total_counts.
Definition p_move : list Q := zip_with Qdiv move_counts total_counts.

Definition goal_counts : list Q :=
  add_at (zeros ZONES)
         (map (fun s => zone (sh_location_x s) (sh_location_y s))
              (List.filter sh_is_goal shots)).

Definition p_goal_given_shot : list Q :=
  zip_with Qdiv goal_counts (map (fun c => (c + (1 # 1000000))%Q) shot_counts).

(** The transition counts, one row per start zone. *)
Definition transition_counts : list (list Q) :=
  add_at2 (zeros2 ZONES ZONES)
          (map (fun m => (start_zone m, end_zone m)) (all_moves passes carries)).

(** [row_sums[row_sums == 0] = 1] *)
Definition row_sums : list Q :=
  map (fun s => if Qeq_bool s 0 then 1%Q else s) (map sumq transition_counts).

(** [T = T / row_sums] *)
Definition T : list (list Q) :=
  zip_with (fun row s => map (fun c => (c / s)%Q) row) transition_counts row_sums.

(** One round of the loop: [xT_new]. *)
Definition step (xT : list Q) : list Q :=
  zip_with Qplus (zip_with Qmult p_shot p_goal_given_shot)
                 (zip_with Qmult p_move (matvec T xT)).

(** [for i in range(ITERS): ... xT = xT_new], from [np.zeros]. *)
Definition build_xt_grid : list Q * list (list Q) :=
  (fold_left (fun xT _ => step xT) (seq 0 ITERS) (zeros ZONES), T).

(** The grid after [t] rounds. *)
Definition xt_after (t : nat) : list Q := Nat.iter t step (zeros ZONES).

End Grid.

Example zone_of_penalty_spot : zone 108 40 = (6 * 16 + 14)%nat.
Proof. vm_compute. reflexivity. Qed.

Example zone_is_clipped : zone 120 80 = (11 * 16 + 15)%nat /\ zone (-3) 0 = 0%nat.
Proof. vm_compute. split; reflexivity. Qed.

Example add_at_repeats :
  map Qred (add_at (zeros 3) [2; 0; 2]%nat) = [1; 0; 2]%Q.
Proof. vm_compute. reflexivity. Qed.

(** *** Zones are in range *)

Lemma clip_bounds (q lo hi : Q) :
  (lo <= hi)%Q -> (lo <= clip q lo hi)%Q /\ (clip q lo hi <= hi)%Q.
Proof.
  intros Hlh. unfold clip.
  destruct (Qle_bool q lo) eqn:E1.
  - split; [apply Qle_refl | exact Hlh].
  - destruct (Qle_bool hi q) eqn:E2.
    + split; [exact Hlh | apply Qle_refl].
    + split.
      * apply Qlt_le_weak, Qnot_le_lt. intros H.
        apply Qle_bool_iff in H. congruence.
      * apply Qlt_le_weak, Qnot_le_lt. intros H.
        apply Qle_bool_iff in H. congruence.
Qed.

Lemma grid_coord_lt (v pitch : Q) (grid : nat) :
  (0 < grid)%nat -> (grid_coord v pitch grid < grid)%nat.
Proof.
  intros Hg. unfold grid_coord.
  set (hi := Z.of_nat grid - 1).
  assert (Hhi : (0 <= inject_Z hi)%Q).
  { change 0%Q with (inject_Z 0). rewrite <- Zle_Qle. subst hi. lia. }
  destruct (clip_bounds (v / pitch * inject_Z (Z.of_nat grid)) 0 (inject_Z hi) Hhi)
    as [Hlo Hup].
  apply Qfloor_resp_le in Hlo, Hup.
  rewrite Qfloor_Z in Hup. change (Qfloor 0) with 0 in Hlo.
  subst hi. lia.
Qed.

Lemma zone_lt (x y : Q) : (zone x y < ZONES)%nat.
Proof.
  unfold zone, to_grid, zone_index, ZONES.
  pose proof (grid_coord_lt x PITCH_X GRID_X) as Hc.
  pose proof (grid_coord_lt y PITCH_Y GRID_Y) as Hr.
  unfold GRID_X, GRID_Y in *. lia.
Qed.

(** *** Counting with [np.add.at] *)

Lemma length_add_at (a : list Q) (idx : list nat) :
  length (add_at a idx) = length a.
Proof.
  unfold add_at. revert a. induction idx as [|i idx IH]; intros a; simpl.
  - reflexivity.
  - rewrite IH. apply length_alter.
Qed.

Lemma sumq_alter_succ (row : list Q) (j : nat) :
  (j < length row)%nat ->
  (sumq (alter (fun c => c + 1) j row) == sumq row + 1)%Q.
Proof.
  revert j. induction row as [|c row IH]; intros j Hj; simpl in *; [lia|].
  destruct j as [|j]; simpl.
  - ring.
  - assert (Hj' : (j < length row)%nat) by lia.
    pose proof (IH j Hj') as H. rewrite H. ring.
Qed.

(** The number of index pairs that start at [z]. *)
Definition departures (z : nat) (idx : list (nat * nat)) : nat :=
  length (List.filter (fun ij => Nat.eqb (fst ij) z) idx).

Lemma add_at2_untouched (M : list (list Q)) (idx : list (nat * nat)) (z : nat) :
  departures z idx = 0%nat -> add_at2 M idx !! z = M !! z.
Proof.
  unfold add_at2, departures. revert M.
  induction idx as [|[i j] idx IH]; intros M Hz; simpl in *; [reflexivity|].
  destruct (Nat.eqb_spec i z) as [->|Hne]; simpl in Hz; [discriminate|].
  rewrite IH by exact Hz. apply list_lookup_alter_ne. exact Hne.
Qed.

Lemma add_at2_row_sum (n : nat) (M : list (list Q)) (idx : list (nat * nat))
    (z : nat) (row : list Q) :
  (forall ij, ij ∈ idx -> (snd ij < n)%nat) ->
  M !! z = Some row -> length row = n ->
  exists row',
    add_at2 M idx !! z = Some row' /\ length row' = n /\
    (sumq row' == sumq row + inject_Z (Z.of_nat (departures z idx)))%Q.
Proof.
  unfold add_at2, departures. revert M row.
  induction idx as [|[i j] idx IH]; intros M row Hidx Hz Hlen; simpl.
  - exists row. split; [exact Hz|]. split; [exact Hlen|].
    change (inject_Z (Z.of_nat 0)) with 0%Q. ring.
  - assert (Hj : (j < n)%nat) by (apply (Hidx (i, j)); left).
    assert (Hrest : forall ij, ij ∈ idx -> (snd ij < n)%nat).
    { intros ij Hij. apply Hidx. right. exact Hij. }
    destruct (Nat.eqb_spec i z) as [->|Hne]; simpl.
    + destruct (IH (alter (alter (fun c => (c + 1)%Q) j) z M)
                   (alter (fun c => (c + 1)%Q) j row) Hrest)
        as [row' [Hrow' [Hlen' Hsum]]].
      * rewrite list_lookup_alter_eq, Hz. reflexivity.
      * rewrite length_alter. exact Hlen.
      * exists row'. split; [exact Hrow'|]. split; [exact Hlen'|].
        assert (Hj' : (j < length row)%nat) by lia.
        pose proof (sumq_alter_succ row j Hj') as Hstep.
        rewrite Hsum, Hstep.
        rewrite Nat2Z.inj_succ, <- Z.add_1_r, inject_Z_plus.
        change (inject_Z 1) with 1%Q. ring.
    + apply (IH _ row Hrest); [|exact Hlen].
      rewrite list_lookup_alter_ne by exact Hne. exact Hz.
Qed.

(** *** The transition matrix *)

Lemma sumq_zeros (n : nat) : (sumq (zeros n) == 0)%Q.
Proof.
  induction n as [|n IH]; simpl; [reflexivity|].
  fold (zeros n). rewrite IH. ring.
Qed.

Lemma sumq_scaled (row : list Q) (s : Q) :
  (sumq (map (fun c => c / s) row) == sumq row / s)%Q.
Proof.
  induction row as [|c row IH]; simpl.
  - unfold Qdiv. ring.
  - rewrite IH. unfold Qdiv. ring.
Qed.

Section Transitions.

Variables (passes : list pass) (carries : list carry).

Let idx : list (nat * nat) :=
  map (fun m => (start_zone m, end_zone m)) (all_moves passes carries).

Lemma idx_in_range (ij : nat * nat) : ij ∈ idx -> (snd ij < ZONES)%nat.
Proof.
  intros H. apply list_elem_of_fmap in H as [m [-> _]]. apply zone_lt.
Qed.

Lemma departures_zero (z : nat) :
  (forall m, m ∈ all_moves passes carries -> start_zone m <> z) ->
  departures z idx = 0%nat.
Proof.
  intros Hnone. unfold departures.
  rewrite (Sql.filter_none _ idx); [reflexivity|].
  intros ij Hij. apply list_elem_of_fmap in Hij as [m [-> Hm]]. simpl.
  apply Nat.eqb_neq. apply Hnone. exact Hm.
Qed.

Lemma departures_positive (z : nat) (m : move) :
  m ∈ all_moves passes carries -> start_zone m = z ->
  (0 < departures z idx)%nat.
Proof.
  intros Hm Hz. unfold departures.
  assert (Hin : (start_zone m, end_zone m)
                ∈ List.filter (fun ij => Nat.eqb (fst ij) z) idx).
  { apply list_elem_of_In, List.filter_In. split.
    - apply list_elem_of_In, list_elem_of_fmap. exists m. auto.
    - simpl. apply Nat.eqb_eq. exact Hz. }
  destruct (List.filter _ idx); [inversion Hin | simpl; lia].
Qed.

(** Row [z] of the transition counts: ZONES entries whose sum is the number
    of moves that start in [z]. *)
Lemma transition_counts_row (z : nat) :
  (z < ZONES)%nat ->
  exists row,
    transition_counts passes carries !! z = Some row /\ length row = ZONES /\
    (sumq row == inject_Z (Z.of_nat (departures z idx)))%Q /\
    (departures z idx = 0%nat -> row = zeros ZONES).
Proof.
  intros Hz. unfold transition_counts. fold idx.
  assert (Hzero : zeros2 ZONES ZONES !! z = Some (zeros ZONES)).
  { apply lookup_replicate_2. exact Hz. }
  destruct (add_at2_row_sum ZONES (zeros2 ZONES ZONES) idx z (zeros ZONES)
              idx_in_range Hzero (length_replicate _ _))
    as [row [Hrow [Hlen Hsum]]].
  exists row. split; [exact Hrow|]. split; [exact Hlen|]. split.
  - rewrite Hsum, sumq_zeros. ring.
  - intros Hnone. rewrite add_at2_untouched in Hrow by exact Hnone.
    congruence.
Qed.

(** Row [z] of [T]: the counts divided by their sum, or by 1 when the sum
    is zero. *)
Lemma T_row (z : nat) :
  (z < ZONES)%nat ->
  exists counts,
    transition_counts passes carries !! z = Some counts /\
    T passes carries !! z
    = Some (map (fun c => c / (if Qeq_bool (sumq counts) 0 then 1 else sumq counts))%Q
                counts).
Proof.
  intros Hz. destruct (transition_counts_row z Hz) as [counts [Hrow _]].
  exists counts. split; [exact Hrow|].
  unfold T, row_sums. rewrite lookup_zip_with, Hrow. simpl.
  rewrite !list_lookup_fmap, Hrow. reflexivity.
Qed.

Lemma T_row_normalised (z : nat) :
  (z < ZONES)%nat ->
  exists row,
    T passes carries !! z = Some row /\ length row = ZONES /\
    ((exists m, m ∈ all_moves passes carries /\ start_zone m = z) ->
     (sumq row == 1)%Q) /\
    ((forall m, m ∈ all_moves passes carries -> start_zone m <> z) ->
     forall c, c ∈ row -> (c == 0)%Q).
Proof.
  intros Hz.
  destruct (transition_counts_row z Hz) as [counts [Hrow [Hlen [Hsum Hnone]]]].
  destruct (T_row z Hz) as [counts' [Hrow' HT]].
  assert (counts' = counts) by congruence. subst counts'.
  eexists. split; [exact HT|]. split; [rewrite length_map; exact Hlen|]. split.
  - intros [m [Hm Hstart]].
    pose proof (departures_positive z m Hm Hstart) as Hpos.
    assert (Hne : ~ (sumq counts == 0)%Q).
    { rewrite Hsum. change 0%Q with (inject_Z 0). rewrite inject_Z_injective. lia. }
    destruct (Qeq_bool (sumq counts) 0) eqn:E.
    + apply Qeq_bool_iff in E. contradiction.
    + rewrite sumq_scaled. field. exact Hne.
  - intros Hno c Hc.
    rewrite (Hnone (departures_zero z Hno)) in Hc.
    apply list_elem_of_fmap in Hc as [c0 [-> Hc0]].
    apply elem_of_replicate in Hc0 as [-> _].
    unfold Qdiv. ring.
Qed.

End Transitions.

(** *** The value iteration *)

Lemma fold_rounds {A : Type} (f : A -> A) (a n : nat) (x : A) :
  fold_left (fun y (_ : nat) => f y) (seq a n) x = Nat.iter n f x.
Proof.
  revert a x. induction n as [|n IH]; intros a x; simpl; [reflexivity|].
  rewrite IH. apply Nat.iter_swap.
Qed.

Section Iteration.

Variables (passes : list pass) (carries : list carry) (shots : list shot).

Lemma length_shot_counts : length (shot_counts shots) = ZONES.
Proof. unfold shot_counts. rewrite length_add_at. apply length_replicate. Qed.

Lemma length_move_counts : length (move_counts passes carries) = ZONES.
Proof.
  unfold move_counts. rewrite !length_add_at. apply length_replicate.
Qed.

Lemma length_goal_counts : length (goal_counts shots) = ZONES.
Proof. unfold goal_counts. rewrite length_add_at. apply length_replicate. Qed.

Lemma length_total_counts : length (total_counts passes carries shots) = ZONES.
Proof.
  unfold total_counts.
  rewrite length_map, length_zip_with, length_shot_counts, length_move_counts.
  lia.
Qed.

Lemma length_T : length (T passes carries) = ZONES.
Proof.
  unfold T, row_sums, transition_counts.
  rewrite length_zip_with, !length_map.
  assert (H : forall M idx, length (add_at2 M idx) = length M).
  { intros M idx. unfold add_at2. revert M.
    induction idx as [|ij idx IH]; intros M; simpl; [reflexivity|].
    rewrite IH. apply length_alter. }
  rewrite H. unfold zeros2. rewrite length_replicate. lia.
Qed.

(** One round, zone by zone. *)
Lemma step_zone (xT : list Q) (z : nat) :
  (z < ZONES)%nat ->
  exists ps pg pm row,
    p_shot passes carries shots !! z = Some ps /\
    p_goal_given_shot shots !! z = Some pg /\
    p_move passes carries shots !! z = Some pm /\
    T passes carries !! z = Some row /\
    step passes carries shots xT !! z = Some (ps * pg + pm * dot row xT)%Q.
Proof.
  intros Hz.
  assert (Hps : is_Some (p_shot passes carries shots !! z)).
  { apply lookup_lt_is_Some. unfold p_shot.
    rewrite length_zip_with, length_shot_counts, length_total_counts. lia. }
  assert (Hpm : is_Some (p_move passes carries shots !! z)).
  { apply lookup_lt_is_Some. unfold p_move.
    rewrite length_zip_with, length_move_counts, length_total_counts. lia. }
  assert (Hpg : is_Some (p_goal_given_shot shots !! z)).
  { apply lookup_lt_is_Some. unfold p_goal_given_shot.
    rewrite length_zip_with, length_map, length_goal_counts, length_shot_counts.
    lia. }
  assert (HT : is_Some (T passes carries !! z)).
  { apply lookup_lt_is_Some. rewrite length_T. exact Hz. }
  destruct Hps as [ps Hps], Hpm as [pm Hpm], Hpg as [pg Hpg], HT as [row HT].
  exists ps, pg, pm, row. repeat (split; [assumption|]).
  unfold step, matvec.
  rewrite !lookup_zip_with, list_lookup_fmap, Hps, Hpg, Hpm, HT. reflexivity.
Qed.

End Iteration.

(** C5. [build_xt_grid] returns the grid reached from the all-zero grid
    after exactly ITERS rounds, with no convergence test, where one round
    takes every zone z to
    p_shot(z) * p_goal_given_shot(z) + p_move(z) * (T[z] . xT);
    every row of T has ZONES entries, sums to 1 when some move starts in
    its zone, and is all zero when none does. *)
Theorem xt_value_iteration (passes : list pass) (carries : list carry)
    (shots : list shot) :
  fst (build_xt_grid passes carries shots) = xt_after passes carries shots ITERS /\
  snd (build_xt_grid passes carries shots) = T passes carries /\
  xt_after passes carries shots 0 = zeros ZONES /\
  (forall t z, (z < ZONES)%nat ->
     exists ps pg pm row,
       p_shot passes carries shots !! z = Some ps /\
       p_goal_given_shot shots !! z = Some pg /\
       p_move passes carries shots !! z = Some pm /\
       T passes carries !! z = Some row /\
       xt_after passes carries shots (S t) !! z
       = Some (ps * pg + pm * dot row (xt_after passes carries shots t))%Q) /\
  (forall z, (z < ZONES)%nat ->
     exists row,
       T passes carries !! z = Some row /\ length row = ZONES /\
       ((exists m, m ∈ all_moves passes carries /\ start_zone m = z) ->
        (sumq row == 1)%Q) /\
       ((forall m, m ∈ all_moves passes carries -> start_zone m <> z) ->
        forall c, c ∈ row -> (c == 0)%Q)).
Proof.
  split; [apply fold_rounds|]. split; [reflexivity|]. split; [reflexivity|].
  split.
  - intros t z Hz. apply step_zone. exact Hz.
  - intros z Hz. apply T_row_normalised. exact Hz.
Qed.

End XtModel.

(** ** pipeline/bronze.py: whole runs *)

Module BronzeRuns.

Import Bronze.

Local Close Scope string_scope.
Local Open Scope se_scope.

(** Every artifact of [st] is an artifact of [st']. *)
Definition grows (st st' : BronzeDir) : Prop :=
  (bz_competitions st = true -> bz_competitions st' = true) /\
  bz_matches st ⊆ bz_matches st' /\
  bz_events st ⊆ bz_events st' /\
  bz_lineups st ⊆ bz_lineups st'.

(** The artifacts of one match. *)
Definition match_done (st : BronzeDir) (mid : Z) : Prop :=
  mid ∈ bz_events st /\ mid ∈ bz_lineups st.

(** The artifacts of one competition and of the matches its file lists. *)
Definition competition_done (raw : RawDir) (st : BronzeDir) (comp : competition)
  : Prop :=
  exists mids,
    raw_matches raw !! (competition_id comp, season_id comp) = Some mids /\
    (competition_id comp, season_id comp) ∈ bz_matches st /\
    forall mid, mid ∈ mids -> match_done st mid.

(** Every artifact a run over [cfg] writes. *)
Definition all_done (raw : RawDir) (cfg : list competition) (st : BronzeDir) : Prop :=
  bz_competitions st = true /\
  forall comp, comp ∈ cfg -> enabled comp = true -> competition_done raw st comp.

(** All four sources of a competition with two matches. *)
Definition raw_complete : RawDir :=
  {| raw_competitions := true;
     raw_matches := {[ (43, 106) := [1; 2] ]};
     raw_events := {[ 1; 2 ]};
     raw_lineups := {[ 1; 2 ]} |}.

(** The same competition after the raw events and lineups were deleted. *)
Definition raw_only_matches : RawDir :=
  {| raw_competitions := false;
     raw_matches := {[ (43, 106) := [1; 2] ]};
     raw_events := ∅;
     raw_lineups := ∅ |}.

Definition bronze_complete : BronzeDir :=
  {| bz_competitions := true;
     bz_matches := {[ (43, 106) ]} ∪ ∅;
     bz_events := {[ 2 ]} ∪ ({[ 1 ]} ∪ ∅);
     bz_lineups := {[ 2 ]} ∪ ({[ 1 ]} ∪ ∅) |}.

Example run_complete :
  run raw_complete cfg_wc false empty_bronze = (bronze_complete, inr tt).
Proof. reflexivity. Qed.

(** *** Artifacts are only added *)

Lemma grows_refl (st : BronzeDir) : grows st st.
Proof. unfold grows. set_solver. Qed.

Lemma grows_trans (a b c : BronzeDir) : grows a b -> grows b c -> grows a c.
Proof. unfold grows. intros (?&?&?&?) (?&?&?&?). set_solver. Qed.

Lemma ingest_competitions_grows (raw : RawDir) (force : bool) (st : BronzeDir) :
  grows st (fst (ingest_competitions raw force st)).
Proof.
  unfold ingest_competitions.
  destruct (bz_competitions st && negb force); [apply grows_refl|].
  destruct (raw_competitions raw); [|apply grows_refl].
  unfold grows. simpl. set_solver.
Qed.

Lemma ingest_matches_grows (raw : RawDir) (cid sid : Z) (force : bool)
    (st : BronzeDir) :
  grows st (fst (ingest_matches raw cid sid force st)).
Proof.
  unfold ingest_matches.
  destruct (_ && negb force); [apply grows_refl|].
  destruct (raw_matches raw !! (cid, sid)); [|apply grows_refl].
  unfold grows. simpl. set_solver.
Qed.

Lemma ingest_events_grows (raw : RawDir) (mid : Z) (force : bool) (st : BronzeDir) :
  grows st (fst (ingest_events raw mid force st)).
Proof.
  unfold ingest_events.
  destruct (_ && negb force); [apply grows_refl|].
  destruct (bool_decide (mid ∈ raw_events raw)); [|apply grows_refl].
  unfold grows. simpl. set_solver.
Qed.

Lemma ingest_lineups_grows (raw : RawDir) (mid : Z) (force : bool) (st : BronzeDir) :
  grows st (fst (ingest_lineups raw mid force st)).
Proof.
  unfold ingest_lineups.
  destruct (_ && negb force); [apply grows_refl|].
  destruct (bool_decide (mid ∈ raw_lineups raw)); [|apply grows_refl].
  unfold grows. simpl. set_solver.
Qed.

Lemma bind_grows {A B : Type} (c : M A) (k : A -> M B) (st : BronzeDir) :
  (forall s, grows s (fst (c s))) ->
  (forall a s, grows s (fst (k a s))) ->
  grows st (fst (bind c k st)).
Proof.
  intros Hc Hk. unfold bind. specialize (Hc st).
  destruct (c st) as [s1 [e|a]]; simpl in *; [exact Hc|].
  eapply grows_trans; [exact Hc | apply Hk].
Qed.

Lemma for_each_grows {A : Type} (f : A -> M unit) (l : list A) (st : BronzeDir) :
  (forall x s, grows s (fst (f x s))) ->
  grows st (fst (for_each f l st)).
Proof.
  intros Hf. revert st. induction l as [|x l IH]; intros st; simpl.
  - apply grows_refl.
  - apply bind_grows; [apply Hf | intros _ s; apply IH].
Qed.

Lemma ingest_match_grows (raw : RawDir) (force : bool) (mid : Z) (st : BronzeDir) :
  grows st (fst (ingest_match raw force mid st)).
Proof.
  unfold ingest_match. apply bind_grows.
  - intros s. apply ingest_events_grows.
  - intros _ s. apply ingest_lineups_grows.
Qed.

Lemma ingest_competition_grows (raw : RawDir) (force : bool) (comp : competition)
    (st : BronzeDir) :
  grows st (fst (ingest_competition raw force comp st)).
Proof.
  unfold ingest_competition. apply bind_grows.
  - intros s. apply ingest_matches_grows.
  - intros _ s. apply bind_grows.
    + intros s'. unfold read_match_ids.
      destruct (raw_matches raw !! _); apply grows_refl.
    + intros ids s'. apply for_each_grows. intros x s''. apply ingest_match_grows.
Qed.

(** X1. Whatever the sources and the flag, and whether it returns or
    raises, a run never removes an artifact that existed before it. *)
Theorem run_only_adds (raw : RawDir) (cfg : list competition) (force : bool)
    (st : BronzeDir) :
  grows st (fst (run raw cfg force st)).
Proof.
  unfold run. apply bind_grows.
  - intros s. apply ingest_competitions_grows.
  - intros _ s. apply for_each_grows. intros x s'. apply ingest_competition_grows.
Qed.

(** *** What a run that returns has written *)

Lemma match_done_grows (st st' : BronzeDir) (mid : Z) :
  match_done st mid -> grows st st' -> match_done st' mid.
Proof. unfold match_done, grows. intros [? ?] (?&?&?&?). set_solver. Qed.

Lemma competition_done_grows (raw : RawDir) (st st' : BronzeDir) (comp : competition) :
  competition_done raw st comp -> grows st st' -> competition_done raw st' comp.
Proof.
  intros [mids [Hraw [Hm Hall]]] Hg. exists mids.
  split; [exact Hraw|]. split.
  - destruct Hg as (_ & Hsub & _). set_solver.
  - intros mid Hmid. eapply match_done_grows; [apply Hall, Hmid | exact Hg].
Qed.

Lemma for_each_returns {A : Type} (f : A -> M unit) (Q : A -> BronzeDir -> Prop)
    (l : list A) (st st' : BronzeDir) :
  (forall x s s', f x s = (s', inr tt) -> Q x s') ->
  (forall x s s', Q x s -> grows s s' -> Q x s') ->
  (forall x s, grows s (fst (f x s))) ->
  for_each f l st = (st', inr tt) ->
  forall x, x ∈ l -> Q x st'.
Proof.
  intros Hpost Hmono Hgrow. revert st.
  induction l as [|y l IH]; intros st Hrun x Hx; [inversion Hx|].
  simpl in Hrun. unfold bind in Hrun.
  destruct (f y st) as [s1 [e|[]]] eqn:Ey; [discriminate|].
  apply elem_of_cons in Hx as [-> | Hx].
  - apply (Hmono y s1 st'); [apply (Hpost y st s1 Ey)|].
    pose proof (for_each_grows f l s1 Hgrow) as Hg. rewrite Hrun in Hg. exact Hg.
  - apply (IH s1 Hrun x Hx).
Qed.

Lemma ingest_match_returns (raw : RawDir) (force : bool) (mid : Z)
    (st st' : BronzeDir) :
  ingest_match raw force mid st = (st', inr tt) -> match_done st' mid.
Proof.
  unfold ingest_match, bind. intros H.
  destruct (ingest_events raw mid force st) as [s1 [e|[]]] eqn:Eev; [discriminate|].
  assert (Hev : mid ∈ bz_events s1).
  { unfold ingest_events in Eev.
    destruct (bool_decide (mid ∈ bz_events st)) eqn:Ein;
      destruct force; simpl in Eev;
      try (destruct (bool_decide (mid ∈ raw_events raw)); [|discriminate]);
      inversion Eev; subst; simpl;
      try (apply bool_decide_eq_true_1 in Ein); set_solver. }
  pose proof (ingest_lineups_grows raw mid force s1) as Hg. rewrite H in Hg.
  split; [destruct Hg as (_ & _ & Hsub & _); set_solver|].
  unfold ingest_lineups in H.
  destruct (bool_decide (mid ∈ bz_lineups s1)) eqn:Ein;
    destruct force; simpl in H;
    try (destruct (bool_decide (mid ∈ raw_lineups raw)); [|discriminate]);
    inversion H; subst; simpl;
    try (apply bool_decide_eq_true_1 in Ein); set_solver.
Qed.

Lemma ingest_competition_returns (raw : RawDir) (force : bool) (comp : competition)
    (st st' : BronzeDir) :
  ingest_competition raw force comp st = (st', inr tt) ->
  competition_done raw st' comp.
Proof.
  unfold ingest_competition, bind. intros H.
  destruct (ingest_matches raw (competition_id comp) (season_id comp) force st)
    as [s1 [e|[]]] eqn:Em; [discriminate|].
  assert (Hm : (competition_id comp, season_id comp) ∈ bz_matches s1).
  { unfold ingest_matches in Em.
    destruct (bool_decide (_ ∈ bz_matches st)) eqn:Ein;
      destruct force; simpl in Em;
      try (destruct (raw_matches raw !! _); [|discriminate]);
      inversion Em; subst; simpl;
      try (apply bool_decide_eq_true_1 in Ein); set_solver. }
  unfold read_match_ids in H.
  destruct (raw_matches raw !! (competition_id comp, season_id comp))
    as [mids|] eqn:Eraw; [|discriminate].
  simpl in H. exists mids. split; [exact Eraw|].
  pose proof (for_each_grows (ingest_match raw force) mids s1
                (fun x s => ingest_match_grows raw force x s)) as Hg.
  rewrite H in Hg. split.
  - destruct Hg as (_ & Hsub & _). set_solver.
  - apply (for_each_returns (ingest_match raw force) (fun mid s => match_done s mid)
             mids s1 st').
    + intros x s s'. apply ingest_match_returns.
    + intros x s s'. apply match_done_grows.
    + intros x s. apply ingest_match_grows.
    + exact H.
Qed.

Lemma all_done_after_run (raw : RawDir) (cfg : list competition)
    (force : bool) (st st' : BronzeDir) :
  run raw cfg force st = (st', inr tt) -> all_done raw cfg st'.
Proof.
  unfold run, bind. intros H.
  destruct (ingest_competitions raw force st) as [s1 [e|[]]] eqn:Ec; [discriminate|].
  pose proof (for_each_grows (ingest_competition raw force)
                (List.filter enabled cfg) s1
                (fun x s => ingest_competition_grows raw force x s)) as Hg.
  rewrite H in Hg. split.
  - destruct Hg as (Hc & _). apply Hc.
    unfold ingest_competitions in Ec.
    destruct (bz_competitions st) eqn:Eb; destruct force; simpl in Ec;
      try (destruct (raw_competitions raw); [|discriminate]);
      inversion Ec; subst; simpl; congruence.
  - intros comp Hin Hen.
    apply (for_each_returns (ingest_competition raw force)
             (fun c s => competition_done raw s c)
             (List.filter enabled cfg) s1 st').
    + intros x s s'. apply ingest_competition_returns.
    + intros x s s'. apply competition_done_grows.
    + intros x s. apply ingest_competition_grows.
    + exact H.
    + apply list_elem_of_In, List.filter_In.
      split; [apply list_elem_of_In, Hin | exact Hen].
Qed.

(** X2. A run that returns without raising has left the competitions
    artifact, the matches artifact of every enabled competition, and the
    events and lineups artifacts of every match those files list. *)
Theorem run_returns_all_done (raw : RawDir) (cfg : list competition)
    (force : bool) (st st' : BronzeDir) :
  run raw cfg force st = (st', inr tt) -> all_done raw cfg st'.
Proof. apply all_done_after_run. Qed.

Lemma run_returns_all_done_witness :
  all_done raw_complete cfg_wc bronze_complete.
Proof.
  exact (run_returns_all_done raw_complete cfg_wc false empty_bronze
           bronze_complete eq_refl).
Defined.

(** *** A second run *)

Lemma for_each_noop {A : Type} (f : A -> M unit) (l : list A) (st : BronzeDir) :
  (forall x, x ∈ l -> f x st = (st, inr tt)) ->
  for_each f l st = (st, inr tt).
Proof.
  induction l as [|x l IH]; intros H; simpl; [reflexivity|].
  unfold bind. rewrite (H x) by left.
  apply IH. intros y Hy. apply H. right. exact Hy.
Qed.

Lemma ingest_match_noop (raw : RawDir) (mid : Z) (st : BronzeDir) :
  match_done st mid -> ingest_match raw false mid st = (st, inr tt).
Proof.
  intros [Hev Hl]. unfold ingest_match, bind, ingest_events, ingest_lineups.
  rewrite (bool_decide_eq_true_2 _ Hev). simpl.
  rewrite (bool_decide_eq_true_2 _ Hl). reflexivity.
Qed.

Lemma all_done_noop (raw raw' : RawDir) (cfg : list competition) (st : BronzeDir) :
  raw_matches raw' = raw_matches raw ->
  all_done raw cfg st ->
  run raw' cfg false st = (st, inr tt).
Proof.
  intros Hsame [Hc Hall]. unfold run, bind, ingest_competitions.
  rewrite Hc. simpl. apply for_each_noop.
  intros comp Hin. apply list_elem_of_In, List.filter_In in Hin as [Hin Hen].
  destruct (Hall comp (proj2 (list_elem_of_In _ _) Hin) Hen) as [mids [Hraw [Hm Hms]]].
  unfold ingest_competition, bind, ingest_matches.
  rewrite (bool_decide_eq_true_2 _ Hm). simpl.
  unfold read_match_ids. rewrite Hsame, Hraw. simpl.
  apply for_each_noop. intros mid Hmid. apply ingest_match_noop, Hms, Hmid.
Qed.

(** X3. After a run that returned, a run without force returns again and
    writes nothing, and it reads no competitions, events or lineups
    source: it returns even when those raw files are gone, as long as the
    matches files still list the same matches. *)
Theorem second_run_is_noop (raw raw' : RawDir) (cfg : list competition)
    (force : bool) (st st' : BronzeDir) :
  run raw cfg force st = (st', inr tt) ->
  raw_matches raw' = raw_matches raw ->
  run raw' cfg false st' = (st', inr tt).
Proof.
  intros Hrun Hsame. apply (all_done_noop raw raw' cfg st' Hsame).
  apply (all_done_after_run raw cfg force st st' Hrun).
Qed.

Lemma second_run_is_noop_witness :
  run raw_only_matches cfg_wc false bronze_complete = (bronze_complete, inr tt).
Proof.
  exact (second_run_is_noop raw_complete raw_only_matches cfg_wc false
           empty_bronze bronze_complete eq_refl eq_refl).
Defined.

End BronzeRuns.

(** ** pipeline/bronze.py: the rows of a lineups artifact *)

Module Lineups.

(** One entry of a player's "positions" list; a key the JSON lacks reads
    as None. *)
Record interval : Type := {
  position_id : cell;
  position : cell;
  from_time : cell;
  to_time : cell;
  from_period : cell;
  to_period : cell;
  start_reason : cell;
  end_reason : cell
}.

(** One entry of a team's "lineup" list. *)
Record player : Type := {
  player_id : cell;
  player_name : cell;
  jersey_number : cell;
  country : cell;               (* player.get("country", {}).get("name") *)
  positions : list interval     (* player.get("positions", []) *)
}.

(** One element of the lineups document. *)
Record team : Type := {
  team_id : cell;
  team_name : cell;
  lineup : list player          (* team.get("lineup", []) *)
}.

(** One dict appended to [rows]: the player's columns, and the eight
    interval columns when the row stands for a position interval. *)
Record row : Type := {
  r_match_id : Z;
  r_team_id : cell;
  r_team_name : cell;
  r_player_id : cell;
  r_player_name : cell;
  r_jersey_number : cell;
  r_country : cell;
  r_interval : option interval
}.

Definition base_row (match_id : Z) (t : team) (p : player) (i : option interval)
  : row :=
  {| r_match_id := match_id;
     r_team_id := team_id t;
     r_team_name := team_name t;
     r_player_id := player_id p;
     r_player_name := player_name p;
     r_jersey_number := jersey_number p;
     r_country := country p;
     r_interval := i |}.

(** The body of the inner loop of [ingest_lineups]. *)
Definition player_rows (match_id : Z) (t : team) (p : player) : list row :=
  map (fun pos => base_row match_id t p (Some pos)) (positions p)
  ++ match positions p with
     | [] => [base_row match_id t p None]
     | _ :: _ => []
     end.

(** The [rows] of [ingest_lineups]. *)
Definition lineup_rows (match_id : Z) (data : list team) : list row :=
  flat_map (fun t => flat_map (player_rows match_id t) (lineup t)) data.

(** The rows one player contributes. *)
Definition rows_of_player (p : player) : nat := Nat.max 1 (length (positions p)).

Definition keeper : player :=
  {| player_id := CNum 1; player_name := CStr "A"; jersey_number := CNum 1;
     country := CStr "Ecuador";
     positions :=
       [ {| position_id := CNum 1; position := CStr "Goalkeeper";
            from_time := CStr "00:00"; to_time := CNone; from_period := CNum 1;
            to_period := CNone; start_reason := CStr "Starting XI";
            end_reason := CStr "Final Whistle" |} ] |}.

Definition unused_substitute : player :=
  {| player_id := CNum 23; player_name := CStr "B"; jersey_number := CNum 23;
     country := CStr "Ecuador"; positions := [] |}.

Definition ecuador : team :=
  {| team_id := CNum 1; team_name := CStr "Ecuador";
     lineup := [keeper; unused_substitute] |}.

Example rows_of_ecuador :
  map (fun r => (r_player_id r, position <$> r_interval r)) (lineup_rows 7 [ecuador])
  = [(CNum 1, Some (CStr "Goalkeeper")); (CNum 23, None)].
Proof. reflexivity. Qed.

(** *** No player is lost *)

Lemma length_player_rows (match_id : Z) (t : team) (p : player) :
  length (player_rows match_id t p) = rows_of_player p.
Proof.
  unfold player_rows, rows_of_player.
  rewrite length_app, length_map.
  destruct (positions p); simpl; lia.
Qed.

Lemma elem_of_player_rows (match_id : Z) (t : team) (p : player) (r : row) :
  r ∈ player_rows match_id t p <->
  exists i, r = base_row match_id t p i /\
            match i with
            | Some pos => pos ∈ positions p
            | None => positions p = []
            end.
Proof.
  unfold player_rows. rewrite elem_of_app, list_elem_of_fmap. split.
  - intros [[pos [-> Hpos]] | H].
    + exists (Some pos). auto.
    + destruct (positions p); [|inversion H].
      apply list_elem_of_singleton in H. exists None. auto.
  - intros [[pos|] [-> Hi]].
    + left. exists pos. auto.
    + right. rewrite Hi. left.
Qed.

(** The rows of the artifact are the rows of its players. *)
Lemma lineup_rows_keep_rows (match_id : Z) (data : list team) :
  (forall t p i, t ∈ data -> p ∈ lineup t ->
     match i with
     | Some pos => pos ∈ positions p
     | None => positions p = []
     end ->
     base_row match_id t p i ∈ lineup_rows match_id data) /\
  (forall r, r ∈ lineup_rows match_id data ->
     exists t p i, t ∈ data /\ p ∈ lineup t /\ r = base_row match_id t p i /\
       match i with
       | Some pos => pos ∈ positions p
       | None => positions p = []
       end).
Proof.
  unfold lineup_rows. split.
  - intros t p i Ht Hp Hi.
    apply list_elem_of_In, List.in_flat_map. exists t.
    split; [apply list_elem_of_In, Ht|].
    apply List.in_flat_map. exists p. split; [apply list_elem_of_In, Hp|].
    apply list_elem_of_In, elem_of_player_rows. exists i. auto.
  - intros r Hr.
    apply list_elem_of_In, List.in_flat_map in Hr as [t [Ht Hr]].
    apply List.in_flat_map in Hr as [p [Hp Hr]].
    apply list_elem_of_In, elem_of_player_rows in Hr as [i [-> Hi]].
    exists t, p, i. split; [apply list_elem_of_In, Ht|].
    split; [apply list_elem_of_In, Hp|]. auto.
Qed.

(** X5. The lineups artifact has one row per position interval of every
    player and exactly one row, without interval columns, for a player who
    has no interval: every player of the document is in the artifact, and
    every row is a player's. *)
Theorem lineup_rows_keep_every_player (match_id : Z) (data : list team) :
  (forall t p, t ∈ data -> p ∈ lineup t ->
     exists r, r ∈ lineup_rows match_id data /\
               r_team_id r = team_id t /\ r_player_id r = player_id p) /\
  (forall r, r ∈ lineup_rows match_id data ->
     exists t p, t ∈ data /\ p ∈ lineup t /\
       r = base_row match_id t p (r_interval r) /\
       match r_interval r with
       | Some pos => pos ∈ positions p
       | None => positions p = []
       end) /\
  length (lineup_rows match_id data)
  = list_sum (map (fun t => list_sum (map rows_of_player (lineup t))) data).
Proof.
  unfold lineup_rows. split; [|split].
  - intros t p Ht Hp.
    assert (Hr : exists r, r ∈ player_rows match_id t p /\
                           r_team_id r = team_id t /\ r_player_id r = player_id p).
    { destruct (positions p) as [|pos ps] eqn:E.
      - exists (base_row match_id t p None). split; [|split; reflexivity].
        apply elem_of_player_rows. exists None. auto.
      - exists (base_row match_id t p (Some pos)). split; [|split; reflexivity].
        apply elem_of_player_rows. exists (Some pos). split; [reflexivity|].
        rewrite E. left. }
    destruct Hr as [r [Hr Hid]]. exists r. split; [|exact Hid].
    apply list_elem_of_In, List.in_flat_map. exists t.
    split; [apply list_elem_of_In, Ht|].
    apply List.in_flat_map. exists p.
    split; [apply list_elem_of_In, Hp | apply list_elem_of_In, Hr].
  - intros r Hr.
    apply list_elem_of_In, List.in_flat_map in Hr as [t [Ht Hr]].
    apply List.in_flat_map in Hr as [p [Hp Hr]].
    apply list_elem_of_In, elem_of_player_rows in Hr as [i [-> Hi]].
    exists t, p. split; [apply list_elem_of_In, Ht|].
    split; [apply list_elem_of_In, Hp|]. split; [reflexivity | exact Hi].
  - induction data as [|t data IH]; simpl; [reflexivity|].
    rewrite length_app, IH. f_equal.
    induction (lineup t) as [|p ps IHp]; simpl; [reflexivity|].
    rewrite length_app, IHp, length_player_rows. reflexivity.
Qed.

End Lineups.

(** ** scripts/xt_model.py: the values of the grid *)

From Stdlib Require Import Lqa.

Module XtBounds.

Import XtModel.

Local Open Scope Q_scope.

Definition nonneg (l : list Q) : Prop := Forall (Qle 0) l.

(** Every value is a probability. *)
Definition probabilities (l : list Q) : Prop :=
  Forall (fun v => 0 <= v /\ v <= 1) l.

(** The guard added to the denominators, [1e-6]. *)
Local Abbreviation eps := (1 # 1000000).

(** *** Counts *)

Lemma add_at_nonneg (a : list Q) (idx : list nat) :
  nonneg a -> nonneg (add_at a idx).
Proof.
  unfold add_at. revert a. induction idx as [|i idx IH]; intros a Ha; simpl.
  - exact Ha.
  - apply IH. apply Forall_alter; [exact Ha|]. intros x _ Hx. lra.
Qed.

Lemma add_at_le {A : Type} (f : A -> nat) (keep : A -> bool) (l : list A)
    (a b : list Q) :
  Forall2 Qle a b ->
  Forall2 Qle (add_at a (map f (List.filter keep l))) (add_at b (map f l)).
Proof.
  unfold add_at. revert a b. induction l as [|x l IH]; intros a b Hab; simpl.
  - exact Hab.
  - destruct (keep x); simpl; apply IH.
    + apply Forall2_alter; [exact Hab|]. intros u v _ _ Huv. lra.
    + apply Forall2_alter_r; [exact Hab|]. intros u v _ _ Huv. lra.
Qed.

Lemma add_at2_nonneg (M : list (list Q)) (idx : list (nat * nat)) :
  Forall nonneg M -> Forall nonneg (add_at2 M idx).
Proof.
  unfold add_at2. revert M. induction idx as [|ij idx IH]; intros M HM; simpl.
  - exact HM.
  - apply IH. apply Forall_alter; [exact HM|]. intros row _ Hrow.
    apply Forall_alter; [exact Hrow|]. intros x _ Hx. lra.
Qed.

Lemma zeros_nonneg (n : nat) : nonneg (zeros n).
Proof. apply Forall_replicate. lra. Qed.

(** *** Sums and products *)

Lemma sumq_nonneg (l : list Q) : nonneg l -> 0 <= sumq l.
Proof.
  induction 1 as [|x l Hx _ IH]; simpl; [lra|]. lra.
Qed.

Lemma dot_nonneg (row v : list Q) : nonneg row -> nonneg v -> 0 <= dot row v.
Proof.
  unfold dot. intros Hrow. revert v.
  induction Hrow as [|c row Hc _ IH]; intros v Hv; simpl; [lra|].
  destruct Hv as [|x v Hx Hv]; simpl; [lra|].
  specialize (IH v Hv). pose proof (Qmult_le_0_compat c x Hc Hx). lra.
Qed.

Lemma dot_le_sum (row v : list Q) :
  nonneg row -> probabilities v -> dot row v <= sumq row.
Proof.
  unfold dot. intros Hrow. revert v.
  induction Hrow as [|c row Hc Hrow IH]; intros v Hv; simpl; [lra|].
  destruct Hv as [|x v [Hx0 Hx1] Hv]; simpl.
  - pose proof (sumq_nonneg row Hrow). lra.
  - specialize (IH v Hv).
    nra.
Qed.

Lemma dot_mono (row v w : list Q) :
  nonneg row -> Forall2 Qle v w -> dot row v <= dot row w.
Proof.
  unfold dot. intros Hrow. revert v w.
  induction Hrow as [|c row Hc _ IH]; intros v w Hvw; simpl; [lra|].
  destruct Hvw as [|x y v w Hxy Hvw]; simpl; [lra|].
  specialize (IH v w Hvw).
  nra.
Qed.

(** *** The probabilities of a zone *)

Section Zone.

Variables (passes : list pass) (carries : list carry) (shots : list shot).

Lemma shot_counts_nonneg : nonneg (shot_counts shots).
Proof. apply add_at_nonneg, zeros_nonneg. Qed.

Lemma move_counts_nonneg : nonneg (move_counts passes carries).
Proof. do 2 apply add_at_nonneg. apply zeros_nonneg. Qed.

Lemma goal_counts_nonneg : nonneg (goal_counts shots).
Proof. apply add_at_nonneg, zeros_nonneg. Qed.

Lemma goal_counts_le : Forall2 Qle (goal_counts shots) (shot_counts shots).
Proof.
  apply (add_at_le (fun s => zone (sh_location_x s) (sh_location_y s)) sh_is_goal).
  apply Forall2_replicate. lra.
Qed.

(** The counts of a zone: shots, goals among them, and moves. *)
Lemma zone_counts (z : nat) :
  (z < ZONES)%nat ->
  exists s g m,
    shot_counts shots !! z = Some s /\ goal_counts shots !! z = Some g /\
    move_counts passes carries !! z = Some m /\
    0 <= g /\ g <= s /\ 0 <= m.
Proof.
  intros Hz.
  destruct (lookup_lt_is_Some_2 (shot_counts shots) z) as [s Hs];
    [rewrite length_shot_counts; exact Hz|].
  destruct (lookup_lt_is_Some_2 (goal_counts shots) z) as [g Hg];
    [rewrite length_goal_counts; exact Hz|].
  destruct (lookup_lt_is_Some_2 (move_counts passes carries) z) as [m Hm];
    [rewrite length_move_counts; exact Hz|].
  exists s, g, m. repeat (split; [assumption|]). split; [|split].
  - exact (Forall_lookup_1 _ _ _ _ goal_counts_nonneg Hg).
  - exact (Forall2_lookup_lr _ _ _ _ _ _ goal_counts_le Hg Hs).
  - exact (Forall_lookup_1 _ _ _ _ move_counts_nonneg Hm).
Qed.

Lemma zone_probabilities (z : nat) :
  (z < ZONES)%nat ->
  exists ps pg pm,
    p_shot passes carries shots !! z = Some ps /\
    p_goal_given_shot shots !! z = Some pg /\
    p_move passes carries shots !! z = Some pm /\
    0 <= ps /\ 0 <= pm /\ ps + pm < 1 /\ 0 <= pg /\ pg < 1.
Proof.
  intros Hz.
  destruct (zone_counts z Hz) as [s [g [m [Hs [Hg [Hm [Hg0 [Hgs Hm0]]]]]]]].
  exists (s / (s + m + eps)), (g / (s + eps)), (m / (s + m + eps)).
  assert (Htotal : total_counts passes carries shots !! z = Some (s + m + eps)).
  { unfold total_counts. rewrite list_lookup_fmap, lookup_zip_with, Hs. simpl.
    rewrite Hm. reflexivity. }
  split; [|split; [|split]].
  - unfold p_shot. rewrite lookup_zip_with, Hs. simpl. rewrite Htotal. reflexivity.
  - unfold p_goal_given_shot.
    rewrite lookup_zip_with, Hg. simpl. rewrite list_lookup_fmap, Hs. reflexivity.
  - unfold p_move. rewrite lookup_zip_with, Hm. simpl. rewrite Htotal. reflexivity.
  - assert (Hd : 0 < s + m + eps) by lra.
    assert (He : 0 < s + eps) by lra.
    split; [apply Qle_shift_div_l; [exact Hd | lra]|].
    split; [apply Qle_shift_div_l; [exact Hd | lra]|].
    split.
    + assert (Hsum : s / (s + m + eps) + m / (s + m + eps) == (s + m) / (s + m + eps)).
      { field. lra. }
      rewrite Hsum. apply Qlt_shift_div_r; [exact Hd | lra].
    + split; [apply Qle_shift_div_l; [exact He | lra]|].
      apply Qlt_shift_div_r; [exact He | lra].
Qed.

(** A row of [T] holds no negative entry and sums to at most 1. *)
Lemma T_row_substochastic (z : nat) (row : list Q) :
  T passes carries !! z = Some row -> nonneg row /\ sumq row <= 1.
Proof.
  intros Hrow.
  assert (Hz : (z < ZONES)%nat).
  { rewrite <- (length_T passes carries). eapply lookup_lt_Some, Hrow. }
  destruct (T_row passes carries z Hz) as [counts [Hcounts HT]].
  rewrite Hrow in HT. injection HT as ->.
  assert (Hnn : nonneg counts).
  { refine (Forall_lookup_1 _ _ _ _ _ Hcounts).
    apply add_at2_nonneg, Forall_replicate, zeros_nonneg. }
  pose proof (sumq_nonneg counts Hnn) as Hsum.
  set (s := if Qeq_bool (sumq counts) 0 then 1 else sumq counts).
  assert (Hs : 0 < s /\ sumq counts <= s).
  { subst s. destruct (Qeq_bool (sumq counts) 0) eqn:E.
    - apply Qeq_bool_iff in E. lra.
    - apply Qeq_bool_neq in E. lra. }
  destruct Hs as [Hs Hle]. split.
  - apply Forall_fmap. refine (Forall_impl _ _ _ Hnn _). intros c Hc. simpl.
    apply Qle_shift_div_l; [exact Hs | lra].
  - rewrite sumq_scaled. apply Qle_shift_div_r; [exact Hs | lra].
Qed.

Lemma length_step (xT : list Q) : length (step passes carries shots xT) = ZONES.
Proof.
  unfold step, matvec, p_shot, p_move, p_goal_given_shot.
  rewrite !length_zip_with, !length_map, length_T, length_shot_counts,
    length_move_counts, length_goal_counts, length_total_counts.
  lia.
Qed.

(** One round, with what is known of its factors. *)
Lemma step_value (xT : list Q) (z : nat) (v : Q) :
  step passes carries shots xT !! z = Some v ->
  exists ps pg pm row,
    v = ps * pg + pm * dot row xT /\
    0 <= ps /\ 0 <= pm /\ ps + pm < 1 /\ 0 <= pg /\ pg < 1 /\
    nonneg row /\ sumq row <= 1.
Proof.
  intros Hv.
  assert (Hz : (z < ZONES)%nat).
  { rewrite <- (length_step xT). eapply lookup_lt_Some, Hv. }
  destruct (step_zone passes carries shots xT z Hz)
    as [ps [pg [pm [row [Hps [Hpg [Hpm [Hrow Hstep]]]]]]]].
  destruct (zone_probabilities z Hz)
    as [ps' [pg' [pm' [Hps' [Hpg' [Hpm' Hbounds]]]]]].
  assert (ps' = ps) by congruence. assert (pg' = pg) by congruence.
  assert (pm' = pm) by congruence. subst ps' pg' pm'.
  destruct (T_row_substochastic z row Hrow) as [Hnn Hsum].
  exists ps, pg, pm, row. split; [congruence|].
  destruct Hbounds as [? [? [? [? ?]]]]. repeat (split; [assumption|]).
  assumption.
Qed.

Lemma step_probabilities (xT : list Q) :
  probabilities xT -> probabilities (step passes carries shots xT).
Proof.
  intros HxT. apply Forall_lookup_2. intros z v Hv.
  destruct (step_value xT z v Hv)
    as [ps [pg [pm [row [-> [Hps [Hpm [Hsum [Hpg0 [Hpg1 [Hnn Hrow]]]]]]]]]]].
  assert (HxT0 : nonneg xT).
  { refine (Forall_impl _ _ _ HxT _). intros x [Hx _]. exact Hx. }
  pose proof (dot_nonneg row xT Hnn HxT0) as Hd0.
  pose proof (dot_le_sum row xT Hnn HxT) as Hd1.
  split; nra.
Qed.

Lemma step_mono (v w : list Q) :
  Forall2 Qle v w ->
  Forall2 Qle (step passes carries shots v) (step passes carries shots w).
Proof.
  intros Hvw. apply Forall2_same_length_lookup_2.
  - rewrite !length_step. reflexivity.
  - intros z x y Hx Hy.
    assert (Hz : (z < ZONES)%nat).
    { rewrite <- (length_step v). eapply lookup_lt_Some, Hx. }
    destruct (step_zone passes carries shots v z Hz)
      as [ps [pg [pm [row [Hps [Hpg [Hpm [Hrow Hv]]]]]]]].
    destruct (step_zone passes carries shots w z Hz)
      as [ps' [pg' [pm' [row' [Hps' [Hpg' [Hpm' [Hrow' Hw]]]]]]]].
    assert (ps' = ps) by congruence. assert (pg' = pg) by congruence.
    assert (pm' = pm) by congruence. assert (row' = row) by congruence.
    subst ps' pg' pm' row'.
    destruct (zone_probabilities z Hz)
      as [ps'' [pg'' [pm'' [_ [_ [Hpm'' [_ [Hpm0 _]]]]]]]].
    assert (pm'' = pm) by congruence. subst pm''.
    destruct (T_row_substochastic z row Hrow) as [Hnn _].
    pose proof (dot_mono row v w Hnn Hvw) as Hd.
    assert (x = ps * pg + pm * dot row v) by congruence.
    assert (y = ps * pg + pm * dot row w) by congruence.
    subst x y. nra.
Qed.

Lemma xt_after_probabilities (t : nat) :
  probabilities (xt_after passes carries shots t).
Proof.
  induction t as [|t IH].
  - apply Forall_replicate. lra.
  - apply step_probabilities. exact IH.
Qed.

End Zone.

(** X6. The grid [build_xt_grid] returns, and the grid after any number of
    rounds, holds ZONES values that are all between 0 and 1. *)
Theorem xt_values_are_probabilities (passes : list pass) (carries : list carry)
    (shots : list shot) :
  probabilities (fst (build_xt_grid passes carries shots)) /\
  length (fst (build_xt_grid passes carries shots)) = ZONES /\
  forall t, probabilities (xt_after passes carries shots t).
Proof.
  assert (Hgrid : fst (build_xt_grid passes carries shots)
                  = xt_after passes carries shots ITERS) by apply fold_rounds.
  rewrite Hgrid. split; [apply xt_after_probabilities|].
  split; [apply length_step|]. apply xt_after_probabilities.
Qed.

(** X7. A further round lowers the value of no zone: the grid after t + 1
    rounds is, zone by zone, at least the grid after t rounds. *)
Theorem xt_round_raises_values (passes : list pass) (carries : list carry)
    (shots : list shot) (t : nat) :
  Forall2 Qle (xt_after passes carries shots t)
              (xt_after passes carries shots (S t)).
Proof.
  induction t as [|t IH].
  - apply Forall2_same_length_lookup_2.
    + change (length (zeros ZONES)
              = length (step passes carries shots (zeros ZONES))).
      rewrite length_step. apply length_replicate.
    + intros z x y Hx Hy. apply lookup_replicate in Hx as [-> _].
      pose proof (xt_after_probabilities passes carries shots 1) as H.
      exact (proj1 (Forall_lookup_1 _ _ _ _ H Hy)).
  - apply (step_mono passes carries shots). exact IH.
Qed.

End XtBounds.

(** ** scripts/xt_model.py: the value added by an action *)

Module XtAssign.

Import XtModel.

Local Open Scope Q_scope.

(** [xT[row, col]] on the array of shape (GRID_Y, GRID_X): None stands for
    the IndexError of an index out of the shape. *)
Definition at_zone (xT : list Q) (row col : nat) : option Q :=
  if (row <? GRID_Y)%nat && (col <? GRID_X)%nat
  then xT !! zone_index col row
  else None.

(** The columns [assign_xt] adds to a row. *)
Record assigned : Type := {
  xt_start : Q;
  xt_end : Q;
  xt_added : Q;
  action : string
}.

Definition assign_row (xT : list Q) (action_type : string) (m : move)
  : option assigned :=
  let '(start_col, start_row) := to_grid (location_x m) (location_y m) in
  let '(end_col, end_row) := to_grid (end_location_x m) (end_location_y m) in
  s ← at_zone xT start_row start_col;
  e ← at_zone xT end_row end_col;
  Some {| xt_start := s; xt_end := e; xt_added := e - s; action := action_type |}.

(** [assign_xt(df, xT, action_type)]: the added columns, row by row. *)
Definition assign_xt (df : list move) (xT : list Q) (action_type : string)
  : option (list assigned) :=
  mapM (assign_row xT action_type) df.

Lemma at_zone_in_grid (xT : list Q) (x y : Q) :
  length xT = ZONES ->
  exists v, at_zone xT (snd (to_grid x y)) (fst (to_grid x y)) = Some v /\
            xT !! zone x y = Some v.
Proof.
  intros Hlen. unfold at_zone, zone, to_grid. simpl.
  pose proof (grid_coord_lt x PITCH_X GRID_X) as Hc.
  pose proof (grid_coord_lt y PITCH_Y GRID_Y) as Hr.
  destruct (Nat.ltb_spec (grid_coord y PITCH_Y GRID_Y) GRID_Y) as [_|Hge];
    [|unfold GRID_Y in *; lia].
  destruct (Nat.ltb_spec (grid_coord x PITCH_X GRID_X) GRID_X) as [_|Hge];
    [|unfold GRID_X in *; lia].
  simpl.
  destruct (lookup_lt_is_Some_2 xT
              (zone_index (grid_coord x PITCH_X GRID_X) (grid_coord y PITCH_Y GRID_Y)))
    as [v Hv].
  - rewrite Hlen. pose proof (zone_lt x y) as Hz. unfold zone, to_grid in Hz.
    exact Hz.
  - exists v. split; exact Hv.
Qed.

Lemma assign_row_in_grid (xT : list Q) (action_type : string) (m : move) :
  length xT = ZONES ->
  exists s e,
    xT !! start_zone m = Some s /\ xT !! end_zone m = Some e /\
    assign_row xT action_type m
    = Some {| xt_start := s; xt_end := e; xt_added := e - s;
              action := action_type |}.
Proof.
  intros Hlen. unfold assign_row, start_zone, end_zone.
  destruct (at_zone_in_grid xT (location_x m) (location_y m) Hlen) as [s [Hs Hs']].
  destruct (at_zone_in_grid xT (end_location_x m) (end_location_y m) Hlen)
    as [e [He He']].
  exists s, e. split; [exact Hs'|]. split; [exact He'|].
  destruct (to_grid (location_x m) (location_y m)) as [sc sr].
  destruct (to_grid (end_location_x m) (end_location_y m)) as [ec er].
  simpl in Hs, He. rewrite Hs. simpl. rewrite He. reflexivity.
Qed.

(** X8. On the grid of [build_xt_grid], [assign_xt] never indexes outside the
    grid: it returns one row per action, whose [xt_start] and [xt_end] are the
    grid values of the zones of the two locations, and whose [xt_added], their
    difference, lies between -1 and 1. *)
Theorem assign_xt_in_grid (passes : list pass) (carries : list carry)
    (shots : list shot) (df : list move) (action_type : string) :
  exists out,
    assign_xt df (fst (build_xt_grid passes carries shots)) action_type = Some out /\
    Forall2 (fun m a =>
               fst (build_xt_grid passes carries shots) !! start_zone m
               = Some (xt_start a) /\
               fst (build_xt_grid passes carries shots) !! end_zone m
               = Some (xt_end a) /\
               xt_added a = xt_end a - xt_start a /\
               action a = action_type /\
               -1 <= xt_added a /\ xt_added a <= 1) df out.
Proof.
  set (xT := fst (build_xt_grid passes carries shots)).
  assert (Hgrid : xT = xt_after passes carries shots ITERS) by apply fold_rounds.
  assert (Hlen : length xT = ZONES).
  { rewrite Hgrid. apply XtBounds.length_step. }
  assert (Hprob : XtBounds.probabilities xT).
  { rewrite Hgrid. apply XtBounds.xt_after_probabilities. }
  unfold assign_xt. induction df as [|m df [out [Hout Hall]]].
  - exists []. split; [reflexivity | constructor].
  - destruct (assign_row_in_grid xT action_type m Hlen) as [s [e [Hs [He Hrow]]]].
    eexists. split.
    + simpl. rewrite Hrow. simpl. rewrite Hout. reflexivity.
    + constructor; [|exact Hall]. simpl.
      pose proof (Forall_lookup_1 _ _ _ _ Hprob Hs) as [Hs0 Hs1].
      pose proof (Forall_lookup_1 _ _ _ _ Hprob He) as [He0 He1].
      repeat split; try assumption; lra.
Qed.

End XtAssign.

(** ** pipeline/silver.py: whole runs *)

Module SilverRuns.

Import Silver.

Local Open Scope se_scope.

(** The columns a fact table shares with fact_events. *)
Definition event_columns (e : event_row) :=
  (ev_event_id e, ev_match_id e, ev_player_id e, ev_team_id e,
   ev_period e, ev_minute e, ev_second e, ev_location_x e, ev_location_y e).

Definition pass_columns (p : pass_row) :=
  (p_event_id p, p_match_id p, p_player_id p, p_team_id p,
   p_period p, p_minute p, p_second p, p_location_x p, p_location_y p).

Definition shot_columns (s : shot_row) :=
  (s_event_id s, s_match_id s, s_player_id s, s_team_id s,
   s_period s, s_minute s, s_second s, s_location_x s, s_location_y s).

Definition carry_columns (c : carry_row) :=
  (c_event_id c, c_match_id c, c_player_id c, c_team_id c,
   c_period c, c_minute c, c_second c, c_location_x c, c_location_y c).

(** The rows of fact_events of one type. *)
Definition events_of_type (kind : string) (events : list event_row)
  : list event_row :=
  List.filter (fun e => str_eq (ev_type e) kind) events.

Lemma filter_map {A B : Type} (P : B -> bool) (f : A -> B) (l : list A) :
  List.filter P (map f l) = map f (List.filter (fun a => P (f a)) l).
Proof.
  induction l as [|a l IH]; simpl; [reflexivity|].
  rewrite IH. destruct (P (f a)); reflexivity.
Qed.

Section Stage.

Variable duckdb_raises : db_call -> bool.
Variable bronze : string -> option DataFrame.
Variable to_numeric : cell -> option Q.
Variable astype_Int64 : option Q -> option Z.
Variable dim_competition_frame : DataFrame -> option DataFrame.
Variable dim_match_frame : DataFrame -> option DataFrame.
Variable dim_team_frame : DataFrame -> option DataFrame.
Variable dim_player_frame : DataFrame -> option DataFrame.
Variable fact_lineups_frame : DataFrame -> option DataFrame.
Variable freeze_frame_rows : DataFrame -> option DataFrame.

Local Abbreviation run :=
  (Silver.run duckdb_raises bronze to_numeric astype_Int64 dim_competition_frame
     dim_match_frame dim_team_frame dim_player_frame fact_lineups_frame
     freeze_frame_rows).

Local Abbreviation stage :=
  (Silver.stage duckdb_raises bronze to_numeric astype_Int64 dim_competition_frame
     dim_match_frame dim_team_frame dim_player_frame fact_lineups_frame
     freeze_frame_rows).

Local Abbreviation assembled :=
  (Silver.assembled bronze to_numeric astype_Int64 dim_competition_frame
     dim_match_frame dim_team_frame dim_player_frame fact_lineups_frame
     freeze_frame_rows).

Local Abbreviation checks := (Silver.checks to_numeric).
Local Abbreviation fact_events_rows := (Silver.fact_events_rows to_numeric astype_Int64).
Local Abbreviation fact_passes_rows := (Silver.fact_passes_rows to_numeric astype_Int64).
Local Abbreviation fact_shots_rows := (Silver.fact_shots_rows to_numeric astype_Int64).
Local Abbreviation fact_carries_rows := (Silver.fact_carries_rows to_numeric astype_Int64).

(** A run that returns has connected and has got through every builder. *)
Lemma run_returned (con con' : Store) :
  run con = (con', inr tt) ->
  duckdb_raises Connect = false /\
  for_each stage stage_tables con = (con', inr tt).
Proof.
  intros H. rewrite run_stages in H. unfold bind, get_db_connection in H.
  destruct (duckdb_raises Connect); [discriminate|]. split; [reflexivity | exact H].
Qed.

Lemma checks_index (df : DataFrame) (rs : list (gmap string cell))
    (uses : list use) (name : string) :
  checks df rs uses = inr tt -> Index name ∈ uses -> has_col df name = true.
Proof.
  induction uses as [|u uses IH]; intros H Hin; [inversion Hin|].
  apply elem_of_cons in Hin as [<- | Hin]; simpl in H.
  - destruct (has_col df name); [reflexivity | discriminate].
  - destruct u as [n|n].
    + destruct (has_col df n); [exact (IH H Hin) | discriminate].
    + destruct (casts to_numeric df rs n); [exact (IH H Hin) | discriminate].
Qed.

(** The four fact tables of one run are built from one events frame, which
    has a "type" column. *)
Lemma assembled_facts (t5 t6 t7 t8 : table) :
  assembled "fact_events" = inr t5 ->
  assembled "fact_passes" = inr t6 ->
  assembled "fact_shots" = inr t7 ->
  assembled "fact_carries" = inr t8 ->
  exists df,
    has_col df "type" = true /\
    t5 = TEvents (fact_events_rows df) /\
    t6 = TPasses (fact_passes_rows df) /\
    t7 = TShots (fact_shots_rows df) /\
    t8 = TCarries (fact_carries_rows df).
Proof.
  unfold Silver.assembled. simpl.
  destruct (_read_bronze bronze "events") as [e|df]; [discriminate|]. simpl.
  unfold fact_events_out, fact_passes_out, fact_shots_out, fact_carries_out, ebind.
  intros E5 E6 E7 E8.
  destruct (Silver.checks to_numeric df (rows df) _) as [|[]] in E5; [discriminate|].
  destruct (Silver.checks to_numeric df (of_type "Pass" df) _) as [|[]] eqn:C6 in E6;
    [discriminate|].
  destruct (Silver.checks to_numeric df (of_type "Shot" df) _) as [|[]] in E7;
    [discriminate|].
  destruct (Silver.checks to_numeric df (of_type "Carry" df) _) as [|[]] in E8;
    [discriminate|].
  injection E5 as <-. injection E6 as <-. injection E7 as <-. injection E8 as <-.
  exists df. split; [|repeat split].
  apply (checks_index df _ _ "type" C6). left.
Qed.

(** Under a "type" column, the rows of a fact table are the rows of
    fact_events of its type. *)
Lemma fact_rows_of_events (df : DataFrame) :
  has_col df "type" = true ->
  map pass_columns (fact_passes_rows df)
  = map event_columns (events_of_type "Pass" (fact_events_rows df)) /\
  map shot_columns (fact_shots_rows df)
  = map event_columns (events_of_type "Shot" (fact_events_rows df)) /\
  map carry_columns (fact_carries_rows df)
  = map event_columns (events_of_type "Carry" (fact_events_rows df)).
Proof.
  intros Htype.
  assert (Hkind : forall kind,
    events_of_type kind (fact_events_rows df)
    = fact_events_rows {| columns := columns df; rows := of_type kind df |}).
  { intros kind. unfold events_of_type, Silver.fact_events_rows.
    rewrite filter_map. unfold of_type. simpl.
    assert (Hf : List.filter (fun r => str_eq (_col df "type" r) kind) (rows df)
                 = List.filter (fun r => str_eq (get r "type") kind) (rows df)).
    { apply List.filter_ext. intros r. unfold _col. rewrite Htype. reflexivity. }
    rewrite Hf. reflexivity. }
  rewrite !Hkind.
  unfold Silver.fact_passes_rows, Silver.fact_shots_rows, Silver.fact_carries_rows,
    Silver.fact_events_rows.
  cbn [rows]. rewrite !List.map_map.
  repeat split; apply List.map_ext; intros r; reflexivity.
Qed.

(** X9. A run that returns has replaced each of the ten tables of the stage
    by its newly assembled contents and has left every other table of the
    store as it was. *)
Theorem run_replaces_stage_tables (con con' : Store) :
  run con = (con', inr tt) ->
  (forall n, n ∈ stage_tables ->
     exists t, assembled n = inr t /\ con' !! n = Some t) /\
  (forall n, n ∉ stage_tables -> con' !! n = con !! n).
Proof.
  intros H. destruct (run_returned con con' H) as [_ Hrun].
  destruct (stages_returned _ _ _ _ _ _ _ _ _ _ stage_tables con con'
              stage_tables_nodup Hrun) as [Hin Hout].
  split; [|exact Hout].
  intros n Hn. destruct (Hin n Hn) as (t & Ha & _ & Ht). exists t. split; assumption.
Qed.

(** X11. The stage is a rebuild: if a run returns on one store it returns
    on every store, and the tables of the stage come out the same whatever
    the store held before. *)
Theorem run_outcome_ignores_store (con con' other : Store) :
  run con = (con', inr tt) ->
  exists other',
    run other = (other', inr tt) /\
    forall n, n ∈ stage_tables -> other' !! n = con' !! n.
Proof.
  intros H. destruct (run_returned con con' H) as [Hconnect Hrun].
  destruct (stages_returned _ _ _ _ _ _ _ _ _ _ stage_tables con con'
              stage_tables_nodup Hrun) as [Hin _].
  destruct (stages_quiet duckdb_raises bronze to_numeric astype_Int64
              dim_competition_frame dim_match_frame dim_team_frame
              dim_player_frame fact_lineups_frame freeze_frame_rows
              stage_tables other) as [other' Hother].
  { intros n Hn. destruct (Hin n Hn) as (t & Ha & Hq & _). exists t. split; assumption. }
  exists other'. split.
  - rewrite run_stages. unfold bind, get_db_connection. rewrite Hconnect.
    exact Hother.
  - intros n Hn.
    destruct (stages_returned _ _ _ _ _ _ _ _ _ _ stage_tables other other'
                stage_tables_nodup Hother) as [Hin' _].
    destruct (Hin n Hn) as (t & Ha & _ & Ht).
    destruct (Hin' n Hn) as (t' & Ha' & _ & Ht').
    rewrite Ht, Ht'. congruence.
Qed.

(** X12. After a run that returns, fact_passes, fact_shots and fact_carries
    hold, in the same order, the rows of fact_events of type Pass, Shot and
    Carry, with the same event id, match, player, team, period, minute,
    second and location: no event of these types is lost and none is
    added. *)
Theorem fact_tables_are_typed_events (con con' : Store) :
  run con = (con', inr tt) ->
  exists events passes shots carries,
    con' !! "fact_events" = Some (TEvents events) /\
    con' !! "fact_passes" = Some (TPasses passes) /\
    con' !! "fact_shots" = Some (TShots shots) /\
    con' !! "fact_carries" = Some (TCarries carries) /\
    map pass_columns passes = map event_columns (events_of_type "Pass" events) /\
    map shot_columns shots = map event_columns (events_of_type "Shot" events) /\
    map carry_columns carries = map event_columns (events_of_type "Carry" events).
Proof.
  intros H. destruct (run_returned con con' H) as [_ Hrun].
  destruct (stages_returned _ _ _ _ _ _ _ _ _ _ stage_tables con con'
              stage_tables_nodup Hrun) as [Hin _].
  assert (Hmem : forall i n, stage_tables !! i = Some n -> n ∈ stage_tables).
  { intros i n Hi. apply list_elem_of_lookup. exists i. exact Hi. }
  destruct (Hin "fact_events" (Hmem 4%nat _ eq_refl)) as (t5 & A5 & _ & H5).
  destruct (Hin "fact_passes" (Hmem 5%nat _ eq_refl)) as (t6 & A6 & _ & H6).
  destruct (Hin "fact_shots" (Hmem 6%nat _ eq_refl)) as (t7 & A7 & _ & H7).
  destruct (Hin "fact_carries" (Hmem 7%nat _ eq_refl)) as (t8 & A8 & _ & H8).
  destruct (assembled_facts t5 t6 t7 t8 A5 A6 A7 A8)
    as (df & Htype & -> & -> & -> & ->).
  destruct (fact_rows_of_events df Htype) as (Hpass & Hshot & Hcarry).
  exists (fact_events_rows df), (fact_passes_rows df), (fact_shots_rows df),
    (fact_carries_rows df).
  repeat (split; [assumption|]). assumption.
Qed.

End Stage.

(** *** A run that returns *)

Definition lineups_frame : DataFrame :=
  {| columns := ["match_id"; "team_id"; "team_name"; "player_id"; "player_name";
                 "jersey_number"; "position"];
     rows := [ {[ "match_id" := CNum (7#1); "team_id" := CNum (1#1);
                  "team_name" := CStr "Ecuador"; "player_id" := CNum (10#1);
                  "player_name" := CStr "A"; "jersey_number" := CNum (10#1);
                  "position" := CStr "Left Wing" ]};
               {[ "match_id" := CNum (7#1); "team_id" := CNum (1#1);
                  "team_name" := CStr "Ecuador"; "player_id" := CNum (11#1);
                  "player_name" := CStr "B"; "jersey_number" := CNum (11#1) ]} ] |}.

(** The events of [events_frame] and a carry. *)
Definition events_with_carry : DataFrame :=
  {| columns := (columns events_frame ++ ["carry_end_location"; "duration"])%list;
     rows :=
       (rows events_frame ++
        [ {[ "id" := CStr "e5"; "match_id" := CNum (7#1); "type" := CStr "Carry";
             "period" := CNum (1#1); "minute" := CNum (17#1);
             "second" := CNum (40#1);
             "team_id" := CNum (1#1); "team" := CStr "Ecuador";
             "player_id" := CNum (10#1); "duration" := CNum (3#2);
             "location" := CList [Some (60#1); Some (42#1)];
             "carry_end_location" := CList [Some (66#1); Some (45#1)] ]} ])%list |}.

Definition bronze_all_layers (layer : string) : option DataFrame :=
  if String.eqb layer "lineups" then Some lineups_frame
  else if String.eqb layer "events" then Some events_with_carry
  else bronze_without_lineups layer.

Definition run_all_layers : M unit :=
  Silver.run no_db_error bronze_all_layers numeric_of_cell int_of_numeric
    frame_as_is frame_as_is frame_as_is frame_as_is frame_as_is frame_as_is.

Definition assembled_all_layers (name : string) : exn + table :=
  Silver.assembled bronze_all_layers numeric_of_cell int_of_numeric
    frame_as_is frame_as_is frame_as_is frame_as_is frame_as_is frame_as_is name.

Example carries_of_all_layers :
  fst (run_all_layers ∅) !! "fact_carries"
  = Some (TCarries
            [ {| c_event_id := CStr "e5"; c_match_id := Some 7;
                 c_player_id := Some 10; c_team_id := Some 1;
                 c_period := Some 1; c_minute := Some 17; c_second := Some 40;
                 c_location_x := Some (60#1); c_location_y := Some (42#1);
                 c_end_location_x := Some (66#1); c_end_location_y := Some (45#1);
                 c_duration := Some (3#2); c_under_pressure := false |} ]).
Proof. vm_compute. reflexivity. Qed.

Lemma run_replaces_stage_tables_witness :
  (forall n, n ∈ stage_tables ->
     exists t, assembled_all_layers n = inr t /\
               fst (run_all_layers earlier_store) !! n = Some t) /\
  (forall n, n ∉ stage_tables ->
     fst (run_all_layers earlier_store) !! n = earlier_store !! n).
Proof.
  apply (run_replaces_stage_tables no_db_error bronze_all_layers numeric_of_cell
           int_of_numeric frame_as_is frame_as_is frame_as_is frame_as_is
           frame_as_is frame_as_is earlier_store
           (fst (run_all_layers earlier_store))).
  apply pair_of_snd. vm_compute. reflexivity.
Defined.

Lemma run_outcome_ignores_store_witness :
  exists other',
    run_all_layers ∅ = (other', inr tt) /\
    forall n, n ∈ stage_tables ->
      other' !! n = fst (run_all_layers earlier_store) !! n.
Proof.
  apply (run_outcome_ignores_store no_db_error bronze_all_layers numeric_of_cell
           int_of_numeric frame_as_is frame_as_is frame_as_is frame_as_is
           frame_as_is frame_as_is earlier_store
           (fst (run_all_layers earlier_store)) ∅).
  apply pair_of_snd. vm_compute. reflexivity.
Defined.

Lemma fact_tables_are_typed_events_witness :
  exists events passes shots carries,
    fst (run_all_layers ∅) !! "fact_events" = Some (TEvents events) /\
    fst (run_all_layers ∅) !! "fact_passes" = Some (TPasses passes) /\
    fst (run_all_layers ∅) !! "fact_shots" = Some (TShots shots) /\
    fst (run_all_layers ∅) !! "fact_carries" = Some (TCarries carries) /\
    map pass_columns passes = map event_columns (events_of_type "Pass" events) /\
    map shot_columns shots = map event_columns (events_of_type "Shot" events) /\
    map carry_columns carries = map event_columns (events_of_type "Carry" events).
Proof.
  apply (fact_tables_are_typed_events no_db_error bronze_all_layers numeric_of_cell
           int_of_numeric frame_as_is frame_as_is frame_as_is frame_as_is
           frame_as_is frame_as_is ∅ (fst (run_all_layers ∅))).
  apply pair_of_snd. vm_compute. reflexivity.
Defined.

End SilverRuns.

(** ** scripts/apply_xg_model.py and scripts/xg_model.py: whole tables *)

Module XgApply.

Import XgModel.

(** [shot_type != 'Penalty'] in a WHERE clause: never true on NULL. *)
Definition not_penalty (r : shot_row) : bool :=
  negb (isna (s_shot_type r)) && negb (str_eq (s_shot_type r) "Penalty").

(** The rows of [load_shots]: the shots with a location whose type is known
    and is not Penalty. *)
Definition load_shots (fact_shots : list shot_row) : list shot_row :=
  List.filter (fun r => bool_decide (s_location_x r <> None)
                        && bool_decide (s_location_y r <> None)
                        && not_penalty r) fact_shots.

(** The table read back by a later run of [main]: every xg_model is set. *)
Definition reread (out : list (shot_row * Q)) : shot_frame :=
  map (fun rv => (fst rv, Some (snd rv))) out.

Section Apply.

Variable sqrt : Q -> Q.
Variable arctan2 : Q -> Q -> Q.
Variable predict_proba : features -> Q.

Local Abbreviation main := (XgModel.main sqrt arctan2 predict_proba).
Local Abbreviation predicted := (XgModel.predicted sqrt arctan2 predict_proba).
Local Abbreviation valid_from := (XgModel.valid_from sqrt arctan2 predict_proba).
Local Abbreviation df_valid := (XgModel.df_valid sqrt arctan2 predict_proba).
Local Abbreviation build_features := (XgModel.build_features sqrt arctan2).

(** The value [main] writes for a shot that held [prior]. *)
Definition written (r : shot_row) (prior : option Q) : Q :=
  match predicted r with
  | Some q => q
  | None => if str_eq (s_shot_type r) "Penalty" then (76 # 100)%Q
            else default 0%Q prior
  end.

(** [X, y] of [train] on the rows of [load_shots]. *)
Definition training_set (fact_shots : list shot_row) : list (features * Z) :=
  omap (fun r => match location r with
                 | Some (x, y) => Some (build_features r x y, as_int (s_is_goal r))
                 | None => None
                 end)
       (load_shots fact_shots).

Lemma valid_from_rows (k : nat) (df df' : shot_frame) :
  map fst df = map fst df' -> valid_from k df = valid_from k df'.
Proof.
  revert k df'. induction df as [|rv df IH]; intros k [|rv' df'] H;
    try discriminate H; [reflexivity|].
  simpl in H. injection H as Hr Hrest.
  rewrite !valid_from_cons, Hr, (IH (S k) df' Hrest). reflexivity.
Qed.

Lemma length_main (df : shot_frame) (out : list (shot_row * Q)) :
  main df = Some out -> length out = length df.
Proof.
  unfold XgModel.main. intros H.
  assert (Hout : out = fillna_0 (update (set_penalties df) (df_valid df))).
  { destruct (df_valid df); [discriminate | congruence]. }
  subst out. unfold fillna_0, update, set_penalties.
  rewrite length_map, length_imap, length_map. reflexivity.
Qed.

Lemma main_written (df : shot_frame) (out : list (shot_row * Q)) :
  main df = Some out -> out = map (fun rv => (fst rv, written (fst rv) (snd rv))) df.
Proof.
  intros H. pose proof (length_main df out H) as Hlen.
  pose proof (main_row sqrt arctan2 predict_proba df out) as Hrow.
  unfold shot_frame in *.
  apply list_eq. intros i. rewrite list_lookup_fmap.
  destruct (df !! i) as [[r prior]|] eqn:Hi.
  - rewrite (Hrow i r prior H Hi). reflexivity.
  - simpl. apply lookup_ge_None. rewrite Hlen.
    apply lookup_ge_None. exact Hi.
Qed.

Lemma written_again (r : shot_row) (prior : option Q) :
  written r (Some (written r prior)) = written r prior.
Proof.
  unfold written. destruct (predicted r); [reflexivity|].
  destruct (str_eq (s_shot_type r) "Penalty"); reflexivity.
Qed.

(** X13. [main] writes back every shot, in table order and with its other
    columns as read; the xg_model of a shot with a location is the model's
    output, that of a penalty without location is 0.76, and any other shot
    keeps the value the table held, or gets 0.0 when it held none. *)
Theorem main_writes_every_shot (df : shot_frame) (out : list (shot_row * Q)) :
  main df = Some out ->
  map fst out = map fst df /\
  Forall2 (fun rv w =>
             fst w = fst rv /\
             (forall x y, location (fst rv) = Some (x, y) ->
                snd w = predict_proba (build_features (fst rv) x y)) /\
             (location (fst rv) = None ->
              str_eq (s_shot_type (fst rv)) "Penalty" = true ->
              snd w = (76 # 100)%Q) /\
             (location (fst rv) = None ->
              str_eq (s_shot_type (fst rv)) "Penalty" = false ->
              snd w = default 0%Q (snd rv))) df out.
Proof.
  intros H. rewrite (main_written df out H). split.
  - rewrite List.map_map. reflexivity.
  - apply Forall2_fmap_r, Forall_Forall2_diag, Forall_forall.
    intros [r prior] _. simpl. split; [reflexivity|].
    unfold written, XgModel.predicted.
    split; [|split].
    + intros x y Hloc. rewrite Hloc. reflexivity.
    + intros Hloc Hpen. rewrite Hloc, Hpen. reflexivity.
    + intros Hloc Hpen. rewrite Hloc, Hpen. reflexivity.
Qed.

(** X14. Applying the model again to the table [main] wrote changes
    nothing: a second run writes the same table. *)
Theorem main_is_idempotent (df : shot_frame) (out : list (shot_row * Q)) :
  main df = Some out -> main (reread out) = Some out.
Proof.
  intros H. pose proof (main_written df out H) as Hout.
  set (g := fun rv : shot_row * option Q => (fst rv, written (fst rv) (snd rv))) in *.
  assert (Hagain : map g (reread out) = out).
  { rewrite Hout. unfold reread. rewrite !List.map_map.
    apply List.map_ext. intros [r prior]. unfold g. simpl.
    rewrite written_again. reflexivity. }
  assert (Hrows : map fst (reread out) = map fst df).
  { rewrite Hout. unfold reread. rewrite !List.map_map. reflexivity. }
  assert (Hvalid : df_valid (reread out) = df_valid df).
  { exact (valid_from_rows 0 (reread out) df Hrows). }
  assert (Hsome : exists out', main (reread out) = Some out').
  { unfold XgModel.main in *. rewrite Hvalid.
    destruct (df_valid df); [discriminate H | eexists; reflexivity]. }
  destruct Hsome as [out' Hout']. rewrite Hout'. f_equal.
  rewrite (main_written (reread out) out' Hout'). exact Hagain.
Qed.

(** X15. No row of the training set is a penalty or a shot of unknown
    type: each is a shot of fact_shots with a location, and its is_penalty
    feature is 0. *)
Theorem training_set_has_no_penalty (fact_shots : list shot_row)
    (f : features) (goal : Z) :
  (f, goal) ∈ training_set fact_shots ->
  is_penalty f = 0 /\
  exists r x y,
    r ∈ fact_shots /\ location r = Some (x, y) /\
    isna (s_shot_type r) = false /\
    f = build_features r x y /\ goal = as_int (s_is_goal r).
Proof.
  unfold training_set, load_shots. intros H.
  apply list_elem_of_omap in H as [r [Hr Hf]].
  apply list_elem_of_In, List.filter_In in Hr as [Hr Hkeep].
  apply andb_true_iff in Hkeep as [_ Hnp]. unfold not_penalty in Hnp.
  apply andb_true_iff in Hnp as [Hna Hpen].
  apply negb_true_iff in Hna, Hpen.
  destruct (location r) as [[x y]|] eqn:Hloc; [|discriminate Hf].
  injection Hf as <- <-. split.
  - simpl. rewrite Hpen. reflexivity.
  - exists r, x, y. split; [apply list_elem_of_In, Hr|]. auto.
Qed.

End Apply.

(** A saved shot without location and the penalty from the spot. *)
Definition blocked_shot : shot_row :=
  {| s_event_id := CStr "s2"; s_match_id := Some 7; s_player_id := Some 9;
     s_team_id := Some 1; s_period := Some 1; s_minute := Some 12;
     s_second := Some 3; s_location_x := None; s_location_y := None;
     s_xg := Some (5 # 100); s_outcome := CStr "Blocked"; s_is_goal := false;
     s_body_part := CStr "Head"; s_shot_type := CStr "Open Play";
     s_is_first_time := false; s_under_pressure := true |}.

Definition open_play_shot : shot_row :=
  {| s_event_id := CStr "s3"; s_match_id := Some 7; s_player_id := Some 9;
     s_team_id := Some 1; s_period := Some 1; s_minute := Some 20;
     s_second := Some 3; s_location_x := Some (100 # 1);
     s_location_y := Some (35 # 1);
     s_xg := Some (5 # 100); s_outcome := CStr "Goal"; s_is_goal := true;
     s_body_part := CStr "Head"; s_shot_type := CStr "Open Play";
     s_is_first_time := false; s_under_pressure := true |}.

Definition two_shots : shot_frame :=
  [(penalty_from_the_spot, None); (blocked_shot, Some (3 # 100)%Q)].

Definition two_shots_written : list (shot_row * Q) :=
  [(penalty_from_the_spot, (1 # 2)%Q); (blocked_shot, (3 # 100)%Q)].

Lemma main_writes_every_shot_witness :
  map fst two_shots_written = map fst two_shots.
Proof.
  exact (proj1 (main_writes_every_shot (fun q => q) (fun _ _ => 0%Q) coin_model
                  two_shots two_shots_written eq_refl)).
Defined.

Lemma main_is_idempotent_witness :
  XgModel.main (fun q => q) (fun _ _ => 0%Q) coin_model (reread two_shots_written)
  = Some two_shots_written.
Proof.
  exact (main_is_idempotent (fun q => q) (fun _ _ => 0%Q) coin_model
           two_shots two_shots_written eq_refl).
Defined.

Lemma training_set_has_no_penalty_witness :
  is_penalty (XgModel.build_features (fun q => q) (fun _ _ => 0%Q) open_play_shot
                (100 # 1) (35 # 1)) = 0.
Proof.
  refine (proj1 (training_set_has_no_penalty (fun q => q) (fun _ _ => 0%Q)
                   [penalty_from_the_spot; blocked_shot; open_play_shot]
                   _ 1 _)).
  vm_compute. left.
Defined.

End XgApply.

(** ** pipeline/gold.py: whole tables *)

Module GoldTables.

Import Sql Gold.

(** *** Sorting, joining and grouping lose no row *)

Lemma insert_perm {A : Type} (key : A -> list (option Z)) (x : A) (l : list A) :
  insert key x l ≡ₚ x :: l.
Proof.
  induction l as [|y l IH]; simpl; [reflexivity|].
  destruct (row_leb key x y); [reflexivity|].
  rewrite IH. apply Permutation_swap.
Qed.

Lemma order_by_perm {A : Type} (key : A -> list (option Z)) (l : list A) :
  order_by key l ≡ₚ l.
Proof.
  induction l as [|x l IH]; simpl; [reflexivity|].
  rewrite insert_perm, IH. reflexivity.
Qed.

Lemma left_join_covers {A B : Type} (on : A -> B -> bool) (l : list A)
    (r : list B) (a : A) :
  a ∈ l -> exists b, (a, b) ∈ left_join on l r.
Proof.
  intros Ha. unfold left_join.
  destruct (List.filter (on a) r) as [|b ms] eqn:E.
  - exists None. apply list_elem_of_In, List.in_flat_map. exists a.
    split; [apply list_elem_of_In, Ha|]. rewrite E. left. reflexivity.
  - exists (Some b). apply list_elem_of_In, List.in_flat_map. exists a.
    split; [apply list_elem_of_In, Ha|]. rewrite E. left. reflexivity.
Qed.

Lemma length_flat_map_ge {A B : Type} (f : A -> list B) (l : list A) :
  (forall a, a ∈ l -> (1 <= length (f a))%nat) ->
  (length l <= length (flat_map f l))%nat.
Proof.
  induction l as [|a l IH]; intros H; [simpl; lia|].
  cbn [flat_map length]. rewrite length_app.
  specialize (H a ltac:(left)) as Ha.
  assert (IH' : (length l <= length (flat_map f l))%nat).
  { apply IH. intros a' Ha'. apply H. right. exact Ha'. }
  lia.
Qed.

Lemma length_flat_map_one {A B : Type} (f : A -> list B) (l : list A) :
  (forall a, a ∈ l -> length (f a) = 1%nat) ->
  length (flat_map f l) = length l.
Proof.
  induction l as [|a l IH]; intros H; [reflexivity|].
  cbn [flat_map length]. rewrite length_app.
  rewrite (H a ltac:(left)), IH; [reflexivity|].
  intros a' Ha'. apply H. right. exact Ha'.
Qed.

Lemma length_left_join {A B : Type} (on : A -> B -> bool) (l : list A) (r : list B) :
  (length l <= length (left_join on l r))%nat.
Proof.
  unfold left_join. apply length_flat_map_ge. intros a _.
  destruct (List.filter (on a) r); simpl; lia.
Qed.

(** A left row that matches at most one right row is joined once. *)
Lemma length_left_join_unique {A B : Type} (on : A -> B -> bool) (l : list A)
    (r : list B) :
  (forall a, a ∈ l -> (length (List.filter (on a) r) <= 1)%nat) ->
  length (left_join on l r) = length l.
Proof.
  intros H. unfold left_join. apply length_flat_map_one. intros a Ha.
  specialize (H a Ha).
  destruct (List.filter (on a) r) as [|b [|b' ms]]; simpl in *; [reflexivity ..|lia].
Qed.

Lemma filter_nodup_unique {A : Type} (P : A -> bool) (l : list A) :
  NoDup l ->
  (forall x y, x ∈ l -> y ∈ l -> P x = true -> P y = true -> x = y) ->
  (length (List.filter P l) <= 1)%nat.
Proof.
  induction 1 as [|x l Hx Hnd IH]; intros Huniq; simpl; [lia|].
  assert (IH' : (length (List.filter P l) <= 1)%nat).
  { apply IH. intros a b Ha Hb. apply Huniq; right; assumption. }
  destruct (P x) eqn:Px; [|exact IH'].
  rewrite (filter_none P l); [simpl; lia|].
  intros y Hy. destruct (P y) eqn:Py; [|reflexivity].
  exfalso. apply Hx.
  rewrite (Huniq x y); [exact Hy | left | right; exact Hy | exact Px | exact Py].
Qed.

Lemma list_sum_cons {K : Type} (f : K -> nat) (k : K) (ks : list K) :
  list_sum (map f (k :: ks)) = (f k + list_sum (map f ks))%nat.
Proof. reflexivity. Qed.

Section Partition.

Context {A K : Type} `{EqDecision K} (key : A -> K).

Lemma group_sizes_one (ks : list K) (k0 : K) :
  NoDup ks -> k0 ∈ ks ->
  list_sum (map (fun k => if bool_decide (k0 = k) then 1 else 0)%nat ks) = 1%nat.
Proof.
  induction 1 as [|k ks Hk Hnd IH]; intros Hin; [inversion Hin|].
  simpl. destruct (decide (k0 = k)) as [->|Hne].
  - rewrite bool_decide_eq_true_2 by reflexivity.
    assert (Hzero : list_sum (map (fun k' => if bool_decide (k = k') then 1 else 0)%nat ks)
                    = 0%nat).
    { clear IH Hin Hnd. induction ks as [|k' ks IH]; simpl; [reflexivity|].
      apply not_elem_of_cons in Hk as [Hne Hk].
      rewrite bool_decide_eq_false_2 by exact Hne. apply IH. exact Hk. }
    rewrite Hzero. reflexivity.
  - rewrite bool_decide_eq_false_2 by exact Hne.
    apply elem_of_cons in Hin as [->|Hin]; [congruence|].
    rewrite IH by exact Hin. reflexivity.
Qed.

Lemma group_sizes (ks : list K) (l : list A) :
  NoDup ks -> (forall a, a ∈ l -> key a ∈ ks) ->
  list_sum (map (fun k => length (List.filter (fun a => bool_decide (key a = k)) l)) ks)
  = length l.
Proof.
  intros Hnd. induction l as [|a l IH]; intros Hks.
  - simpl. clear Hnd Hks. induction ks as [|k ks IHk]; simpl; [reflexivity | exact IHk].
  - assert (Hsplit :
      list_sum (map (fun k => length (List.filter (fun a' => bool_decide (key a' = k))
                                                  (a :: l))) ks)
      = (list_sum (map (fun k => if bool_decide (key a = k) then 1 else 0)%nat ks)
         + list_sum (map (fun k => length (List.filter
                                             (fun a' => bool_decide (key a' = k)) l))
                         ks))%nat).
    { clear. induction ks as [|k ks IHk]; [reflexivity|].
      rewrite !list_sum_cons, IHk. cbn [List.filter].
      destruct (bool_decide (key a = k)); cbn [length]; lia. }
    rewrite Hsplit, (group_sizes_one ks (key a) Hnd (Hks a ltac:(left))).
    rewrite IH by (intros a' Ha'; apply Hks; right; exact Ha').
    reflexivity.
Qed.

(** The groups of GROUP BY split the table: an aggregate that keeps the
    number of rows of each group keeps the number of rows of the table. *)
Lemma length_groups {B : Type} (f : list A -> list B) (l : list A) :
  (forall rows, length (f rows) = length rows) ->
  length (flat_map (fun g => f (snd g)) (group_by key l)) = length l.
Proof.
  intros Hf. unfold group_by, distinct.
  rewrite <- (group_sizes (remove_dups (map key l)) l (NoDup_remove_dups _)).
  - induction (remove_dups (map key l)) as [|k ks IH]; simpl; [reflexivity|].
    rewrite length_app, Hf, IH. reflexivity.
  - intros a Ha. apply elem_of_remove_dups, list_elem_of_fmap. exists a. auto.
Qed.

Lemma elem_of_groups {B : Type} (f : list A -> list B) (l : list A) (a : A) (b : B) :
  a ∈ l ->
  b ∈ f (List.filter (fun a' => bool_decide (key a' = key a)) l) ->
  b ∈ flat_map (fun g => f (snd g)) (group_by key l).
Proof.
  intros Ha Hb. apply list_elem_of_In, List.in_flat_map.
  exists (key a, List.filter (fun a' => bool_decide (key a' = key a)) l).
  split; [|apply list_elem_of_In, Hb].
  unfold group_by, distinct. apply list_elem_of_In, list_elem_of_fmap.
  exists (key a). split; [reflexivity|].
  apply elem_of_remove_dups, list_elem_of_fmap. exists a. auto.
Qed.

End Partition.

(** *** gold_xg_timeline *)

(** The columns a row of the timeline copies from its shot. *)
Definition timeline_columns (r : xg_timeline_row) :=
  (xt_match_id r, xt_team_id r, xt_period r, xt_minute r, xt_second r,
   xt_xg r, xt_is_goal r, xt_outcome r).

Definition shot_timeline_columns (s : shot_row) :=
  (s_match_id s, s_team_id s, s_period s, s_minute s, s_second s,
   s_xg s, s_is_goal s, s_outcome s).

(** No (match, team) pair of fact_events carries two team names. *)
Definition one_name_per_team (fact_events : list event_row) : Prop :=
  forall e1 e2, e1 ∈ fact_events -> e2 ∈ fact_events ->
    ev_match_id e1 = ev_match_id e2 -> ev_team_id e1 = ev_team_id e2 ->
    ev_team e1 = ev_team e2.

Lemma length_with_cumulative (acc : option Q) (part : list shot_team) :
  length (with_cumulative acc part) = length part.
Proof.
  revert acc. induction part as [|j part IH]; intros acc; simpl; [reflexivity|].
  rewrite IH. reflexivity.
Qed.

Lemma with_cumulative_covers (acc : option Q) (part : list shot_team) (j : shot_team) :
  j ∈ part -> exists c, timeline_row j c ∈ with_cumulative acc part.
Proof.
  revert acc. induction part as [|j' part IH]; intros acc Hj; [inversion Hj|].
  simpl. apply elem_of_cons in Hj as [->|Hj].
  - eexists. left.
  - destruct (IH (add_null acc (s_xg (fst j'))) Hj) as [c Hc].
    exists c. right. exact Hc.
Qed.

Lemma length_window (rows : list shot_team) : length (window rows) = length rows.
Proof.
  unfold window. rewrite length_with_cumulative.
  apply Permutation_length, order_by_perm.
Qed.

Lemma length_xg_timeline (fact_shots : list shot_row) (fact_events : list event_row) :
  length (build_gold_xg_timeline fact_shots fact_events)
  = length (left_join on_team fact_shots (team_names fact_events)).
Proof.
  unfold build_gold_xg_timeline.
  rewrite (Permutation_length (order_by_perm _ _)).
  apply (length_groups partition_key window), length_window.
Qed.

Lemma team_names_unique (fact_events : list event_row) (s : shot_row) :
  one_name_per_team fact_events ->
  (length (List.filter (on_team s) (team_names fact_events)) <= 1)%nat.
Proof.
  intros Hone. apply filter_nodup_unique.
  - apply NoDup_remove_dups.
  - intros x y Hx Hy Px Py. unfold team_names, distinct in Hx, Hy.
    apply elem_of_remove_dups, list_elem_of_fmap in Hx as [e1 [-> He1]].
    apply elem_of_remove_dups, list_elem_of_fmap in Hy as [e2 [-> He2]].
    unfold on_team in Px, Py. simpl in Px, Py.
    apply andb_true_iff in Px as [Pm1 Pt1]. apply andb_true_iff in Py as [Pm2 Pt2].
    assert (Heq : forall a b c, eqb a b = true -> eqb a c = true -> b = c).
    { intros [a|] [b|] [c|]; simpl; try discriminate.
      intros H1 H2. apply Z.eqb_eq in H1, H2. congruence. }
    pose proof (Heq _ _ _ Pm1 Pm2) as Hm. pose proof (Heq _ _ _ Pt1 Pt2) as Ht.
    rewrite (Hone e1 e2 He1 He2 Hm Ht), Hm, Ht. reflexivity.
Qed.

(** X16. gold_xg_timeline loses no shot and invents none: every shot of
    fact_shots has a row with its match, team, time, xg and outcome, every
    row comes from a shot, and the table, which is in (match, team, period,
    minute, second) order, has at least as many rows as fact_shots. *)
Theorem xg_timeline_keeps_every_shot (fact_shots : list shot_row)
    (fact_events : list event_row) :
  let tl := build_gold_xg_timeline fact_shots fact_events in
  (forall s, s ∈ fact_shots ->
     exists r, r ∈ tl /\ timeline_columns r = shot_timeline_columns s) /\
  (forall r, r ∈ tl ->
     exists s, s ∈ fact_shots /\ timeline_columns r = shot_timeline_columns s) /\
  (length fact_shots <= length tl)%nat /\
  StronglySorted (fun a b => row_leb timeline_order a b = true) tl.
Proof.
  intros tl. subst tl. split; [|split; [|split]].
  - intros s Hs.
    destruct (left_join_covers on_team fact_shots (team_names fact_events) s Hs)
      as [b Hj].
    set (joined := left_join on_team fact_shots (team_names fact_events)) in *.
    set (rows := List.filter
                   (fun j => bool_decide (partition_key j = partition_key (s, b)))
                   joined).
    assert (Hrows : (s, b) ∈ rows).
    { apply list_elem_of_In, List.filter_In.
      split; [apply list_elem_of_In, Hj | apply bool_decide_eq_true_2; reflexivity]. }
    assert (Hsorted : (s, b) ∈ order_by window_key rows).
    { rewrite (order_by_perm window_key rows). exact Hrows. }
    destruct (with_cumulative_covers None _ _ Hsorted) as [c Hc].
    exists (timeline_row (s, b) c). split; [|reflexivity].
    unfold build_gold_xg_timeline. fold joined.
    rewrite (order_by_perm timeline_order).
    apply (elem_of_groups partition_key window joined (s, b)); assumption.
  - intros r Hr. unfold build_gold_xg_timeline in Hr.
    rewrite (order_by_perm timeline_order) in Hr.
    apply list_elem_of_In, List.in_flat_map in Hr as [g [Hg Hr]].
    apply list_elem_of_In, elem_of_group_by in Hg as [Hrows _].
    apply list_elem_of_In, elem_of_with_cumulative in Hr as [j [c [Hj ->]]].
    rewrite (order_by_perm window_key) in Hj. rewrite Hrows in Hj.
    apply list_elem_of_In, List.filter_In in Hj as [Hj _].
    apply list_elem_of_In, elem_of_left_join in Hj.
    exists (fst j). split; [exact Hj | reflexivity].
  - rewrite length_xg_timeline. apply length_left_join.
  - unfold build_gold_xg_timeline. apply order_by_sorted.
Qed.

(** X17. When no (match, team) pair of fact_events carries two team names,
    gold_xg_timeline has exactly one row per shot. *)
Theorem xg_timeline_one_row_per_shot (fact_shots : list shot_row)
    (fact_events : list event_row) :
  one_name_per_team fact_events ->
  length (build_gold_xg_timeline fact_shots fact_events) = length fact_shots.
Proof.
  intros Hone. rewrite length_xg_timeline.
  apply length_left_join_unique. intros s _.
  apply team_names_unique. exact Hone.
Qed.

Lemma one_name_in_both_teams : one_name_per_team events_of_both_teams.
Proof.
  intros e1 e2 H1 H2 Hm Ht. unfold events_of_both_teams in H1, H2.
  repeat (apply elem_of_cons in H1 as [-> | H1]);
    repeat (apply elem_of_cons in H2 as [-> | H2]);
    try reflexivity; try discriminate Ht;
    try (inversion H1); try (inversion H2).
Qed.

Lemma xg_timeline_one_row_per_shot_witness :
  length (build_gold_xg_timeline shots_of_match_7 events_of_both_teams)
  = length shots_of_match_7.
Proof.
  apply (xg_timeline_one_row_per_shot shots_of_match_7 events_of_both_teams).
  exact one_name_in_both_teams.
Defined.

(** *** gold_team_stats *)

Lemma count_filter_le {A : Type} (P : A -> bool) (l : list A) :
  0 <= count (List.filter P l) <= count l.
Proof.
  unfold count. pose proof (List.filter_length_le P l). lia.
Qed.

Lemma round_percentage (q : Q) :
  (0 <= q)%Q -> (q <= 100)%Q -> (0 <= round q 1)%Q /\ (round q 1 <= 100)%Q.
Proof.
  intros H0 H100. unfold round.
  change (inject_Z (10 ^ 1)) with 10%Q.
  assert (Hs : (0 <= q * 10)%Q) by lra.
  destruct (Qle_bool 0 (q * 10)) eqn:E.
  2:{ apply Qle_bool_iff in Hs. congruence. }
  assert (Hlo : 0 <= Qfloor (q * 10 + (1 # 2))).
  { change 0 with (Qfloor 0). apply Qfloor_resp_le. lra. }
  assert (Hhi : Qfloor (q * 10 + (1 # 2)) <= 1000).
  { change 1000 with (Qfloor (1000 + (1 # 2))). apply Qfloor_resp_le. lra. }
  split.
  - apply Qle_shift_div_l; [reflexivity|].
    rewrite Qmult_0_l. change 0%Q with (inject_Z 0). rewrite <- Zle_Qle. exact Hlo.
  - apply Qle_shift_div_r; [reflexivity|].
    change (100 * 10)%Q with (inject_Z 1000). rewrite <- Zle_Qle. exact Hhi.
Qed.

Lemma percentage_of_filter {A : Type} (P : A -> bool) (l : list A) :
  0 < count l ->
  (0 <= round (100 * inject_Z (count (List.filter P l)) / inject_Z (count l)) 1)%Q /\
  (round (100 * inject_Z (count (List.filter P l)) / inject_Z (count l)) 1 <= 100)%Q.
Proof.
  intros Hn. destruct (count_filter_le P l) as [Hc0 Hcn].
  assert (Hn' : (0 < inject_Z (count l))%Q).
  { change 0%Q with (inject_Z 0). rewrite <- Zlt_Qlt. exact Hn. }
  assert (Hc0' : (0 <= inject_Z (count (List.filter P l)))%Q).
  { change 0%Q with (inject_Z 0). rewrite <- Zle_Qle. exact Hc0. }
  assert (Hcn' : (inject_Z (count (List.filter P l)) <= inject_Z (count l))%Q).
  { rewrite <- Zle_Qle. exact Hcn. }
  remember (inject_Z (count l)) as n eqn:En.
  remember (inject_Z (count (List.filter P l))) as c eqn:Ec.
  clear En Ec.
  apply round_percentage.
  - apply Qle_shift_div_l; [exact Hn' | lra].
  - apply Qle_shift_div_r; [exact Hn' | lra].
Qed.

Lemma pass_completion_pct_bounds (ps : list pass_row) :
  (pass_completion_pct ps = None <-> count ps = 0) /\
  (forall p, pass_completion_pct ps = Some p -> (0 <= p)%Q /\ (p <= 100)%Q).
Proof.
  unfold pass_completion_pct. destruct ps as [|x ps].
  - split; [split; reflexivity | discriminate].
  - assert (Hn : 0 < count (x :: ps)) by (unfold count; simpl; lia).
    split.
    + split; [discriminate | lia].
    + intros p Hp. injection Hp as <-.
      exact (percentage_of_filter p_is_completed (x :: ps) Hn).
Qed.

Lemma team_stats_group (fact_shots : list shot_row) (fact_passes : list pass_row)
    (fact_carries : list carry_row) (fact_events : list event_row)
    (r : team_stats_row) :
  r ∈ build_gold_team_stats fact_shots fact_passes fact_carries fact_events ->
  exists rows j,
    j ∈ rows /\
    (forall j', j' ∈ rows -> fst j' ∈ fact_shots) /\
    r = stats_of fact_passes fact_carries fact_events
          (ts_match_id r, ts_team_id r, ts_team_name r, rows).
Proof.
  unfold build_gold_team_stats. intros Hr.
  apply list_elem_of_fmap in Hr as [g [-> Hg]].
  apply elem_of_group_by in Hg as [Hrows [j Hj]].
  destruct g as [[[m t] team] rows]. simpl in *.
  exists rows, j. split; [exact Hj|]. split; [|reflexivity].
  intros j' Hj'. rewrite Hrows in Hj'.
  apply list_elem_of_In, List.filter_In in Hj' as [Hj' _].
  apply list_elem_of_In, elem_of_left_join in Hj'. exact Hj'.
Qed.

(** X18. The figures of a gold_team_stats row are consistent: it counts at
    least one shot, goals and shots on target are between 0 and the number
    of shots, the pass completion is NULL exactly when the team has no
    pass in the match and is otherwise a percentage between 0 and 100. *)
Theorem team_stats_figures_consistent (fact_shots : list shot_row)
    (fact_passes : list pass_row) (fact_carries : list carry_row)
    (fact_events : list event_row) (r : team_stats_row) :
  r ∈ build_gold_team_stats fact_shots fact_passes fact_carries fact_events ->
  1 <= ts_total_shots r /\
  0 <= ts_goals r <= ts_total_shots r /\
  0 <= ts_shots_on_target r <= ts_total_shots r /\
  0 <= ts_total_passes r /\ 0 <= ts_total_carries r /\ 0 <= ts_total_pressures r /\
  (ts_pass_completion_pct r = None <-> ts_total_passes r = 0) /\
  (forall p, ts_pass_completion_pct r = Some p -> (0 <= p)%Q /\ (p <= 100)%Q).
Proof.
  intros Hr.
  destruct (team_stats_group _ _ _ _ r Hr) as [rows [j [Hj [_ ->]]]]. simpl.
  split.
  { unfold count. destruct rows; [inversion Hj | simpl; lia]. }
  split; [apply count_filter_le|]. split; [apply count_filter_le|].
  split; [unfold count; lia|]. split; [unfold count; lia|].
  split; [unfold count; lia|].
  apply pass_completion_pct_bounds.
Qed.

(** X19. On the fact_shots table the silver stage builds, every goal is a
    shot on target: in each gold_team_stats row goals is at most
    shots_on_target. *)
Theorem goals_are_shots_on_target (to_numeric : cell -> option Q)
    (astype_Int64 : option Q -> option Z) (df : Silver.DataFrame)
    (fact_passes : list pass_row) (fact_carries : list carry_row)
    (fact_events : list event_row) (r : team_stats_row) :
  r ∈ build_gold_team_stats (Silver.fact_shots_rows to_numeric astype_Int64 df)
        fact_passes fact_carries fact_events ->
  ts_goals r <= ts_shots_on_target r.
Proof.
  intros Hr.
  destruct (team_stats_group _ _ _ _ r Hr) as [rows [_ [_ [Hshots ->]]]]. simpl.
  unfold count. apply inj_le.
  induction rows as [|j rows IH]; simpl; [lia|].
  assert (Hj : s_is_goal (fst j) = str_eq (s_outcome (fst j)) "Goal").
  { specialize (Hshots j ltac:(left)). unfold Silver.fact_shots_rows in Hshots.
    apply list_elem_of_fmap in Hshots as [row [-> _]]. reflexivity. }
  assert (IH' : (length (List.filter (fun j => s_is_goal (fst j)) rows)
                 <= length (List.filter
                              (fun j => str_eq (s_outcome (fst j)) "Saved"
                                        || str_eq (s_outcome (fst j)) "Goal") rows))%nat).
  { apply IH. intros j' Hj'. apply Hshots. right. exact Hj'. }
  rewrite Hj. destruct (str_eq (s_outcome (fst j)) "Goal").
  - rewrite orb_true_r. simpl. lia.
  - destruct (str_eq (s_outcome (fst j)) "Saved"); simpl; lia.
Qed.

Lemma team_stats_figures_consistent_witness :
  exists r,
    r ∈ build_gold_team_stats goal_of_team_1 passes_of_both_teams [carry 7 2]
          events_of_both_teams /\
    1 <= ts_total_shots r /\ 0 <= ts_goals r <= ts_total_shots r.
Proof.
  assert (Hin : stats_of passes_of_both_teams [carry 7 2] events_of_both_teams
                  (Some 7, Some 1, CStr "Ecuador",
                   [(shot 7 1 1 16 2 (Some (45#100)) true,
                     Some (Some 7, Some 1, CStr "Ecuador"))])
                ∈ build_gold_team_stats goal_of_team_1 passes_of_both_teams
                    [carry 7 2] events_of_both_teams).
  { vm_compute. left. }
  eexists. split; [exact Hin|].
  destruct (team_stats_figures_consistent _ _ _ _ _ Hin) as (H1 & H2 & _).
  split; [exact H1 | exact H2].
Defined.

Lemma goals_are_shots_on_target_witness :
  exists r,
    r ∈ build_gold_team_stats
          (Silver.fact_shots_rows Silver.numeric_of_cell Silver.int_of_numeric
             Silver.events_frame) [] [] [] /\
    ts_goals r <= ts_shots_on_target r.
Proof.
  assert (Hin : exists r,
    r ∈ build_gold_team_stats
          (Silver.fact_shots_rows Silver.numeric_of_cell Silver.int_of_numeric
             Silver.events_frame) [] [] []).
  { eexists. vm_compute. left. }
  destruct Hin as [r Hin]. exists r. split; [exact Hin|].
  exact (goals_are_shots_on_target _ _ _ _ _ _ r Hin).
Defined.

End GoldTables.

(** ** pipeline/gold.py: the nodes of the pass network *)

Module PassNetwork.

Import Sql Gold.

Record pass_network_node : Type := {
  n_match_id : option Z;
  n_team_id : option Z;
  n_player_id : option Z;
  n_player_name : cell;
  n_avg_x : option Q;
  n_avg_y : option Q;
  n_pass_count : Z
}.

(** A row of [fact_passes p LEFT JOIN (...) e]. *)
Definition passer_names : Type :=
  pass_row * option (option Z * option Z * option Z * cell).

(** [GROUP BY p.match_id, p.team_id, p.player_id, e.player] *)
Definition node_key (j : passer_names) : option Z * option Z * option Z * cell :=
  (p_match_id (fst j), p_team_id (fst j), p_player_id (fst j), joined_name (snd j)).

(** The SELECT list over one group. *)
Definition node_of (g : option Z * option Z * option Z * cell * list passer_names)
  : pass_network_node :=
  let '(m, t, player, name, rows) := g in
  {| n_match_id := m;
     n_team_id := t;
     n_player_id := player;
     n_player_name := name;
     n_avg_x := avg (map (fun j => p_location_x (fst j)) rows);
     n_avg_y := avg (map (fun j => p_location_y (fst j)) rows);
     n_pass_count := count rows |}.

Definition build_gold_pass_network_nodes (fact_passes : list pass_row)
    (fact_events : list event_row) : list pass_network_node :=
  let joined := left_join on_passer fact_passes (team_player_names fact_events) in
  let kept := List.filter (fun j => p_is_completed (fst j)) joined in
  map node_of (group_by node_key kept).

Example nodes_of_match_7 :
  map (fun n => (n_player_id n, n_pass_count n))
      (build_gold_pass_network_nodes passes_of_match_7 [])
  = [(Some 10, 2)].
Proof. vm_compute. reflexivity. Qed.

(** *** Edges and nodes *)

Lemma filter_and {A : Type} (P Q : A -> bool) (l : list A) :
  List.filter Q (List.filter P l) = List.filter (fun a => P a && Q a) l.
Proof.
  induction l as [|a l IH]; simpl; [reflexivity|].
  destruct (P a); simpl; rewrite IH; reflexivity.
Qed.

Lemma filter_flat_map_le {A B : Type} (g : A -> list B) (Q : B -> bool)
    (Q' : A -> bool) (l : list A) :
  (forall a, a ∈ l ->
     (length (List.filter Q (g a)) <= if Q' a then 1 else 0)%nat) ->
  (length (List.filter Q (flat_map g l)) <= length (List.filter Q' l))%nat.
Proof.
  induction l as [|a l IH]; intros H; [simpl; lia|].
  cbn [flat_map List.filter]. rewrite List.filter_app, length_app.
  specialize (H a ltac:(left)) as Ha.
  assert (IH' : (length (List.filter Q (flat_map g l))
                 <= length (List.filter Q' l))%nat).
  { apply IH. intros a' Ha'. apply H. right. exact Ha'. }
  destruct (Q' a); cbn [length]; lia.
Qed.

Lemma eqb_same (a b c : option Z) : eqb a b = true -> eqb a c = true -> b = c.
Proof.
  destruct a, b, c; simpl; try discriminate.
  intros H1 H2. apply Z.eqb_eq in H1, H2. congruence.
Qed.

Section Edge.

Variables (fact_events : list event_row).
Variable k : option Z * option Z * option Z * option Z * cell * cell.

(** The rows of the edge with key [k] and of the node of its passer. *)
Let in_edge (j : pass_names) : bool :=
  completed_with_recipient j && bool_decide (edge_key j = k).

Let in_node (j : passer_names) : bool :=
  p_is_completed (fst j)
  && bool_decide (node_key j = (fst (fst (fst (fst (fst k)))),
                                snd (fst (fst (fst (fst k)))),
                                snd (fst (fst (fst k))),
                                snd (fst k))).

Let joined_recipients (j : passer_names) : list pass_names :=
  match List.filter (on_recipient j) (player_names fact_events) with
  | [] => [(j, None)]
  | ms => map (fun b => (j, Some b)) ms
  end.

Lemma in_edge_in_node (j : passer_names) (er : option (option Z * option Z * cell)) :
  in_edge (j, er) = true -> in_node j = true.
Proof.
  unfold in_edge, in_node, completed_with_recipient, edge_key, node_key, pass_of.
  simpl. intros H.
  apply andb_true_iff in H as [Hc Hk]. apply andb_true_iff in Hc as [Hc _].
  apply bool_decide_eq_true_1 in Hk. subst k. simpl.
  rewrite Hc. apply bool_decide_eq_true_2. reflexivity.
Qed.

(** A joined pass is in the group of an edge at most once, and only when
    it is in the group of the node. *)
Lemma edge_rows_of_pass (j : passer_names) :
  (length (List.filter in_edge (joined_recipients j))
   <= if in_node j then 1 else 0)%nat.
Proof.
  destruct (in_node j) eqn:Hn.
  - unfold joined_recipients.
    destruct (List.filter (on_recipient j) (player_names fact_events))
      as [|b ms] eqn:E.
    + simpl. destruct (in_edge (j, None)); simpl; lia.
    + rewrite <- E. rewrite SilverRuns.filter_map, length_map, filter_and.
      apply GoldTables.filter_nodup_unique; [apply NoDup_remove_dups|].
      intros x y _ _ Hx Hy.
      apply andb_true_iff in Hx as [Hox Hex]. apply andb_true_iff in Hy as [Hoy Hey].
      unfold on_recipient in Hox, Hoy.
      apply andb_true_iff in Hox as [Hmx Hrx]. apply andb_true_iff in Hoy as [Hmy Hry].
      pose proof (eqb_same _ _ _ Hmx Hmy) as Hm.
      pose proof (eqb_same _ _ _ Hrx Hry) as Hr.
      unfold in_edge in Hex, Hey.
      apply andb_true_iff in Hex as [_ Hkx]. apply andb_true_iff in Hey as [_ Hky].
      apply bool_decide_eq_true_1 in Hkx, Hky.
      assert (Hname : snd x = snd y).
      { unfold edge_key in Hkx, Hky. simpl in Hkx, Hky.
        destruct x as [[xm xp] xn], y as [[ym yp] yn]. simpl in *. congruence. }
      destruct x as [[xm xp] xn], y as [[ym yp] yn]. simpl in *. congruence.
  - rewrite (filter_none in_edge); [simpl; lia|].
    intros [j' er] Hj.
    assert (Hj' : j' = j).
    { unfold joined_recipients in Hj.
      destruct (List.filter (on_recipient j) (player_names fact_events)).
      - apply list_elem_of_singleton in Hj. congruence.
      - apply list_elem_of_fmap in Hj as [b [Hb _]]. congruence. }
    subst j'. apply not_true_is_false. intros He.
    apply in_edge_in_node in He. congruence.
Qed.

Lemma edge_rows_le_node_rows (joined : list passer_names) :
  (length (List.filter in_edge
             (left_join on_recipient joined (player_names fact_events)))
   <= length (List.filter in_node joined))%nat.
Proof.
  unfold left_join.
  apply (filter_flat_map_le joined_recipients in_edge in_node).
  intros j _. apply edge_rows_of_pass.
Qed.

End Edge.

(** X20. Every edge of the pass network starts at a node: the passer of a
    gold_pass_network_edges row has a gold_pass_network_nodes row for the
    same match and team, under the same name, and the edge counts at most
    as many passes as that node. *)
Theorem edge_passer_is_node (fact_passes : list pass_row)
    (fact_events : list event_row) (e : pass_network_edge) :
  e ∈ build_gold_pass_network_edges fact_passes fact_events ->
  exists n,
    n ∈ build_gold_pass_network_nodes fact_passes fact_events /\
    n_match_id n = e_match_id e /\ n_team_id n = e_team_id e /\
    n_player_id n = e_passer_id e /\ n_player_name n = e_passer_name e /\
    e_pass_count e <= n_pass_count n.
Proof.
  unfold build_gold_pass_network_edges, build_gold_pass_network_nodes. intros H.
  set (joined := left_join on_passer fact_passes (team_player_names fact_events)) in *.
  apply list_elem_of_fmap in H as [g [-> Hg]].
  apply list_elem_of_In, List.filter_In in Hg as [Hg _].
  apply list_elem_of_In, elem_of_group_by in Hg as [Hrows [j0 Hj0]].
  destruct g as [[[[[[m t] passer] recipient] pname] rname] rows].
  simpl in Hrows, Hj0.
  set (k := (m, t, passer, recipient, pname, rname)) in *.
  set (kn := (m, t, passer, pname)).
  rewrite Hrows in Hj0.
  apply list_elem_of_In, List.filter_In in Hj0 as [Hj0 Hk0].
  apply List.filter_In in Hj0 as [Hj0 Hc0].
  apply bool_decide_eq_true_1 in Hk0.
  destruct j0 as [j er]. apply list_elem_of_In, elem_of_left_join in Hj0.
  simpl in Hj0.
  assert (Hkept : j ∈ List.filter (fun j => p_is_completed (fst j)) joined).
  { apply list_elem_of_In, List.filter_In. split; [apply list_elem_of_In, Hj0|].
    unfold completed_with_recipient, pass_of in Hc0. simpl in Hc0.
    apply andb_true_iff in Hc0 as [Hc0 _]. exact Hc0. }
  assert (Hkey : node_key j = kn).
  { unfold edge_key, pass_of in Hk0. simpl in Hk0. unfold node_key, kn, k in *.
    congruence. }
  exists (node_of (kn, List.filter (fun j' => bool_decide (node_key j' = kn))
                         (List.filter (fun j => p_is_completed (fst j)) joined))).
  split.
  - apply list_elem_of_fmap. eexists. split; [reflexivity|].
    unfold group_by, distinct. apply list_elem_of_fmap. exists kn.
    split; [reflexivity|].
    apply elem_of_remove_dups, list_elem_of_fmap. exists j. auto.
  - simpl. repeat (split; [reflexivity|]).
    rewrite Hrows. unfold count. apply inj_le.
    rewrite !filter_and.
    exact (edge_rows_le_node_rows fact_events k joined).
Qed.

Lemma edge_passer_is_node_witness :
  exists e n,
    e ∈ build_gold_pass_network_edges passes_of_match_7 [] /\
    n ∈ build_gold_pass_network_nodes passes_of_match_7 [] /\
    n_player_id n = e_passer_id e /\ e_pass_count e <= n_pass_count n.
Proof.
  assert (Hin : exists e, e ∈ build_gold_pass_network_edges passes_of_match_7 []).
  { eexists. vm_compute. left. }
  destruct Hin as [e Hin].
  destruct (edge_passer_is_node passes_of_match_7 [] e Hin)
    as (n & Hn & _ & _ & Hp & _ & Hc).
  exists e, n. auto.
Defined.

End PassNetwork.

(** ** pipeline/gold.py: the average positions of gold_formation_positions *)

Module Formation.

Import Sql Gold.

Local Open Scope Q_scope.

(** [match_id, team_id, player_id] *)
Definition player_key : Type := (option Z * option Z * option Z)%type.

(** A row of fact_passes or fact_carries that
    [WHERE location_x IS NOT NULL AND location_y IS NOT NULL] keeps, with the
    columns the query reads. *)
Record touch : Type := {
  t_key : player_key;
  t_x : Q;
  t_y : Q
}.

Definition located (key : player_key) (x y : option Q) : option touch :=
  match x, y with
  | Some x, Some y => Some {| t_key := key; t_x := x; t_y := y |}
  | _, _ => None
  end.

Definition pass_touches (fact_passes : list pass_row) : list touch :=
  omap (fun p => located (p_match_id p, p_team_id p, p_player_id p)
                         (p_location_x p) (p_location_y p)) fact_passes.

Definition carry_touches (fact_carries : list carry_row) : list touch :=
  omap (fun c => located (c_match_id c, c_team_id c, c_player_id c)
                         (c_location_x c) (c_location_y c)) fact_carries.

(** A row of the [touches] CTE. *)
Record touches_row : Type := {
  tr_key : player_key;
  tr_avg_x : option Q;
  tr_avg_y : option Q;
  tr_touch_count : Z
}.

Definition touches_of (g : player_key * list touch) : touches_row :=
  {| tr_key := fst g;
     tr_avg_x := avg (map (fun t => Some (t_x t)) (snd g));
     tr_avg_y := avg (map (fun t => Some (t_y t)) (snd g));
     tr_touch_count := count (snd g) |}.

(** [SELECT ... FROM fact_passes ... GROUP BY match_id, team_id, player_id
     UNION ALL SELECT ... FROM fact_carries ... GROUP BY ...] *)
Definition touches (fact_passes : list pass_row) (fact_carries : list carry_row)
  : list touches_row :=
  (map touches_of (group_by t_key (pass_touches fact_passes))
   ++ map touches_of (group_by t_key (carry_touches fact_carries)))%list.

(** A row of the [agg] CTE. *)
Record agg_row : Type := {
  a_key : player_key;
  a_avg_x : option Q;
  a_avg_y : option Q;
  a_touch_count : Z
}.

(** [SUM(touch_count)] over a group. *)
Definition total_count (rows : list touches_row) : Z :=
  fold_right Z.add 0%Z (map tr_touch_count rows).

(** [SUM(avg * touch_count) / SUM(touch_count)]; the divisor is a sum of
    group sizes and is never 0. *)
Definition weighted (avg_of : touches_row -> option Q) (rows : list touches_row)
  : option Q :=
  match sum (map (fun r => option_map (fun a => a * inject_Z (tr_touch_count r))
                                      (avg_of r)) rows) with
  | Some s => Some (s / inject_Z (total_count rows))
  | None => None
  end.

Definition agg_of (g : player_key * list touches_row) : agg_row :=
  {| a_key := fst g;
     a_avg_x := weighted tr_avg_x (snd g);
     a_avg_y := weighted tr_avg_y (snd g);
     a_touch_count := total_count (snd g) |}.

(** [SELECT ... FROM touches GROUP BY match_id, team_id, player_id] *)
Definition agg (fact_passes : list pass_row) (fact_carries : list carry_row)
  : list agg_row :=
  map agg_of (group_by tr_key (touches fact_passes fact_carries)).

(** The located touches of one player in one match, passes first. *)
Definition touches_of_player (fact_passes : list pass_row)
    (fact_carries : list carry_row) (k : player_key) : list touch :=
  (List.filter (fun t => bool_decide (t_key t = k)) (pass_touches fact_passes)
   ++ List.filter (fun t => bool_decide (t_key t = k)) (carry_touches fact_carries))%list.

Definition total (xs : list Q) : Q := fold_right Qplus 0 xs.

(** The plain mean of a list of coordinates. *)
Definition mean (xs : list Q) : Q := total xs / inject_Z (Z.of_nat (length xs)).

Example agg_of_two_passes_and_a_carry :
  map (fun r => (a_key r, Qred <$> a_avg_x r, a_touch_count r))
      (agg [pass "e1" 7 1 10 (Some 11%Z) CNone; pass "e2" 7 1 10 (Some 11%Z) CNone]
           [{| c_event_id := CNone; c_match_id := Some 7%Z; c_player_id := Some 10%Z;
               c_team_id := Some 1%Z; c_period := None; c_minute := None;
               c_second := None; c_location_x := Some 80; c_location_y := Some 10;
               c_end_location_x := None; c_end_location_y := None;
               c_duration := None; c_under_pressure := false |}])
  = [((Some 7%Z, Some 1%Z, Some 10%Z), Some 60, 3%Z)].
Proof. vm_compute. reflexivity. Qed.

(** *** AVG over values that are not NULL *)

Lemma total_app (xs ys : list Q) : total (xs ++ ys) == total xs + total ys.
Proof.
  induction xs as [|x xs IH]; simpl; [ring|]. rewrite IH. ring.
Qed.

Lemma sum_some (xs : list Q) (a : Q) :
  exists s, fold_left add_null (map Some xs) (Some a) = Some s /\ s == a + total xs.
Proof.
  revert a. induction xs as [|x xs IH]; intros a; simpl.
  - exists a. split; [reflexivity | ring].
  - destruct (IH (a + x)) as [s [Hs Hsum]]. exists s. split; [exact Hs|].
    rewrite Hsum. ring.
Qed.

Lemma length_not_null (xs : list Q) :
  length (List.filter (fun o : option Q => bool_decide (o <> None)) (map Some xs))
  = length xs.
Proof.
  induction xs as [|y ys IH]; simpl; [reflexivity|]. f_equal. exact IH.
Qed.

Lemma avg_some (xs : list Q) :
  xs <> [] -> exists v, avg (map Some xs) = Some v /\ v == mean xs.
Proof.
  destruct xs as [|x xs]; [congruence|]. intros _.
  unfold avg, sum.
  change (fold_left add_null (map Some (x :: xs)) None)
    with (fold_left add_null (map Some xs) (Some x)).
  destruct (sum_some xs x) as [s [Hs Hsum]]. rewrite Hs.
  eexists. split; [reflexivity|].
  unfold mean, count. rewrite length_not_null, Hsum. simpl total. reflexivity.
Qed.

(** *** The groups of [touches] *)

(** The [touches] row of the rows of a player, if there is any. *)
Definition group_row (rows : list touch) : list touches_row :=
  match rows with
  | [] => []
  | t :: _ => [touches_of (t_key t, rows)]
  end.

Lemma group_row_key (rows : list touch) (b : touches_row) :
  b ∈ group_row rows -> exists a, a ∈ rows /\ tr_key b = t_key a.
Proof.
  destruct rows as [|t rows]; simpl; intros H; [inversion H|].
  apply list_elem_of_singleton in H. subst b. exists t. split; [left | reflexivity].
Qed.

Lemma map_touches_of (l : list touch) :
  map touches_of (group_by t_key l)
  = flat_map (fun g => group_row (snd g)) (group_by t_key l).
Proof.
  assert (H : forall g, g ∈ group_by t_key l -> group_row (snd g) = [touches_of g]).
  { intros g Hg. apply elem_of_group_by in Hg as [Hrows [a Ha]].
    destruct g as [k rows]. simpl in *.
    destruct rows as [|t rows]; [inversion Ha|]. simpl.
    assert (Ht : t ∈ List.filter (fun a => bool_decide (t_key a = k)) l).
    { rewrite <- Hrows. left. }
    apply list_elem_of_In, List.filter_In in Ht as [_ Ht].
    apply bool_decide_eq_true_1 in Ht. rewrite Ht. reflexivity. }
  induction (group_by t_key l) as [|g gs IH]; [reflexivity|].
  cbn [map flat_map]. rewrite (H g) by left.
  rewrite IH by (intros g' Hg'; apply H; right; exact Hg'). reflexivity.
Qed.

Lemma touches_of_key (fact_passes : list pass_row) (fact_carries : list carry_row)
    (k : player_key) :
  List.filter (fun r => bool_decide (tr_key r = k)) (touches fact_passes fact_carries)
  = (group_row (List.filter (fun t => bool_decide (t_key t = k))
                            (pass_touches fact_passes))
     ++ group_row (List.filter (fun t => bool_decide (t_key t = k))
                               (carry_touches fact_carries)))%list.
Proof.
  unfold touches. rewrite List.filter_app, !map_touches_of.
  rewrite !(filter_groups t_key tr_key group_row eq_refl group_row_key).
  reflexivity.
Qed.

Lemma nat_pos (n : nat) : 0 < inject_Z (Z.of_nat (S n)).
Proof. change 0 with (inject_Z 0). rewrite <- Zlt_Qlt. lia. Qed.

(** The weighted mean of the averages of two groups is the mean of their
    union; so is the average of one group alone. *)
Lemma weighted_mean (coord : touch -> Q) (avg_of : touches_row -> option Q)
    (ps cs : list touch) :
  (forall g, avg_of (touches_of g) = avg (map (fun t => Some (coord t)) (snd g))) ->
  (ps ++ cs)%list <> [] ->
  exists v,
    weighted avg_of (group_row ps ++ group_row cs) = Some v /\
    v == mean (map coord (ps ++ cs)) /\
    total_count (group_row ps ++ group_row cs) = Z.of_nat (length (ps ++ cs)).
Proof.
  intros Havg Hne.
  assert (Hgroup : forall rows k, rows <> [] ->
            exists v, avg_of (touches_of (k, rows)) = Some v /\
                      v == mean (map coord rows)).
  { intros rows k Hrows. rewrite Havg. simpl.
    rewrite <- (List.map_map coord Some).
    apply avg_some. destruct rows; [congruence | discriminate]. }
  assert (Hrow : forall rows, rows <> [] ->
            exists k, group_row rows = [touches_of (k, rows)]).
  { intros [|t rows] Hrows; [congruence|]. exists (t_key t). reflexivity. }
  assert (Hpos : forall rows : list touch, rows <> [] ->
            0 < inject_Z (Z.of_nat (length rows))).
  { intros [|t rows] Hrows; [congruence|]. apply nat_pos. }
  assert (Hcase : forall rows : list touch, rows = [] \/ rows <> []).
  { intros [|t rows]; [left; reflexivity | right; discriminate]. }
  destruct (Hcase ps) as [->|Hp], (Hcase cs) as [->|Hc].
  - exfalso. apply Hne. reflexivity.
  - destruct (Hrow cs Hc) as [k Hk]. destruct (Hgroup cs k Hc) as [v [Hv Hmean]].
    cbn [group_row app]. rewrite Hk.
    unfold weighted, sum. cbn [map fold_left]. rewrite Hv.
    cbn [option_map add_null total_count map fold_right tr_touch_count touches_of snd].
    eexists. split; [reflexivity|]. split.
    + rewrite Hmean. unfold mean, count. rewrite Z.add_0_r, length_map.
      pose proof (Hpos cs Hc) as Hn.
      remember (inject_Z (Z.of_nat (length cs))) as n. field. lra.
    + unfold count. lia.
  - destruct (Hrow ps Hp) as [k Hk]. destruct (Hgroup ps k Hp) as [v [Hv Hmean]].
    rewrite !app_nil_r. cbn [group_row app]. rewrite Hk.
    unfold weighted, sum. cbn [map fold_left]. rewrite Hv.
    cbn [option_map add_null total_count map fold_right tr_touch_count touches_of snd].
    eexists. split; [reflexivity|]. split.
    + rewrite Hmean. unfold mean, count. rewrite Z.add_0_r, length_map.
      pose proof (Hpos ps Hp) as Hn.
      remember (inject_Z (Z.of_nat (length ps))) as n. field. lra.
    + unfold count. lia.
  - destruct (Hrow ps Hp) as [kp Hkp]. destruct (Hgroup ps kp Hp) as [vp [Hvp Hmp]].
    destruct (Hrow cs Hc) as [kc Hkc]. destruct (Hgroup cs kc Hc) as [vc [Hvc Hmc]].
    rewrite Hkp, Hkc.
    unfold weighted, sum. cbn [app map fold_left]. rewrite Hvp, Hvc.
    cbn [option_map add_null total_count map fold_right tr_touch_count touches_of snd].
    eexists. split; [reflexivity|]. split.
    + rewrite Hmp, Hmc. unfold mean, count.
      rewrite List.map_app, total_app, !length_app, !length_map.
      rewrite Z.add_0_r, Nat2Z.inj_add, !inject_Z_plus.
      pose proof (Hpos ps Hp) as Hnp. pose proof (Hpos cs Hc) as Hnc.
      remember (inject_Z (Z.of_nat (length ps))) as np.
      remember (inject_Z (Z.of_nat (length cs))) as nc.
      field. lra.
    + unfold count. rewrite length_app. lia.
Qed.

(** X21. The two-step average of gold_formation_positions is the plain
    mean: for every player of a match, avg_x and avg_y of the [agg] row are
    the means of location_x and location_y over all the player's passes
    and carries that have a location, and touch_count is their number,
    which is at least 1. *)
Theorem formation_average_is_mean (fact_passes : list pass_row)
    (fact_carries : list carry_row) (r : agg_row) :
  r ∈ agg fact_passes fact_carries ->
  (1 <= a_touch_count r)%Z /\
  a_touch_count r
  = Z.of_nat (length (touches_of_player fact_passes fact_carries (a_key r))) /\
  (exists vx, a_avg_x r = Some vx /\
     vx == mean (map t_x (touches_of_player fact_passes fact_carries (a_key r)))) /\
  (exists vy, a_avg_y r = Some vy /\
     vy == mean (map t_y (touches_of_player fact_passes fact_carries (a_key r)))).
Proof.
  unfold agg. intros Hr.
  apply list_elem_of_fmap in Hr as [g [-> Hg]].
  apply elem_of_group_by in Hg as [Hrows [row Hrow]].
  destruct g as [k rows]. simpl in Hrows, Hrow. cbn [a_key agg_of fst].
  unfold touches_of_player.
  rewrite touches_of_key in Hrows. subst rows.
  set (ps := List.filter (fun t => bool_decide (t_key t = k))
                         (pass_touches fact_passes)) in *.
  set (cs := List.filter (fun t => bool_decide (t_key t = k))
                         (carry_touches fact_carries)) in *.
  assert (Hne : (ps ++ cs)%list <> []).
  { intros Hnil. apply app_eq_nil in Hnil as [Hp Hc]. rewrite Hp, Hc in Hrow.
    inversion Hrow. }
  destruct (weighted_mean t_x tr_avg_x ps cs (fun g => eq_refl) Hne)
    as [vx [Hvx [Hmx Hcount]]].
  destruct (weighted_mean t_y tr_avg_y ps cs (fun g => eq_refl) Hne)
    as [vy [Hvy [Hmy _]]].
  cbn [a_touch_count a_avg_x a_avg_y agg_of snd].
  split; [|split; [exact Hcount|split; [exists vx; auto | exists vy; auto]]].
  rewrite Hcount. destruct (ps ++ cs)%list; [congruence | simpl; lia].
Qed.

Lemma formation_average_is_mean_witness :
  exists r vx,
    r ∈ agg passes_of_match_7 [carry 7 1] /\
    a_avg_x r = Some vx /\
    vx == mean (map t_x (touches_of_player passes_of_match_7 [carry 7 1] (a_key r))).
Proof.
  assert (Hin : exists r, r ∈ agg passes_of_match_7 [carry 7 1]).
  { eexists. vm_compute. left. }
  destruct Hin as [r Hin].
  destruct (formation_average_is_mean passes_of_match_7 [carry 7 1] r Hin)
    as (_ & _ & [vx [Hvx Hmean]] & _).
  exists r, vx. auto.
Defined.

End Formation.

(** ** pipeline/silver.py: the rows of dim_player and dim_team *)

Module SilverDims.

Import Sql.

(** *** [drop_duplicates(subset=...)] *)

Section DropDuplicates.

Context {A K : Type} `{EqDecision K} (key : A -> K).

(** The rows whose key is not in [seen] and was not met earlier. *)
Fixpoint drop_duplicates_from (seen : list K) (l : list A) : list A :=
  match l with
  | [] => []
  | a :: rest =>
      if bool_decide (key a ∈ seen) then drop_duplicates_from seen rest
      else a :: drop_duplicates_from (key a :: seen) rest
  end.

(** [df.drop_duplicates(subset=key)], which keeps the first row of each
    key. *)
Definition drop_duplicates (l : list A) : list A := drop_duplicates_from [] l.

Lemma elem_of_drop_from (seen : list K) (l : list A) (a : A) :
  a ∈ drop_duplicates_from seen l -> a ∈ l /\ key a ∉ seen.
Proof.
  revert seen. induction l as [|b l IH]; intros seen H; simpl in H; [inversion H|].
  destruct (bool_decide (key b ∈ seen)) eqn:E.
  - destruct (IH _ H) as [Hl Hs]. split; [right; exact Hl | exact Hs].
  - apply bool_decide_eq_false_1 in E.
    apply elem_of_cons in H as [->|H]; [split; [left | exact E]|].
    destruct (IH _ H) as [Hl Hs]. split; [right; exact Hl|].
    intros Hin. apply Hs. right. exact Hin.
Qed.

Lemma drop_from_nodup (seen : list K) (l : list A) :
  NoDup (map key (drop_duplicates_from seen l)).
Proof.
  revert seen. induction l as [|b l IH]; intros seen; simpl; [constructor|].
  destruct (bool_decide (key b ∈ seen)); [apply IH|].
  simpl. constructor; [|apply IH].
  intros Hin. apply list_elem_of_fmap in Hin as [a [Hk Ha]].
  apply elem_of_drop_from in Ha as [_ Ha]. apply Ha. rewrite <- Hk. left.
Qed.

Lemma drop_from_covers (seen : list K) (l : list A) (a : A) :
  a ∈ l -> key a ∉ seen ->
  exists d, d ∈ drop_duplicates_from seen l /\ key d = key a.
Proof.
  revert seen. induction l as [|b l IH]; intros seen Ha Hs; [inversion Ha|].
  simpl. destruct (bool_decide (key b ∈ seen)) eqn:E.
  - apply bool_decide_eq_true_1 in E.
    apply elem_of_cons in Ha as [->|Ha]; [contradiction|].
    apply IH; assumption.
  - destruct (decide (key a = key b)) as [Heq|Hne].
    + exists b. split; [left | congruence].
    + apply elem_of_cons in Ha as [->|Ha]; [congruence|].
      destruct (IH (key b :: seen) Ha) as [d [Hd Hk]].
      { intros Hin. apply elem_of_cons in Hin as [?|?]; congruence. }
      exists d. split; [right; exact Hd | exact Hk].
Qed.

(** The row kept for a key is the first row of the table with that key. *)
Lemma drop_from_first (seen : list K) (l : list A) (d : A) :
  d ∈ drop_duplicates_from seen l ->
  exists i, l !! i = Some d /\
            forall j a, (j < i)%nat -> l !! j = Some a -> key a <> key d.
Proof.
  revert seen. induction l as [|b l IH]; intros seen H; simpl in H; [inversion H|].
  destruct (bool_decide (key b ∈ seen)) eqn:E.
  - apply bool_decide_eq_true_1 in E.
    pose proof (elem_of_drop_from _ _ _ H) as [_ Hd].
    destruct (IH _ H) as [i [Hi Hfirst]]. exists (S i). split; [exact Hi|].
    intros [|j] a Hj Ha; simpl in Ha.
    + injection Ha as <-. congruence.
    + apply (Hfirst j a); [lia | exact Ha].
  - apply elem_of_cons in H as [->|H].
    + exists 0%nat. split; [reflexivity|]. intros j a Hj. lia.
    + pose proof (elem_of_drop_from _ _ _ H) as [_ Hd].
      destruct (IH _ H) as [i [Hi Hfirst]]. exists (S i). split; [exact Hi|].
      intros [|j] a Hj Ha; simpl in Ha.
      * injection Ha as <-. intros Heq. apply Hd. rewrite Heq. left.
      * apply (Hfirst j a); [lia | exact Ha].
Qed.

End DropDuplicates.

(** *** dim_player *)

(** A row of the bronze lineups frame, with the columns [build_dim_player]
    reads; [l_country] is [_col(df, "country")], all None when the frame has
    no such column. *)
Record lineup_row : Type := {
  l_player_id : option Z;
  l_player_name : cell;
  l_country : cell
}.

#[global] Instance lineup_row_eq_dec : EqDecision lineup_row.
Proof. solve_decision. Defined.

(** The frame [out] of [build_dim_player]:
    [df[["player_id", "player_name"]].drop_duplicates(subset=["player_id"])],
    then the country of the same row label. *)
Definition dim_player_rows (lineups : list lineup_row) : list lineup_row :=
  drop_duplicates l_player_id lineups.

(** X22. dim_player holds one row per player_id of the lineups, the first
    lineup row of that player: player_id is unique in the table, no player
    is missing, and name and country are those of the player's first row. *)
Theorem dim_player_one_row_per_player (lineups : list lineup_row) :
  NoDup (map l_player_id (dim_player_rows lineups)) /\
  (forall r, r ∈ lineups ->
     exists d, d ∈ dim_player_rows lineups /\ l_player_id d = l_player_id r) /\
  (forall d, d ∈ dim_player_rows lineups ->
     exists i, lineups !! i = Some d /\
       forall j r, (j < i)%nat -> lineups !! j = Some r ->
         l_player_id r <> l_player_id d).
Proof.
  unfold dim_player_rows, drop_duplicates. split; [apply drop_from_nodup|]. split.
  - intros r Hr. apply drop_from_covers; [exact Hr|]. intros H. inversion H.
  - intros d Hd. exact (drop_from_first l_player_id [] lineups d Hd).
Qed.

(** *** dim_team *)

(** The sort key of a team name: its bytes, so that [order_by] compares
    names the way Python compares strings. *)
Definition name_key (s : string) : list (option Z) :=
  map (fun c => Some (Z.of_N (Ascii.N_of_ascii c))) (String.list_ascii_of_string s).

(** [s1 < s2] on names. *)
Definition name_lt (s1 s2 : string) : Prop := lex_cmp (name_key s1) (name_key s2) = Lt.

(** [pd.Series(pd.concat([home, away]).unique()).dropna().sort_values()]
    on name columns whose values are strings or missing. *)
Definition teams (home away : list (option string)) : list string :=
  order_by name_key (omap id (drop_duplicates id (home ++ away)%list)).

(** The frame [out] of [build_dim_team]: the rows [(team_name, team_id)],
    with [team_id = range(1, len(teams) + 1)]. *)
Definition dim_team_rows (home away : list (option string)) : list (string * Z) :=
  imap (fun i name => (name, Z.of_nat (S i))) (teams home away).

Example dim_team_of_two_matches :
  dim_team_rows [Some "Qatar"; Some "England"; None] [Some "Ecuador"; Some "Qatar"; None]
  = [("Ecuador", 1); ("England", 2); ("Qatar", 3)].
Proof. vm_compute. reflexivity. Qed.

Lemma name_key_inj (s1 s2 : string) : name_key s1 = name_key s2 -> s1 = s2.
Proof.
  unfold name_key. intros H.
  rewrite <- (String.string_of_list_ascii_of_string s1),
          <- (String.string_of_list_ascii_of_string s2).
  f_equal. revert H.
  generalize (String.list_ascii_of_string s1) (String.list_ascii_of_string s2).
  induction l as [|c l IH]; intros [|c' l'] H; simpl in H; try discriminate;
    [reflexivity|].
  injection H as Hc Hl. f_equal; [|apply IH, Hl].
  apply N2Z.inj in Hc.
  rewrite <- (Ascii.ascii_N_embedding c), <- (Ascii.ascii_N_embedding c').
  congruence.
Qed.

Lemma lex_cmp_eq (k1 k2 : list (option Z)) : lex_cmp k1 k2 = Eq -> k1 = k2.
Proof.
  revert k2. induction k1 as [|a k1 IH]; intros [|b k2] H; simpl in H;
    try discriminate; [reflexivity|].
  destruct (cmp_nulls_last a b) eqn:E; try discriminate.
  apply cmp_nulls_last_eq in E. f_equal; [exact E | apply IH, H].
Qed.

Lemma sorted_distinct_names (l : list string) :
  NoDup l ->
  StronglySorted (fun a b => row_leb name_key a b = true) l ->
  StronglySorted name_lt l.
Proof.
  intros Hnd Hs. induction Hs as [|x l Hs IH Hx]; [constructor|].
  apply NoDup_cons in Hnd as [Hx' Hnd].
  constructor; [apply IH, Hnd|].
  rewrite List.Forall_forall in *. intros y Hy.
  specialize (Hx y Hy). unfold row_leb, key_leb in Hx. unfold name_lt.
  destruct (lex_cmp (name_key x) (name_key y)) eqn:E; [|reflexivity|discriminate].
  exfalso. apply Hx'. apply lex_cmp_eq, name_key_inj in E. subst y.
  apply list_elem_of_In, Hy.
Qed.

Lemma dropna_nodup {A : Type} (l : list (option A)) :
  NoDup l -> NoDup (omap id l).
Proof.
  induction 1 as [|x l Hx Hl IH]; simpl; [constructor|].
  destruct x as [s|]; simpl; [|exact IH].
  constructor; [|exact IH].
  intros Hin. apply Hx. apply list_elem_of_omap in Hin as [o [Ho Hs]].
  simpl in Hs. subst o. exact Ho.
Qed.

Lemma teams_spec (home away : list (option string)) :
  NoDup (teams home away) /\
  StronglySorted name_lt (teams home away) /\
  (forall name, name ∈ teams home away <-> Some name ∈ (home ++ away)%list).
Proof.
  unfold teams.
  set (all := (home ++ away)%list).
  set (names := omap id (drop_duplicates id all)).
  assert (Hperm : order_by name_key names ≡ₚ names) by apply GoldTables.order_by_perm.
  assert (Hnd : NoDup names).
  { apply dropna_nodup.
    pose proof (drop_from_nodup id [] all) as H. rewrite List.map_id in H.
    exact H. }
  assert (Hin : forall name, name ∈ names <-> Some name ∈ all).
  { intros name. subst names. rewrite list_elem_of_omap. split.
    - intros [o [Ho Hs]]. simpl in Hs. subst o.
      apply (elem_of_drop_from id) in Ho as [Ho _]. exact Ho.
    - intros Hs. exists (Some name). split; [|reflexivity].
      destruct (drop_from_covers id [] all (Some name) Hs) as [d [Hd Hk]].
      { intros H. inversion H. }
      simpl in Hk. subst d. exact Hd. }
  split; [rewrite Hperm; exact Hnd|]. split.
  - apply sorted_distinct_names; [rewrite Hperm; exact Hnd | apply order_by_sorted].
  - intros name. rewrite Hperm. apply Hin.
Qed.

(** X23. dim_team numbers the distinct team names of the matches in
    alphabetical order: the team names are exactly the non-missing home and
    away names, each once, in strictly increasing order, and the team_id of
    the i-th row is i, starting at 1. *)
Theorem dim_team_ids_rank_names (home away : list (option string)) :
  map fst (dim_team_rows home away) = teams home away /\
  map snd (dim_team_rows home away)
  = map Z.of_nat (seq 1 (length (teams home away))) /\
  StronglySorted name_lt (map fst (dim_team_rows home away)) /\
  (forall name,
     (exists id, (name, id) ∈ dim_team_rows home away)
     <-> Some name ∈ (home ++ away)%list).
Proof.
  assert (Hfst : forall (l : list string) k,
            map fst (imap (fun i name => (name, Z.of_nat (S (k + i)))) l) = l).
  { induction l as [|x l IH]; intros k; simpl; [reflexivity|]. f_equal.
    etransitivity; [|apply (IH (S k))]. f_equal. apply imap_ext. intros i y _.
    simpl. do 2 f_equal. lia. }
  assert (Hsnd : forall (l : list string) k,
            map snd (imap (fun i name => (name, Z.of_nat (S (k + i)))) l)
            = map Z.of_nat (seq (S k) (length l))).
  { induction l as [|x l IH]; intros k; simpl; [reflexivity|].
    rewrite Nat.add_0_r. f_equal.
    etransitivity; [|apply (IH (S k))]. f_equal. apply imap_ext. intros i y _.
    simpl. do 2 f_equal. lia. }
  destruct (teams_spec home away) as (Hnd & Hsorted & Hin).
  unfold dim_team_rows.
  pose proof (Hfst (teams home away) 0%nat) as H1.
  pose proof (Hsnd (teams home away) 0%nat) as H2.
  simpl in H1, H2.
  split; [exact H1|]. split; [exact H2|]. split; [rewrite H1; exact Hsorted|].
  intros name. split.
  - intros [id Hid]. apply Hin. rewrite <- H1.
    apply list_elem_of_fmap. exists (name, id). split; [reflexivity | exact Hid].
  - intros Hs. apply Hin in Hs. rewrite <- H1 in Hs.
    apply list_elem_of_fmap in Hs as [[n id] [-> Hid]]. exists id. exact Hid.
Qed.

End SilverDims.

(** ** scripts/xt_model.py: the rows [load_data] reads *)

Module XtLoad.

Import Sql SilverDims.

(** The value of a WHERE condition: TRUE, FALSE or, as [None], NULL. *)
Definition truth : Type := option bool.

Definition and3 (a b : truth) : truth :=
  match a, b with
  | Some false, _ | _, Some false => Some false
  | Some true, Some true => Some true
  | _, _ => None
  end.

Definition or3 (a b : truth) : truth :=
  match a, b with
  | Some true, _ | _, Some true => Some true
  | Some false, Some false => Some false
  | _, _ => None
  end.

(** A WHERE clause keeps the rows on which it is TRUE. *)
Definition holds (t : truth) : bool :=
  match t with
  | Some true => true
  | _ => false
  end.

Definition is_not_null {A : Type} (o : option A) : truth :=
  Some (match o with Some _ => true | None => false end).

Definition set_piece (pass_type : cell) : bool :=
  str_eq pass_type "Kick Off" || str_eq pass_type "Goal Kick"
  || str_eq pass_type "Corner" || str_eq pass_type "Throw-in".

(** [pass_type NOT IN ('Kick Off', 'Goal Kick', 'Corner', 'Throw-in')] *)
Definition not_set_piece (pass_type : cell) : truth :=
  if isna pass_type then None else Some (negb (set_piece pass_type)).

(** [p.location_x IS NOT NULL AND p.end_location_x IS NOT NULL
     AND p.pass_type NOT IN (...) OR p.pass_type IS NULL]: AND binds tighter
    than OR. *)
Definition where_pass (p : pass_row) : truth :=
  or3 (and3 (and3 (is_not_null (p_location_x p)) (is_not_null (p_end_location_x p)))
            (not_set_piece (p_pass_type p)))
      (Some (isna (p_pass_type p))).

(** [ON p.player_id = pl.player_id] *)
Definition on_player (p : pass_row) (pl : lineup_row) : bool :=
  eqb (p_player_id p) (l_player_id pl).

(** The [passes] frame of [load_data]: a pass of fact_passes, and the
    dim_player row joined to it, if any. *)
Definition load_passes (fact_passes : list pass_row) (dim_player : list lineup_row)
  : list (pass_row * option lineup_row) :=
  List.filter (fun j => holds (where_pass (fst j)))
              (left_join on_player fact_passes dim_player).

Lemma holds_where_pass (p : pass_row) :
  holds (where_pass p)
  = isna (p_pass_type p)
    || (bool_decide (p_location_x p <> None)
        && bool_decide (p_end_location_x p <> None)
        && negb (set_piece (p_pass_type p))).
Proof.
  unfold where_pass, not_set_piece, is_not_null.
  destruct (isna (p_pass_type p)) eqn:Hna.
  - destruct (p_location_x p), (p_end_location_x p); reflexivity.
  - destruct (p_location_x p), (p_end_location_x p), (set_piece (p_pass_type p));
      reflexivity.
Qed.

Lemma map_fst_left_join {A B : Type} (on : A -> B -> bool) (l : list A) (r : list B) :
  (forall a, a ∈ l -> (length (List.filter (on a) r) <= 1)%nat) ->
  map fst (left_join on l r) = l.
Proof.
  unfold left_join. induction l as [|a l IH]; intros H; [reflexivity|].
  cbn [flat_map]. rewrite List.map_app, IH by (intros a' Ha'; apply H; right; exact Ha').
  specialize (H a ltac:(left)).
  destruct (List.filter (on a) r) as [|b [|b' ms]]; simpl in *; [reflexivity ..|lia].
Qed.

Lemma dim_player_matches_once (lineups : list lineup_row) (p : pass_row) :
  (length (List.filter (on_player p) (dim_player_rows lineups)) <= 1)%nat.
Proof.
  pose proof (drop_from_nodup l_player_id [] lineups) as Hnd.
  fold (drop_duplicates l_player_id lineups) in Hnd.
  fold (dim_player_rows lineups) in Hnd.
  apply GoldTables.filter_nodup_unique.
  - exact (NoDup_fmap_1 _ _ Hnd).
  - intros x y Hx Hy Px Py. unfold on_player in Px, Py.
    pose proof (PassNetwork.eqb_same _ _ _ Px Py) as Hkey.
    apply list_elem_of_lookup in Hx as [i Hi]. apply list_elem_of_lookup in Hy as [j Hj].
    assert (Hij : i = j).
    { apply (NoDup_lookup _ i j (l_player_id x) Hnd).
      - rewrite list_lookup_fmap, Hi. reflexivity.
      - rewrite list_lookup_fmap, Hj. simpl. congruence. }
    subst j. congruence.
Qed.

(** X24. Which passes [load_data] reads: a pass whose pass_type is NULL is
    kept whatever its locations, even NULL ones, and a pass with a
    pass_type is kept exactly when both location_x and end_location_x are
    set and the type is none of Kick Off, Goal Kick, Corner and Throw-in;
    joined to the dim_player the silver stage builds, every kept pass
    is read exactly once, in table order. *)
Theorem load_passes_keeps (fact_passes : list pass_row) (lineups : list lineup_row) :
  (forall p, isna (p_pass_type p) = true -> holds (where_pass p) = true) /\
  (forall p, isna (p_pass_type p) = false ->
     (holds (where_pass p) = true <->
      p_location_x p <> None /\ p_end_location_x p <> None /\
      set_piece (p_pass_type p) = false)) /\
  map fst (load_passes fact_passes (dim_player_rows lineups))
  = List.filter (fun p => holds (where_pass p)) fact_passes.
Proof.
  split; [|split].
  - intros p Hna. rewrite holds_where_pass, Hna. reflexivity.
  - intros p Hna. rewrite holds_where_pass, Hna. simpl.
    rewrite !andb_true_iff, !bool_decide_eq_true, negb_true_iff. tauto.
  - unfold load_passes.
    rewrite <- (map_fst_left_join on_player fact_passes (dim_player_rows lineups))
      at 2 by (intros p _; apply dim_player_matches_once).
    rewrite SilverRuns.filter_map. reflexivity.
Qed.

End XtLoad.

(** ** scripts/ppda.py: whose passes are counted *)

Module PpdaPairs.

Import Sql Ppda.

(** The passes a team made in the zone in a match, under one team name. *)
Definition zone_passes (fact_events : list event_row)
    (key : option Z * option Z * cell) : list event_row :=
  List.filter (fun ev => bool_decide (team_key ev = key))
              (List.filter (fun ev => is_pass ev && in_zone ev) fact_events).

Lemma elem_of_merge {A B K : Type} `{EqDecision K} (kl : A -> K) (kr : B -> K)
    (l : list A) (r : list B) (a : A) (b : B) :
  (a, b) ∈ merge kl kr l r -> a ∈ l /\ b ∈ r /\ kl a = kr b.
Proof.
  unfold merge. intros H.
  apply list_elem_of_In, List.in_flat_map in H as [a' [Ha' H]].
  apply List.in_map_iff in H as [b' [Heq Hb']]. injection Heq as -> ->.
  apply List.filter_In in Hb' as [Hb' Hk]. apply bool_decide_eq_true_1 in Hk.
  split; [apply list_elem_of_In, Ha'|]. split; [apply list_elem_of_In, Hb' | exact Hk].
Qed.

Lemma elem_of_left_join_none {A B : Type} (on : A -> B -> bool) (l : list A)
    (r : list B) (a : A) :
  (a, None) ∈ left_join on l r -> forall b, b ∈ r -> on a b = false.
Proof.
  unfold left_join. intros H b Hb.
  apply list_elem_of_In, List.in_flat_map in H as [a' [_ H]].
  destruct (List.filter (on a') r) as [|b0 ms] eqn:E.
  - apply List.in_inv in H as [H | []]. injection H as ->.
    destruct (on a b) eqn:Hon; [|reflexivity].
    assert (Hin : List.In b (List.filter (on a) r)).
    { apply List.filter_In. split; [apply list_elem_of_In, Hb | exact Hon]. }
    rewrite E in Hin. inversion Hin.
  - apply List.in_map_iff in H as [b' [Heq _]]. discriminate Heq.
Qed.

Lemma count_by_team_row (keep : event_row -> bool) (fact_events : list event_row)
    (c : option Z * option Z * cell * Z) :
  c ∈ count_by_team keep fact_events ->
  snd c = count (List.filter (fun ev => bool_decide (team_key ev = fst c))
                             (List.filter keep fact_events)).
Proof.
  unfold count_by_team. intros H.
  apply list_elem_of_fmap in H as [g [-> Hg]]. simpl.
  apply elem_of_group_by in Hg as [Hrows _]. rewrite Hrows. reflexivity.
Qed.

Lemma count_by_team_covers (keep : event_row -> bool) (fact_events : list event_row)
    (ev : event_row) :
  ev ∈ fact_events -> keep ev = true ->
  exists c, c ∈ count_by_team keep fact_events /\ fst c = team_key ev.
Proof.
  intros Hev Hkeep. unfold count_by_team, group_by, distinct.
  eexists. split.
  - apply list_elem_of_fmap. eexists. split; [reflexivity|].
    apply list_elem_of_fmap. exists (team_key ev). split; [reflexivity|].
    apply elem_of_remove_dups, list_elem_of_fmap. exists ev. split; [reflexivity|].
    apply list_elem_of_In, List.filter_In. split; [apply list_elem_of_In, Hev | exact Hkeep].
  - reflexivity.
Qed.

(** X25. The passes in the numerator of a PPDA row are the opponent's: the
    row's team is named, it is paired with a named team of the same match
    under another team id, and opp_passes_in_zone is the number of passes
    that team made in the zone under one of its names, or 0 when it made
    none there. *)
Theorem ppda_counts_opponent_passes (fact_events : list event_row) (r : ppda_row) :
  r ∈ ppda_match fact_events ->
  (pp_match_id r, pp_team_id r, pp_team r) ∈ match_teams fact_events /\
  isna (pp_team r) = false /\
  exists opp_id opp_team,
    (pp_match_id r, opp_id, opp_team) ∈ match_teams fact_events /\
    ne (pp_team_id r) opp_id = true /\
    ((pp_opp_passes_in_zone r = 0 /\
      forall ev, ev ∈ fact_events -> is_pass ev && in_zone ev = true ->
        ~ (ev_match_id ev = pp_match_id r /\ ev_team_id ev = opp_id)) \/
     (exists name,
        pp_opp_passes_in_zone r
        = count (zone_passes fact_events (pp_match_id r, opp_id, name)) /\
        1 <= pp_opp_passes_in_zone r)).
Proof.
  unfold ppda_match. intros H.
  apply list_elem_of_fmap in H as [p [-> Hp]].
  destruct p as [[[own_ opp] passes] actions].
  unfold pairs, merge_left in Hp.
  pose proof (elem_of_left_join _ _ _ _ Hp) as Hwith. simpl in Hwith.
  pose proof (elem_of_left_join _ _ _ _ Hwith) as Hothers. simpl in Hothers.
  apply list_elem_of_In, List.filter_In in Hothers as [Hboth Hne].
  apply list_elem_of_In, elem_of_merge in Hboth as (Hown & Hopp & Hmatch).
  simpl in Hne, Hmatch.
  destruct own_ as [[m t] team], opp as [[m' t'] team']. simpl in *. subst m'.
  unfold ppda_of, own. simpl.
  split; [exact Hown|]. split.
  { unfold match_teams, distinct in Hown.
    apply elem_of_remove_dups, list_elem_of_fmap in Hown as [ev [Hk Hev]].
    apply list_elem_of_In, List.filter_In in Hev as [_ Hna].
    unfold team_key in Hk. injection Hk as _ _ ->.
    apply negb_true_iff in Hna. exact Hna. }
  exists t', team'. split; [exact Hopp|]. split; [exact Hne|].
  destruct passes as [c|]; simpl.
  - right. apply elem_of_left_join_some in Hwith as [Hc Hon].
    apply bool_decide_eq_true_1 in Hon. simpl in Hon.
    pose proof (count_by_team_row _ _ _ Hc) as Hcount.
    apply count_by_team_positive in Hc as [Hpos _].
    destruct c as [[[cm ct] cname] n]. simpl in *. injection Hon as <- <-.
    exists cname. split; [exact Hcount | exact Hpos].
  - left. split; [reflexivity|].
    intros ev Hev Hkeep [Hm Ht].
    destruct (count_by_team_covers (fun ev => is_pass ev && in_zone ev) fact_events
                ev Hev Hkeep) as [c [Hc Hkey]].
    pose proof (elem_of_left_join_none _ _ _ _ Hwith c Hc) as Hoff.
    apply bool_decide_eq_false_1 in Hoff. apply Hoff. simpl.
    rewrite Hkey. unfold team_key. simpl. congruence.
Qed.

Lemma ppda_counts_opponent_passes_witness :
  exists r,
    r ∈ ppda_match pressing_events /\
    (pp_match_id r, pp_team_id r, pp_team r) ∈ match_teams pressing_events /\
    isna (pp_team r) = false.
Proof.
  assert (Hin : exists r, r ∈ ppda_match pressing_events).
  { eexists. vm_compute. left. }
  destruct Hin as [r Hin]. exists r. split; [exact Hin|].
  destruct (ppda_counts_opponent_passes pressing_events r Hin) as (H1 & H2 & _).
  split; [exact H1 | exact H2].
Defined.

End PpdaPairs.

(** ** pipeline/downloader.py: [_fetch_json] *)

Module Downloader.

Local Open Scope se_scope.

Section Fetch.

(** The decoded JSON document, and the exceptions of a request. *)
Variables (json exn : Type).

(** [isinstance(e, requests.exceptions.RequestException)]: SSLError is one. *)
Variable is_request_exception : exn -> bool.

(** The network: what the n-th request ever made does, [requests.get(url)]
    followed by [raise_for_status()] and [json()]. *)
Variable network : nat -> exn + json.

(** The requests made so far and the seconds spent in [time.sleep]. *)
Record world : Type := {
  requests : nat;
  slept : Z
}.

Definition get : SE world exn json :=
  fun w => ({| requests := S (requests w); slept := slept w |}, network (requests w)).

Definition sleep (seconds : Z) : SE world exn unit :=
  fun w => ({| requests := requests w; slept := slept w + seconds |}, inr tt).

(** The loop from [attempt] on, with [left] iterations to go; [None] is the
    value of a call whose loop ends without a [return]. *)
Fixpoint attempts (retries attempt left : nat) : SE world exn (option json) :=
  match left with
  | O => ret None
  | S left' =>
      fun w =>
        match get w with
        | (w', inr data) => (w', inr (Some data))
        | (w', inl e) =>
            if is_request_exception e && (attempt <? retries)%nat
            then (sleep (3 * Z.of_nat attempt) ;;
                  attempts retries (S attempt) left') w'
            else (w', inl e)
        end
  end.

(** [_fetch_json(url, retries)] *)
Definition _fetch_json (retries : nat) : SE world exn (option json) :=
  attempts retries 1 retries.

(** A request that raised an exception the loop catches. *)
Definition failed (n : nat) : Prop :=
  exists e, network n = inl e /\ is_request_exception e = true.

(** The seconds slept after [k] failed attempts that started at [attempt]. *)
Fixpoint backoff (attempt k : nat) : Z :=
  match k with
  | O => 0
  | S k' => 3 * Z.of_nat attempt + backoff (S attempt) k'
  end.

Lemma backoff_closed (attempt k : nat) :
  2 * backoff attempt k
  = 3 * Z.of_nat k * (2 * Z.of_nat attempt + Z.of_nat k - 1).
Proof.
  revert attempt. induction k as [|k IH]; intros attempt; cbn [backoff]; [lia|].
  rewrite Z.mul_add_distr_l, IH. lia.
Qed.

Lemma attempts_step (retries attempt left : nat) (w : world) :
  attempts retries attempt (S left) w
  = match network (requests w) with
    | inr data =>
        ({| requests := S (requests w); slept := slept w |}, inr (Some data))
    | inl e =>
        if is_request_exception e && (attempt <? retries)%nat
        then attempts retries (S attempt) left
               {| requests := S (requests w);
                  slept := slept w + 3 * Z.of_nat attempt |}
        else ({| requests := S (requests w); slept := slept w |}, inl e)
    end.
Proof.
  cbn [attempts]. unfold get.
  destruct (network (requests w)) as [e|data]; [|reflexivity].
  destruct (is_request_exception e && (attempt <? retries)%nat); reflexivity.
Qed.

Lemma attempts_requests (retries attempt left : nat) (w : world) :
  (requests (fst (attempts retries attempt left w)) <= requests w + left)%nat.
Proof.
  revert attempt w. induction left as [|left IH]; intros attempt w; [simpl; lia|].
  rewrite attempts_step.
  destruct (network (requests w)) as [e|data]; [|simpl; lia].
  destruct (is_request_exception e && (attempt <? retries)%nat); [|simpl; lia].
  specialize (IH (S attempt)
                {| requests := S (requests w);
                   slept := slept w + 3 * Z.of_nat attempt |}).
  cbn [requests] in IH. lia.
Qed.

Lemma attempts_returned (retries attempt left k : nat) (w : world) (data : json) :
  (attempt + left = S retries)%nat -> (k < left)%nat ->
  (forall i, (i < k)%nat -> failed (requests w + i)) ->
  network (requests w + k) = inr data ->
  attempts retries attempt left w
  = ({| requests := requests w + S k; slept := slept w + backoff attempt k |},
     inr (Some data)).
Proof.
  revert attempt left w. induction k as [|k IH]; intros attempt left w Hsum Hk Hfail Hok;
    (destruct left as [|left]; [lia|]); rewrite attempts_step.
  - rewrite Nat.add_0_r in Hok. rewrite Hok.
    rewrite Nat.add_1_r. cbn [backoff]. rewrite Z.add_0_r. reflexivity.
  - destruct (Hfail 0%nat ltac:(lia)) as [e [He Hreq]]. rewrite Nat.add_0_r in He.
    rewrite He, Hreq.
    destruct (Nat.ltb_spec attempt retries) as [_|Hge]; [|lia]. cbn [andb].
    rewrite (IH (S attempt) left
               {| requests := S (requests w);
                  slept := slept w + 3 * Z.of_nat attempt |});
      cbn [requests slept backoff].
    + f_equal. f_equal; [lia|]. rewrite Z.add_assoc. reflexivity.
    + lia.
    + lia.
    + intros i Hi. destruct (Hfail (S i) ltac:(lia)) as [e' [He' Hreq']].
      exists e'. split; [|exact Hreq']. rewrite <- He'. f_equal. lia.
    + rewrite <- Hok. f_equal. lia.
Qed.

(** X26. [_fetch_json] makes at most [retries] requests. It returns the
    document of the first request that succeeds, having slept 3, 6, 9, ...
    seconds after the failed ones; when the last of the [retries] requests
    raises, or a request raises an exception that is not a
    RequestException, it raises that exception without sleeping again. *)
Theorem fetch_json_retries (retries : nat) (w : world) :
  (requests (fst (_fetch_json retries w)) <= requests w + retries)%nat /\
  (forall k data, (k < retries)%nat ->
     (forall i, (i < k)%nat -> failed (requests w + i)) ->
     network (requests w + k) = inr data ->
     exists w',
       _fetch_json retries w = (w', inr (Some data)) /\
       requests w' = (requests w + S k)%nat /\
       2 * (slept w' - slept w) = 3 * Z.of_nat k * (Z.of_nat k + 1)) /\
  (forall k e, (k < retries)%nat ->
     (forall i, (i < k)%nat -> failed (requests w + i)) ->
     network (requests w + k) = inl e ->
     S k = retries \/ is_request_exception e = false ->
     exists w',
       _fetch_json retries w = (w', inl e) /\
       requests w' = (requests w + S k)%nat /\
       2 * (slept w' - slept w) = 3 * Z.of_nat k * (Z.of_nat k + 1)).
Proof.
  unfold _fetch_json. split; [apply attempts_requests|]. split.
  - intros k data Hk Hfail Hok.
    eexists. split; [apply (attempts_returned retries 1 retries k); auto; lia|].
    cbn [requests slept]. split; [reflexivity|].
    pose proof (backoff_closed 1 k) as H. lia.
  - intros k e Hk Hfail Hlast Hstop.
    assert (Hgen : forall left attempt w0,
              (k < left)%nat -> (attempt + left = S retries)%nat ->
              (S (attempt + k) = S retries \/ is_request_exception e = false) ->
              (forall i, (i < k)%nat -> failed (requests w0 + i)) ->
              network (requests w0 + k) = inl e ->
              attempts retries attempt left w0
              = ({| requests := requests w0 + S k;
                    slept := slept w0 + backoff attempt k |}, inl e)).
    { clear w Hfail Hlast Hk Hstop.
      induction k as [|k IH]; intros left attempt w0 Hk Hsum Hstop Hfail Hlast;
        (destruct left as [|left]; [lia|]); rewrite attempts_step.
      - rewrite Nat.add_0_r in Hlast. rewrite Hlast.
        assert (Hno : is_request_exception e && (attempt <? retries)%nat = false).
        { destruct Hstop as [Hlastone|Hother].
          - destruct (Nat.ltb_spec attempt retries); [lia|]. apply andb_false_r.
          - rewrite Hother. reflexivity. }
        rewrite Hno, Nat.add_1_r. cbn [backoff]. rewrite Z.add_0_r. reflexivity.
      - destruct (Hfail 0%nat ltac:(lia)) as [e0 [He0 Hreq]].
        rewrite Nat.add_0_r in He0. rewrite He0, Hreq.
        destruct (Nat.ltb_spec attempt retries) as [_|Hge]; [|lia]. cbn [andb].
        rewrite (IH left (S attempt)
                   {| requests := S (requests w0);
                      slept := slept w0 + 3 * Z.of_nat attempt |});
          cbn [requests slept backoff].
        + f_equal. f_equal; [lia|]. rewrite Z.add_assoc. reflexivity.
        + lia.
        + lia.
        + destruct Hstop as [H|H]; [left; lia | right; exact H].
        + intros i Hi. destruct (Hfail (S i) ltac:(lia)) as [e' [He' Hreq']].
          exists e'. split; [|exact Hreq']. rewrite <- He'. f_equal. lia.
        + rewrite <- Hlast. f_equal. lia. }
    eexists. split.
    + apply (Hgen retries 1%nat w); auto; try lia.
      destruct Hstop as [H|H]; [left; lia | right; exact H].
    + cbn [requests slept]. split; [reflexivity|].
      pose proof (backoff_closed 1 k) as H. lia.
Qed.

End Fetch.

End Downloader.

(** ** scripts/xt_model.py: the player table *)

Module XtPlayer.

Import Sql.

Local Open Scope Q_scope.

(** A row of [passes_xt] or [carries_xt] with the columns the table reads:
    [player_name] is missing when dim_player has no such player. *)
Record scored : Type := {
  sc_player_id : option Z;
  sc_player_name : option string;
  sc_match_id : option Z;
  sc_xt_added : Q
}.

(** A row of [all_actions]. *)
Record action : Type := {
  ac_player_id : option Z;
  ac_player_name : option string;
  ac_match_id : option Z;
  ac_action : string;
  ac_xt_added : Q
}.

Definition as_action (kind : string) (s : scored) : action :=
  {| ac_player_id := sc_player_id s;
     ac_player_name := sc_player_name s;
     ac_match_id := sc_match_id s;
     ac_action := kind;
     ac_xt_added := sc_xt_added s |}.

(** [pd.concat([passes_xt[...], carries_xt[...]], ignore_index=True)] *)
Definition all_actions (passes_xt carries_xt : list scored) : list action :=
  (map (as_action "pass") passes_xt ++ map (as_action "carry") carries_xt)%list.

Record player_xt_row : Type := {
  px_player_id : Z;
  px_player_name : string;
  px_total_xt_added : Q;
  px_xt_passes : Q;
  px_xt_carries : Q;
  px_actions_count : Z;
  px_matches_played : Z;
  px_xt_per_90 : Q
}.

(** [.round(4)]: to the nearest ten-thousandth, halves to the even one. *)
Definition round4 (q : Q) : Q :=
  let scaled := q * 10000 in
  let low := Qfloor scaled in
  let rest := scaled - inject_Z low in
  let nearest :=
    match Qcompare rest (1 # 2) with
    | Lt => low
    | Gt => (low + 1)%Z
    | Eq => if Z.even low then low else (low + 1)%Z
    end in
  inject_Z nearest / 10000.

(** The key of a row in [groupby(["player_id", "player_name"])], which
    leaves out the rows with a missing key. *)
Definition group_key (a : action) : option (Z * string) :=
  match ac_player_id a, ac_player_name a with
  | Some id, Some name => Some (id, name)
  | _, _ => None
  end.

Definition xt_sum (l : list action) : Q := fold_right Qplus 0 (map ac_xt_added l).

Definition of_kind (kind : string) (l : list action) : list action :=
  List.filter (fun a => String.eqb (ac_action a) kind) l.

(** ["nunique"]: the distinct match ids, a missing one left out. *)
Definition nunique (l : list action) : Z :=
  count (remove_dups (omap ac_match_id l)).

(** The aggregates of one group, then [xt_per_90] and the rounding of the
    total. *)
Definition player_row (key : Z * string) (rows : list action) : player_xt_row :=
  {| px_player_id := fst key;
     px_player_name := snd key;
     px_total_xt_added := round4 (xt_sum rows);
     px_xt_passes := xt_sum (of_kind "pass" rows);
     px_xt_carries := xt_sum (of_kind "carry" rows);
     px_actions_count := count rows;
     px_matches_played := nunique rows;
     px_xt_per_90 := round4 (xt_sum rows / inject_Z (nunique rows)) |}.

(** The rows of the table [build_gold_xt_player] returns. Their order, which
    the sorted group keys and the final [sort_values] fix, is not modelled:
    the list is in order of appearance of the groups. *)
Definition player_xt (passes_xt carries_xt : list scored) : list player_xt_row :=
  let actions := all_actions passes_xt carries_xt in
  List.filter (fun r => (3 <=? px_matches_played r)%Z)
    (omap (fun g => match fst g with
                    | Some key => Some (player_row key (snd g))
                    | None => None
                    end)
          (group_by group_key actions)).




Lemma length_remove_dups {A : Type} `{EqDecision A} (l : list A) :
  (length (remove_dups l) <= length l)%nat.
Proof.
  induction l as [|x l IH]; simpl; [lia|].
  destruct (decide_rel elem_of x l); simpl; lia.
Qed.

Lemma length_omap_le {A B : Type} (f : A -> option B) (l : list A) :
  (length (omap f l) <= length l)%nat.
Proof.
  induction l as [|a l IH]; [simpl; lia|].
  change (omap f (a :: l))
    with (match f a with Some y => y :: omap f l | None => omap f l end).
  destruct (f a); cbn [length]; lia.
Qed.



Definition scored_pass (player : Z) (name : string) (m : Z) (xt : Q) : scored :=
  {| sc_player_id := Some player; sc_player_name := Some name;
     sc_match_id := Some m; sc_xt_added := xt |}.

(** Player 10 passes in three matches and carries in one of them; player 11
    plays one match. *)
Definition three_matches : list scored :=
  [scored_pass 10 "A" 1 (1 # 100); scored_pass 10 "A" 2 (-1 # 200);
   scored_pass 10 "A" 3 (3 # 100); scored_pass 11 "B" 1 (5 # 100)].

Example player_xt_of_three_matches :
  map (fun r => (px_player_id r, px_matches_played r, px_actions_count r,
                 Qred (px_total_xt_added r)))
      (player_xt three_matches [scored_pass 10 "A" 3 (2 # 100)])
  = [(10%Z, 3%Z, 4%Z, 11 # 200)].
Proof. vm_compute. reflexivity. Qed.


End XtPlayer.

(** ** scripts/xt_model.py: the saved grid *)

Module XtGrid.

Import XtModel.

Local Open Scope Q_scope.

(** A row of gold_xt_grid. *)
Record grid_row : Type := {
  g_grid_row : nat;
  g_grid_col : nat;
  g_zone_x_start : Q;
  g_zone_y_start : Q;
  g_xt_value : Q
}.

(** [.round(5)]: to the nearest hundred-thousandth, halves to the even one. *)
Definition round5 (q : Q) : Q :=
  let scaled := q * 100000 in
  let low := Qfloor scaled in
  let rest := scaled - inject_Z low in
  let nearest :=
    match Qcompare rest (1 # 2) with
    | Lt => low
    | Gt => (low + 1)%Z
    | Eq => if Z.even low then low else (low + 1)%Z
    end in
  inject_Z nearest / 100000.

(** [np.meshgrid(range(GRID_Y), range(GRID_X), indexing="ij")], both arrays
    flattened: the (row, col) pairs, row by row. *)
Definition meshgrid : list (nat * nat) :=
  flat_map (fun row => map (fun col => (row, col)) (seq 0 GRID_X)) (seq 0 GRID_Y).

Definition of_nat (n : nat) : Q := inject_Z (Z.of_nat n).

(** The [grid_df] of [save_results]. *)
Definition grid_df (xT : list Q) : list grid_row :=
  zip_with (fun rc v =>
              {| g_grid_row := fst rc;
                 g_grid_col := snd rc;
                 g_zone_x_start := of_nat (snd rc) / of_nat GRID_X * PITCH_X;
                 g_zone_y_start := of_nat (fst rc) / of_nat GRID_Y * PITCH_Y;
                 g_xt_value := round5 v |})
           meshgrid xT.

(** *** A location lies in the rectangle of its zone *)

Lemma meshgrid_lookup (row col : nat) :
  (row < GRID_Y)%nat -> (col < GRID_X)%nat ->
  meshgrid !! zone_index col row = Some (row, col).
Proof.
  intros Hr Hc.
  assert (Hall : forallb (fun rc => bool_decide (meshgrid !! zone_index (snd rc) (fst rc)
                                                 = Some rc)) meshgrid = true)
    by (vm_compute; reflexivity).
  rewrite forallb_forall in Hall.
  assert (Hin : List.In (row, col) meshgrid).
  { unfold meshgrid. apply List.in_flat_map. exists row. split.
    - apply List.in_seq. unfold GRID_Y in *. lia.
    - apply List.in_map, List.in_seq. unfold GRID_X in *. lia. }
  pose proof (Hall (row, col) Hin) as H.
  apply bool_decide_eq_true_1 in H. exact H.
Qed.

(** Inside the pitch, a grid coordinate is the cell the value falls in. *)
Lemma grid_coord_cell (v pitch : Q) (grid : nat) :
  (0 < grid)%nat -> 0 < pitch -> 0 <= v -> v < pitch ->
  of_nat (grid_coord v pitch grid) / of_nat grid * pitch <= v /\
  v < (of_nat (grid_coord v pitch grid) + 1) / of_nat grid * pitch.
Proof.
  intros Hg Hp H0 Hlt. unfold grid_coord.
  set (g := inject_Z (Z.of_nat grid)).
  assert (Hgpos : 0 < g).
  { subst g. change 0 with (inject_Z 0). rewrite <- Zlt_Qlt. lia. }
  set (q := v / pitch * g).
  assert (Hq0 : 0 <= q).
  { subst q. apply Qmult_le_0_compat; [|lra].
    apply Qle_shift_div_l; [exact Hp | lra]. }
  assert (Hqg : q < g).
  { subst q. rewrite <- (Qmult_1_l g) at 2.
    apply Qmult_lt_compat_r; [exact Hgpos|].
    apply Qlt_shift_div_r; [exact Hp | lra]. }
  assert (Hfloor : Qfloor (clip q 0 (inject_Z (Z.of_nat grid - 1))) = Qfloor q).
  { unfold clip. destruct (Qle_bool q 0) eqn:E1.
    - apply Qle_bool_iff in E1. assert (Hq : q == 0) by lra.
      rewrite Hq. reflexivity.
    - destruct (Qle_bool (inject_Z (Z.of_nat grid - 1)) q) eqn:E2; [|reflexivity].
      apply Qle_bool_iff in E2. rewrite Qfloor_Z.
      apply Z.le_antisymm.
      + rewrite <- (Qfloor_Z (Z.of_nat grid - 1)). apply Qfloor_resp_le. exact E2.
      + assert (H : (Qfloor q < Z.of_nat grid)%Z).
        { rewrite Zlt_Qlt. eapply Qle_lt_trans; [apply Qfloor_le | exact Hqg]. }
        lia. }
  rewrite Hfloor.
  assert (Hf0 : (0 <= Qfloor q)%Z).
  { change 0%Z with (Qfloor 0). apply Qfloor_resp_le. exact Hq0. }
  unfold of_nat. rewrite Z2Nat.id by exact Hf0. fold g.
  pose proof (Qfloor_le q) as Hlo. pose proof (Qlt_floor q) as Hhi.
  rewrite inject_Z_plus in Hhi. change (inject_Z 1) with 1 in Hhi.
  remember (inject_Z (Qfloor q)) as f eqn:Ef. clear Ef Hfloor Hf0.
  assert (Hv : v == q / g * pitch). { subst q. field. split; lra. }
  split.
  - rewrite Hv.
    apply Qmult_le_compat_r; [|lra].
    apply Qmult_le_compat_r; [exact Hlo|].
    apply Qlt_le_weak, Qinv_lt_0_compat, Hgpos.
  - rewrite Hv.
    apply Qmult_lt_compat_r; [exact Hp|].
    apply Qmult_lt_compat_r; [apply Qinv_lt_0_compat, Hgpos | exact Hhi].
Qed.

(** X28. The saved grid and [to_grid] agree: for a location inside the
    pitch, the gold_xt_grid row at the flat index of its zone carries the
    grid_row and grid_col that [to_grid] gives the location, the rounded xT
    value [assign_xt] reads for it, and a rectangle, from (zone_x_start,
    zone_y_start) and 120/16 by 80/12 wide, that contains the location. *)
Theorem saved_zone_contains_location (xT : list Q) (x y : Q) :
  length xT = ZONES ->
  0 <= x -> x < PITCH_X -> 0 <= y -> y < PITCH_Y ->
  exists r v,
    grid_df xT !! zone x y = Some r /\
    xT !! zone x y = Some v /\
    g_xt_value r = round5 v /\
    (g_grid_col r, g_grid_row r) = to_grid x y /\
    g_zone_x_start r <= x /\ x < g_zone_x_start r + PITCH_X / of_nat GRID_X /\
    g_zone_y_start r <= y /\ y < g_zone_y_start r + PITCH_Y / of_nat GRID_Y.
Proof.
  intros Hlen Hx0 Hx1 Hy0 Hy1.
  pose proof (grid_coord_lt x PITCH_X GRID_X ltac:(unfold GRID_X; lia)) as Hc.
  pose proof (grid_coord_lt y PITCH_Y GRID_Y ltac:(unfold GRID_Y; lia)) as Hr.
  destruct (grid_coord_cell x PITCH_X GRID_X ltac:(unfold GRID_X; lia) eq_refl Hx0 Hx1)
    as [Hxlo Hxhi].
  destruct (grid_coord_cell y PITCH_Y GRID_Y ltac:(unfold GRID_Y; lia) eq_refl Hy0 Hy1)
    as [Hylo Hyhi].
  destruct (lookup_lt_is_Some_2 xT (zone x y)) as [v Hv].
  { rewrite Hlen. apply zone_lt. }
  eexists. exists v. split.
  - unfold grid_df. rewrite lookup_zip_with.
    unfold zone, to_grid. rewrite (meshgrid_lookup _ _ Hr Hc). simpl.
    unfold zone, to_grid in Hv. rewrite Hv. reflexivity.
  - cbn [g_xt_value g_grid_col g_grid_row g_zone_x_start g_zone_y_start fst snd].
    split; [exact Hv|]. split; [reflexivity|]. split; [reflexivity|].
    split; [exact Hxlo|]. split.
    + eapply Qlt_le_trans; [exact Hxhi|].
      apply Qle_lteq. right. unfold of_nat, GRID_X, PITCH_X. simpl. field.
    + split; [exact Hylo|].
      eapply Qlt_le_trans; [exact Hyhi|].
      apply Qle_lteq. right. unfold of_nat, GRID_Y, PITCH_Y. simpl. field.
Qed.

Lemma saved_zone_contains_location_witness :
  exists r v,
    grid_df (zeros ZONES) !! zone 108 40 = Some r /\
    zeros ZONES !! zone 108 40 = Some v /\
    g_xt_value r = round5 v /\
    (g_grid_col r, g_grid_row r) = to_grid 108 40 /\
    g_zone_x_start r <= 108 /\ 108 < g_zone_x_start r + PITCH_X / of_nat GRID_X /\
    g_zone_y_start r <= 40 /\ 40 < g_zone_y_start r + PITCH_Y / of_nat GRID_Y.
Proof.
  apply (saved_zone_contains_location (zeros ZONES) 108 40);
    [reflexivity | unfold PITCH_X, PITCH_Y; lra ..].
Defined.

End XtGrid.

(** ** pipeline/silver.py: fact_lineups on the rows bronze wrote *)

Module FactLineups.

Import Lineups.

Record fact_lineups_row : Type := {
  fl_match_id : Z;
  fl_team_id : option Z;
  fl_team_name : cell;
  fl_player_id : option Z;
  fl_player_name : cell;
  fl_jersey_number : option Z;
  fl_position : cell;
  fl_is_starter : bool
}.

(** [_col(df, "position")] at a row of the lineups layer: the frame holds
    NaN where the row was written without interval columns, and [_col] gives
    None when no row of the layer has them. *)
Definition position_of (r : row) : cell :=
  match r_interval r with
  | Some pos => position pos
  | None => CNaN
  end.

Section Build.

(** pandas coercions, one value at a time. *)
Variable to_numeric : cell -> option Q.
Variable astype_Int64 : option Q -> option Z.

Local Abbreviation _int_col := (Silver._int_col to_numeric astype_Int64).

(** [build_fact_lineups] on the rows [ingest_lineups] wrote. *)
Definition fact_lineups_rows (lineups : list row) : list fact_lineups_row :=
  map (fun r =>
         {| fl_match_id := r_match_id r;
            fl_team_id := _int_col (r_team_id r);
            fl_team_name := r_team_name r;
            fl_player_id := _int_col (r_player_id r);
            fl_player_name := r_player_name r;
            fl_jersey_number := _int_col (r_jersey_number r);
            fl_position := position_of r;
            fl_is_starter := negb (isna (position_of r)) |})
      lineups.

(** X29. What is_starter means on the lineups bronze wrote: every position
    interval of a player that names a position gives a fact_lineups row
    with is_starter true, whatever its start time and start reason, so a
    substitute who came on is a starter too; a row has is_starter false
    only for a player without any position interval or for an interval
    without a position name. *)
Theorem is_starter_means_has_position (match_id : Z) (data : list team) :
  (forall t p pos,
     t ∈ data -> p ∈ lineup t -> pos ∈ positions p -> isna (position pos) = false ->
     exists r,
       r ∈ fact_lineups_rows (lineup_rows match_id data) /\
       fl_player_id r = _int_col (player_id p) /\
       fl_position r = position pos /\
       fl_is_starter r = true) /\
  (forall r,
     r ∈ fact_lineups_rows (lineup_rows match_id data) ->
     fl_is_starter r = negb (isna (fl_position r)) /\
     exists t p,
       t ∈ data /\ p ∈ lineup t /\
       fl_player_id r = _int_col (player_id p) /\
       (fl_is_starter r = false ->
        positions p = [] \/
        exists pos, pos ∈ positions p /\ isna (position pos) = true)).
Proof.
  destruct (lineup_rows_keep_rows match_id data) as [Hin Hout].
  split.
  - intros t p pos Ht Hp Hpos Hname.
    eexists. split.
    + apply list_elem_of_fmap. eexists. split; [reflexivity|].
      apply (Hin t p (Some pos) Ht Hp Hpos).
    + unfold position_of. simpl. rewrite Hname. auto.
  - intros r Hr. apply list_elem_of_fmap in Hr as [b [-> Hb]]. simpl.
    split; [reflexivity|].
    destruct (Hout b Hb) as (t & p & i & Ht & Hp & -> & Hi).
    exists t, p. split; [exact Ht|]. split; [exact Hp|]. split; [reflexivity|].
    unfold position_of. simpl. intros Hstarter.
    destruct i as [pos|]; [right | left; exact Hi].
    exists pos. split; [exact Hi|]. apply negb_false_iff in Hstarter. exact Hstarter.
Qed.

End Build.

End FactLineups.

(** ** scripts/ppda.py: the season table *)

Module PpdaTeam.

Import Sql Ppda.

Record ppda_team_row : Type := {
  pt_team_id : Z;
  pt_team : cell;
  pt_avg_ppda : Q;
  pt_matches : Z;
  pt_total_def_actions : Z
}.

(** The key of a row in [groupby(["team_id", "team"])], which leaves out
    the rows with a missing key. *)
Definition team_group (r : ppda_row) : option (Z * cell) :=
  match pp_team_id r with
  | Some id => if isna (pp_team r) then None else Some (id, pp_team r)
  | None => None
  end.

Definition ppda_sum (rows : list ppda_row) : Q :=
  fold_right Qplus 0%Q (map pp_ppda rows).

Definition def_actions_sum (rows : list ppda_row) : Z :=
  fold_right Z.add 0 (map pp_def_actions rows).

(** ["nunique"]: the distinct match ids, a missing one left out. *)
Definition nunique (rows : list ppda_row) : Z :=
  count (remove_dups (omap pp_match_id rows)).

(** The aggregates of one group, with the rounding of the mean. *)
Definition team_row (key : Z * cell) (rows : list ppda_row) : ppda_team_row :=
  {| pt_team_id := fst key;
     pt_team := snd key;
     pt_avg_ppda := round2 (ppda_sum rows / inject_Z (count rows));
     pt_matches := nunique rows;
     pt_total_def_actions := def_actions_sum rows |}.

(** The rows of gold_ppda_team. Their order, which the sorted group keys and
    the final [sort_values] fix, is not modelled: the list is in order of
    appearance of the groups. *)
Definition ppda_team (fact_events : list event_row) : list ppda_team_row :=
  omap (fun g => match fst g with
                 | Some key => Some (team_row key (snd g))
                 | None => None
                 end)
       (group_by team_group (ppda_match fact_events)).

(** The match rows of a team under one name. *)
Definition rows_of_team (fact_events : list event_row) (id : Z) (team : cell)
  : list ppda_row :=
  List.filter (fun r => bool_decide (team_group r = Some (id, team)))
              (ppda_match fact_events).

Example ppda_team_of_pressing_events :
  map (fun r => (pt_team_id r, pt_avg_ppda r, pt_matches r, pt_total_def_actions r))
      (ppda_team pressing_events)
  = [(1, (50 # 100)%Q, 1, 2); (2, (300 # 100)%Q, 1, 1)].
Proof. vm_compute. reflexivity. Qed.

Lemma ppda_row_bounds (fact_events : list event_row) (r : ppda_row) :
  r ∈ ppda_match fact_events -> 1 <= pp_def_actions r /\ (0 <= pp_ppda r)%Q.
Proof.
  unfold ppda_match. intros H.
  apply list_elem_of_fmap in H as [p [-> Hp]].
  destruct p as [[[own_ opp] passes] actions].
  assert (Hact : 1 <= default 1 (snd <$> actions)).
  { destruct actions as [c|]; simpl; [|lia].
    unfold pairs, merge_left in Hp.
    apply elem_of_left_join_some in Hp as [Hc _].
    apply count_by_team_positive in Hc as [Hpos _]. exact Hpos. }
  assert (Hpass : 0 <= default 0 (snd <$> passes)).
  { destruct passes as [c|]; simpl; [|lia].
    unfold pairs, merge_left in Hp.
    apply elem_of_left_join, elem_of_left_join_some in Hp as [Hc _].
    apply count_by_team_positive in Hc as [Hpos _]. lia. }
  unfold ppda_of. simpl. split; [exact Hact|].
  apply round2_nonneg. apply Qle_shift_div_l.
  - change 0%Q with (inject_Z 0). rewrite <- Zlt_Qlt. lia.
  - rewrite Qmult_0_l. change 0%Q with (inject_Z 0). rewrite <- Zle_Qle.
    exact Hpass.
Qed.

Lemma sums_of_rows (rows : list ppda_row) :
  (forall r, r ∈ rows -> 1 <= pp_def_actions r /\ (0 <= pp_ppda r)%Q) ->
  count rows <= def_actions_sum rows /\ (0 <= ppda_sum rows)%Q.
Proof.
  unfold count, def_actions_sum, ppda_sum.
  induction rows as [|r rows IH]; intros H; simpl; [split; [lia | lra]|].
  destruct (H r ltac:(left)) as [Hd Hp].
  destruct IH as [IHd IHp]; [intros r' Hr'; apply H; right; exact Hr'|].
  split; [lia | lra].
Qed.

(** X30. Every row of the season table stands for one team under one
    name: matches is at most the number of the team's match rows, and
    total_def_actions is at least that number, because a match in which the
    team made no defensive action in the zone is counted as 1; avg_ppda,
    the rounded mean of the team's match values, is not negative. *)
Theorem ppda_team_row_spec (fact_events : list event_row) (r : ppda_team_row) :
  r ∈ ppda_team fact_events ->
  isna (pt_team r) = false /\
  1 <= count (rows_of_team fact_events (pt_team_id r) (pt_team r)) /\
  pt_matches r <= count (rows_of_team fact_events (pt_team_id r) (pt_team r)) /\
  count (rows_of_team fact_events (pt_team_id r) (pt_team r))
  <= pt_total_def_actions r /\
  pt_total_def_actions r
  = def_actions_sum (rows_of_team fact_events (pt_team_id r) (pt_team r)) /\
  pt_avg_ppda r
  = round2 (ppda_sum (rows_of_team fact_events (pt_team_id r) (pt_team r))
            / inject_Z (count (rows_of_team fact_events (pt_team_id r) (pt_team r)))) /\
  (0 <= pt_avg_ppda r)%Q.
Proof.
  unfold ppda_team. intros H.
  apply list_elem_of_omap in H as [g [Hg Hr]].
  apply elem_of_group_by in Hg as [Hrows [r0 Hr0]].
  destruct g as [[[id team]|] rows]; [|discriminate Hr].
  simpl in Hrows, Hr, Hr0. injection Hr as <-.
  unfold rows_of_team. cbn [pt_team_id pt_team team_row fst snd]. rewrite <- Hrows.
  cbn [pt_matches pt_total_def_actions pt_avg_ppda].
  assert (Hall : forall r, r ∈ rows -> 1 <= pp_def_actions r /\ (0 <= pp_ppda r)%Q).
  { intros r Hr. rewrite Hrows in Hr.
    apply list_elem_of_In, List.filter_In in Hr as [Hr _].
    apply (ppda_row_bounds fact_events), list_elem_of_In, Hr. }
  destruct (sums_of_rows rows Hall) as [Hd Hp].
  assert (Hone : 1 <= count rows).
  { unfold count. destruct rows; [inversion Hr0 | simpl; lia]. }
  split.
  { rewrite Hrows in Hr0. apply list_elem_of_In, List.filter_In in Hr0 as [_ Hk].
    apply bool_decide_eq_true_1 in Hk. unfold team_group in Hk.
    destruct (pp_team_id r0); [|discriminate].
    destruct (isna (pp_team r0)) eqn:E; [discriminate|]. congruence. }
  split; [exact Hone|]. split.
  { unfold nunique, count. apply inj_le.
    transitivity (length (omap pp_match_id rows)).
    - apply XtPlayer.length_remove_dups.
    - apply XtPlayer.length_omap_le. }
  split; [exact Hd|]. split; [reflexivity|]. split; [reflexivity|].
  apply round2_nonneg. apply Qle_shift_div_l.
  - change 0%Q with (inject_Z 0). rewrite <- Zlt_Qlt. lia.
  - lra.
Qed.

Lemma ppda_team_row_spec_witness :
  exists r,
    r ∈ ppda_team pressing_events /\
    count (rows_of_team pressing_events (pt_team_id r) (pt_team r))
    <= pt_total_def_actions r /\
    (0 <= pt_avg_ppda r)%Q.
Proof.
  assert (Hin : exists r, r ∈ ppda_team pressing_events).
  { eexists. vm_compute. left. }
  destruct Hin as [r Hin]. exists r. split; [exact Hin|].
  destruct (ppda_team_row_spec pressing_events r Hin) as (_ & _ & _ & H1 & _ & _ & H2).
  split; [exact H1 | exact H2].
Defined.

End PpdaTeam.
